(** * open-vm-tools: backdoor RPC channel, guestlib version negotiation
      and the FreeBSD HGFS vnode operations.

    A shallow embedding of
      - bdoorChannel.c      (RpcInStart, RpcInStopChannel, RpcInSend),
      - vmGuestLib.c        (VMGuestLibUpdateInfo and the statistic accessors),
      - vnopscommon.c       (HgfsReadInt, HgfsWriteInt, HgfsReaddirInt and the
                             request marshaling functions HgfsDoRead,
                             HgfsDoWrite, HgfsDelete, HgfsRenameInt,
                             HgfsDirOpen, HgfsFileOpen, HgfsGetNextDirEntry).

    Integers are modelled as [Z] with the C conversions written out, C strings
    as [string], byte buffers as [list byte].  Calls into libraries whose code
    is not part of these files (RpcIn/RpcOut, the HGFS request pool, the name
    encoders, the host itself) are explicit interfaces or oracles. *)

From Stdlib Require Import ZArith List String Ascii Bool Lia Arith.
Import ListNotations.
Open Scope Z_scope.

(** ** Shared helpers *)

(** [sizeof "lit"]: the characters of the literal and its terminating NUL. *)
Definition sizeof_lit (s : string) : Z := Z.of_nat (String.length s) + 1.

(** Conversions between the C integer types that occur below. *)
Definition to_uint32 (z : Z) : Z := z mod 2 ^ 32.
Definition to_uint64 (z : Z) : Z := z mod 2 ^ 64.
Definition to_int32 (z : Z) : Z := (z + 2 ^ 31) mod 2 ^ 32 - 2 ^ 31.

(** Option monad for code that can trip an ASSERT or dereference NULL. *)
Definition obind {A B} (m : option A) (k : A -> option B) : option B :=
  match m with
  | Some a => k a
  | None => None
  end.

Notation "x <-? m ;; k" := (obind m (fun x => k))
  (at level 61, m at next level, right associativity).

(** [ASSERT(c)]: the computation stops when [c] is false. *)
Definition ASSERT (c : bool) : option unit := if c then Some tt else None.

(* ====================================================================== *)
(** ** bdoorChannel.c: the backdoor RPC channel *)
(* ====================================================================== *)

Module Bdoor.

(** What [RpcOut_send] hands back: its return value, the reply pointer
    ([None] is NULL) and the reply length it stored. *)
Record SendReply := mkSendReply {
  sr_ret : bool;
  sr_reply : option string;
  sr_replyLen : Z
}.

(** The RpcIn / RpcOut libraries (rpcin.h, rpcout.h) as an interface: every
    call takes the library object and returns its new state with the call's
    result. *)
Class RpcLib := {
  RpcOut : Type;
  RpcIn : Type;
  RpcOut_send : RpcOut -> string -> RpcOut * SendReply;
  RpcOut_start : RpcOut -> RpcOut * bool;
  RpcOut_stop : RpcOut -> RpcOut * bool;
  RpcIn_start : RpcIn -> Z -> RpcIn * bool;
  RpcIn_stop : RpcIn -> RpcIn * bool
}.

(** The library calls a channel operation makes, in order. *)
Inductive Call :=
| CallOutSend (data : string)
| CallOutStop
| CallOutStart
| CallOutDestruct
| CallInStart (delay : Z)
| CallInStop
| CallInDestruct.

Definition is_send (c : Call) : bool :=
  match c with CallOutSend _ => true | _ => false end.
Definition is_out_stop (c : Call) : bool :=
  match c with CallOutStop => true | _ => false end.
Definition is_out_start (c : Call) : bool :=
  match c with CallOutStart => true | _ => false end.

Definition count_calls (p : Call -> bool) (l : list Call) : nat :=
  List.length (List.filter p l).

(** Max amount of time (in .01s) that the RpcIn loop will sleep for. *)
Definition RPCIN_MAX_DELAY : Z := 10.

Section Channel.
Context {L : RpcLib}.

Record BackdoorChannel := mkBackdoorChannel {
  in_ : option RpcIn;
  out : option RpcOut;
  inStarted : bool;
  outStarted : bool
}.

(** The functions below leave out [ASSERT(chan->appName != NULL)]: the
    application name belongs to the enclosing RpcChannel, which they do not
    touch otherwise. *)

(** The "out" half of RpcInStopChannel. *)
Definition stop_out (bdoor : BackdoorChannel) (destroy : bool)
  : option (BackdoorChannel * list Call) :=
  match out bdoor with
  | Some o =>
      let '(o1, c1) :=
        if outStarted bdoor then (fst (RpcOut_stop o), [CallOutStop])
        else (o, []) in
      let '(o2, c2) :=
        if destroy then (None, [CallOutDestruct]) else (Some o1, []) in
      Some (mkBackdoorChannel (in_ bdoor) o2 (inStarted bdoor) false,
            c1 ++ c2)
  | None =>
      _ <-? ASSERT (negb (outStarted bdoor)) ;;
      Some (bdoor, [])
  end.

(** The "in" half of RpcInStopChannel. *)
Definition stop_in (bdoor : BackdoorChannel) (destroy : bool)
  : option (BackdoorChannel * list Call) :=
  match in_ bdoor with
  | Some i =>
      let '(i1, c1) :=
        if inStarted bdoor then (fst (RpcIn_stop i), [CallInStop])
        else (i, []) in
      let '(i2, c2) :=
        if destroy then (None, [CallInDestruct]) else (Some i1, []) in
      Some (mkBackdoorChannel i2 (out bdoor) false (outStarted bdoor),
            c1 ++ c2)
  | None =>
      _ <-? ASSERT (negb (inStarted bdoor)) ;;
      Some (bdoor, [])
  end.

Definition RpcInStopChannel (bdoor : BackdoorChannel) (destroy : bool)
  : option (BackdoorChannel * list Call) :=
  r1 <-? stop_out bdoor destroy ;;
  r2 <-? stop_in (fst r1) destroy ;;
  Some (fst r2, snd r1 ++ snd r2).

Definition RpcInShutdown (bdoor : BackdoorChannel) := RpcInStopChannel bdoor true.
Definition RpcInStop (bdoor : BackdoorChannel) := RpcInStopChannel bdoor false.

(** RpcInStart: both flags are set whatever the two start calls returned. *)
Definition RpcInStart (bdoor : BackdoorChannel)
  : option (BackdoorChannel * bool * list Call) :=
  _ <-? ASSERT (negb (inStarted bdoor)) ;;
  _ <-? ASSERT (negb (outStarted bdoor)) ;;
  i <-? in_ bdoor ;;
  let '(i1, ret) := RpcIn_start i RPCIN_MAX_DELAY in
  if ret then
    o <-? out bdoor ;;
    let '(o1, ret') := RpcOut_start o in
    if ret' then
      Some (mkBackdoorChannel (Some i1) (Some o1) true true, ret',
            [CallInStart RPCIN_MAX_DELAY; CallOutStart])
    else
      Some (mkBackdoorChannel (Some (fst (RpcIn_stop i1))) (Some o1) true true,
            ret',
            [CallInStart RPCIN_MAX_DELAY; CallOutStart; CallInStop])
  else
    Some (mkBackdoorChannel (Some i1) (out bdoor) true true, ret,
          [CallInStart RPCIN_MAX_DELAY]).

(** Out-parameters of RpcInSend: [None] when the function did not write
    through the pointer. *)
Record SendOut := mkSendOut {
  so_ret : bool;
  so_result : option (option string);
  so_resultLen : option Z
}.

(** The copy made for [*result]: [replyLen] bytes of the reply. *)
Definition copy_reply (reply : option string) (replyLen : Z) : option string :=
  match reply with
  | Some r => Some (String.substring 0 (Z.to_nat replyLen) r)
  | None => None
  end.

(** The test that selects the restart-and-resend path. *)
Definition desync_reply (r : SendReply) : bool :=
  negb (sr_ret r) &&
  match sr_reply r with
  | Some txt =>
      (sizeof_lit "RpcOut: " <? sr_replyLen r) && String.prefix "RpcOut: " txt
  | None => false
  end.

Definition finish_send (bdoor : BackdoorChannel) (r : SendReply)
                       (has_result has_resultLen : bool) (calls : list Call)
  : option (BackdoorChannel * SendOut * list Call) :=
  Some (bdoor,
        mkSendOut (sr_ret r)
          (if has_result then Some (copy_reply (sr_reply r) (sr_replyLen r))
           else None)
          (if has_resultLen then Some (sr_replyLen r) else None),
        calls).

(** RpcInSend.  [has_result] and [has_resultLen] say whether the caller
    passed non-NULL [result] and [resultLen]. *)
Definition RpcInSend (bdoor : BackdoorChannel) (data : string)
                     (has_result has_resultLen : bool)
  : option (BackdoorChannel * SendOut * list Call) :=
  if negb (outStarted bdoor) then
    Some (bdoor, mkSendOut false None None, [])
  else
    o <-? out bdoor ;;
    let '(o1, r1) := RpcOut_send o data in
    if desync_reply r1 then
      let o2 := fst (RpcOut_stop o1) in
      let '(o3, started) := RpcOut_start o2 in
      if started then
        let '(o4, r2) := RpcOut_send o3 data in
        finish_send (mkBackdoorChannel (in_ bdoor) (Some o4)
                       (inStarted bdoor) (outStarted bdoor))
                    r2 has_result has_resultLen
                    [CallOutSend data; CallOutStop; CallOutStart;
                     CallOutSend data]
      else
        finish_send (mkBackdoorChannel (in_ bdoor) (Some o3)
                       (inStarted bdoor) false)
                    r1 has_result has_resultLen
                    [CallOutSend data; CallOutStop; CallOutStart]
    else
      finish_send (mkBackdoorChannel (in_ bdoor) (Some o1)
                     (inStarted bdoor) (outStarted bdoor))
                  r1 has_result has_resultLen
                  [CallOutSend data].

(** Calling the stop function once for each flag of [ds], in order. *)
Fixpoint stop_many (bdoor : BackdoorChannel) (ds : list bool)
  : option BackdoorChannel :=
  match ds with
  | [] => Some bdoor
  | d :: ds' =>
      r <-? RpcInStopChannel bdoor d ;;
      stop_many (fst r) ds'
  end.

(** A channel on which no assertion of the stop function can fire: a
    direction whose object is gone is not marked started. *)
Definition stoppable (bdoor : BackdoorChannel) : Prop :=
  (out bdoor = None -> outStarted bdoor = false) /\
  (in_ bdoor = None -> inStarted bdoor = false).

(** The calls of a send that went through one stop, one restart and one
    resend of [data]. *)
Definition retried_once (data : string) (calls : list Call) : Prop :=
  calls = [CallOutSend data; CallOutStop; CallOutStart; CallOutSend data].

End Channel.

Section ChannelLifecycle.
Context {L : RpcLib}.

(** RpcChannel_NewBackdoorChannel: [i] and [o] are the objects that
    RpcIn_Construct and RpcOut_Construct returned. *)
Definition RpcChannel_NewBackdoorChannel (i : RpcIn) (o : RpcOut)
  : BackdoorChannel :=
  mkBackdoorChannel (Some i) (Some o) false false.

End ChannelLifecycle.

Definition is_in_stop (c : Call) : bool :=
  match c with CallInStop => true | _ => false end.

(** A scripted library for concrete runs: the out channel answers its sends
    and starts from two lists, the in loop starts as told. *)
Record Script := mkScript {
  sends : list SendReply;
  starts : list bool
}.

Definition script_send (s : Script) (_ : string) : Script * SendReply :=
  match sends s with
  | r :: rs => (mkScript rs (starts s), r)
  | [] => (s, mkSendReply false None 0)
  end.

Definition script_start (s : Script) : Script * bool :=
  match starts s with
  | b :: bs => (mkScript (sends s) bs, b)
  | [] => (s, true)
  end.

Definition ScriptLib : RpcLib := {|
  RpcOut := Script;
  RpcIn := bool;
  RpcOut_send := script_send;
  RpcOut_start := script_start;
  RpcOut_stop := fun s => (s, true);
  RpcIn_start := fun b _ => (b, b);
  RpcIn_stop := fun b => (b, true)
|}.

(** *** Concrete runs of the channel *)

Definition desync_text : string := "RpcOut: Unable to open the communication channel".

Definition failed_reply : SendReply :=
  mkSendReply false (Some desync_text) (Z.of_nat (String.length desync_text)).

Definition ok_reply : SendReply := mkSendReply true (Some "1 ok"%string) 4.

(** A started channel whose first send fails with the "RpcOut: " reply;
    [restart] is what the following RpcOut_start returns. *)
Definition desync_channel (restart : bool) : BackdoorChannel (L := ScriptLib) :=
  mkBackdoorChannel (L := ScriptLib) (Some true)
    (Some (mkScript [failed_reply; ok_reply] [restart])) true true.

(** A fresh channel as RpcChannel_NewBackdoorChannel makes it; the in loop
    starts, the out channel does not. *)
Definition fresh_channel : BackdoorChannel (L := ScriptLib) :=
  mkBackdoorChannel (L := ScriptLib) (Some true)
    (Some (mkScript [] [false])) false false.

(** A started channel whose send fails with a nine-character reply that
    starts with "RpcOut: ". *)
Definition short_reply_channel : BackdoorChannel (L := ScriptLib) :=
  mkBackdoorChannel (L := ScriptLib) (Some true)
    (Some (mkScript [mkSendReply false (Some "RpcOut: x"%string) 9; ok_reply] [true]))
    true true.

End Bdoor.

(* ====================================================================== *)
(** ** vmGuestLib.c: statistics handle and version negotiation *)
(* ====================================================================== *)

Module GuestLib.

Inductive VMGuestLibError :=
| VMGUESTLIB_ERROR_SUCCESS
| VMGUESTLIB_ERROR_OTHER
| VMGUESTLIB_ERROR_NOT_RUNNING_IN_VM
| VMGUESTLIB_ERROR_NOT_ENABLED
| VMGUESTLIB_ERROR_NOT_AVAILABLE
| VMGUESTLIB_ERROR_NO_INFO
| VMGUESTLIB_ERROR_MEMORY
| VMGUESTLIB_ERROR_BUFFER_TOO_SMALL
| VMGUESTLIB_ERROR_INVALID_HANDLE
| VMGUESTLIB_ERROR_INVALID_ARG
| VMGUESTLIB_ERROR_UNSUPPORTED_VERSION.

Definition is_success (e : VMGuestLibError) : bool :=
  match e with VMGUESTLIB_ERROR_SUCCESS => true | _ => false end.

(** The FIELDNAME arguments of the integral accessors. *)
Inductive Field :=
| cpuReservationMHz | cpuLimitMHz | cpuShares | cpuUsedMs | hostMHz
| memReservationMB | memLimitMB | memShares | memMappedMB | memActiveMB
| memOverheadMB | memBalloonedMB | memSwappedMB | memSharedMB
| memSharedSavedMB | memUsedMB | elapsedMs.

(** A statistic of the V2 struct: a validity flag and a value. *)
Record StatV2 := mkStatV2 { valid : bool; value : Z }.

(** struct VMGuestLibDataV2 behind its header. *)
Record VMGuestLibDataV2 := mkDataV2 {
  v2_stat : Field -> StatV2;
  resourcePoolPath_valid : bool;
  resourcePoolPath_value : string
}.

(** One unmarshalled V3 statistic: the discriminant [d] and the selected arm
    of the union, an integer or (for the resource pool path) a string. *)
Record GuestLibV3Stat := mkV3Stat {
  d : Z;
  v3_valid : bool;
  v3_value : Z;
  v3_path : string
}.

(** Constants and helpers that vmGuestLibInt.h, guestlibV3.h and strutil.h
    declare. *)
Class Params := {
  (** Modelled from the spec: the client's highest supported major version
      (the spec's scenario has the client start at protocol version 3, and
      the code after the loop decodes versions 2 and 3 only). *)
  VMGUESTLIB_DATA_VERSION : Z;
  GUESTLIB_MAX_STATISTIC_ID : Z;
  GUESTLIB_RESOURCE_POOL_PATH : Z;
  statId : Field -> Z;
  sizeof_VMGuestLibDataV2 : Z;
  sizeof_VMGuestLibDataV3 : Z;
  sizeof_VMGuestLibStatisticsV3 : Z;
  sizeof_GuestLibV3Stat : Z;
  sizeof_resourcePoolPath : Z;
  (** [StrUtil_GetNextUintToken(&v, &index, reply, ":")] with [index = 0]:
      the parsed number, or [None] when the call returns FALSE. *)
  StrUtil_GetNextUintToken : string -> option Z
}.

(** What one [RpcOut_sendOne] gives back, with the views the code takes of
    the reply buffer. *)
Record HostReply := mkHostReply {
  rpc_ok : bool;
  reply_text : option string;       (* the buffer as a C string; None is NULL *)
  replyLen : Z;
  hdr_version : Z;                  (* ((VMGuestLibDataV2 * ) reply)->hdr.version *)
  hdr_sessionId : Z;                (* ...->hdr.sessionId *)
  as_v2 : VMGuestLibDataV2;         (* the buffer as a VMGuestLibDataV2 *)
  xdr_count : option Z;             (* xdr_GuestLibV3StatCount, None on failure *)
  xdr_stats : list (option GuestLibV3Stat)  (* successive xdr_GuestLibV3Stat *)
}.

(** The host: its answer to the [i]-th request (counted from 0), which asked
    for version [v]. *)
Definition Host := nat -> Z -> HostReply.

(** The buffer [HANDLE_DATA] points to, tagged with the layout it was
    written with. *)
Inductive HandleData :=
| NoData
| DataV2 (dv2 : VMGuestLibDataV2)
| DataV3 (numStats : Z) (stats : list GuestLibV3Stat).

Record VMGuestLibHandleType := mkHandle {
  version : Z;
  sessionId : Z;
  dataSize : Z;
  data : HandleData
}.

Definition set_sessionId (h : VMGuestLibHandleType) (s : Z) :=
  mkHandle (version h) s (dataSize h) (data h).

(** VMGuestLib_OpenHandle allocates the handle with calloc. *)
Definition VMGuestLib_OpenHandle : VMGuestLibHandleType :=
  mkHandle 0 0 0 NoData.

(** VMGuestLibCheckArgs.  [None] is a NULL handle. *)
Definition VMGuestLibCheckArgs (handle : option VMGuestLibHandleType)
                               (outArg_nonnull : bool) : VMGuestLibError :=
  match handle with
  | None => VMGUESTLIB_ERROR_INVALID_HANDLE
  | Some h =>
      if negb outArg_nonnull then VMGUESTLIB_ERROR_INVALID_ARG
      else if sessionId h =? 0 then VMGUESTLIB_ERROR_NO_INFO
      else VMGUESTLIB_ERROR_SUCCESS
  end.

(** How the negotiation loop ends. *)
Record LoopEnd := mkLoopEnd {
  le_ret : VMGuestLibError;
  le_hostVersion : Z;
  le_handle : VMGuestLibHandleType;
  le_reply : HostReply;
  le_sent : nat                      (* requests sent in total *)
}.

Inductive LoopResult :=
| Ended (e : LoopEnd)
| Fault.                             (* a NULL reply given to a string function *)

Section WithParams.
Context {P : Params}.

(** [Str_Strncmp(reply, "Unknown command", sizeof "Unknown command") == 0]:
    the comparison covers the terminating NUL, so it is string equality. *)
Definition is_unknown_command (s : string) : bool :=
  String.eqb s "Unknown command".

(** The do-while loop of VMGuestLibUpdateInfo.  [i] counts the requests
    already sent; the result is [None] when [fuel] iterations were not
    enough.  The two ASSERTs of the loop body check what the host sent
    (the version in a successful reply, the version parsed from a failed
    one); they exist in debug builds only and are left out, so the loop is
    the one of a release build. *)
Fixpoint negotiate (fuel : nat) (host : Host) (i : nat) (hostVersion : Z)
                   (h : VMGuestLibHandleType) : option LoopResult :=
  match fuel with
  | O => None
  | S fuel' =>
      let r := host i hostVersion in
      if rpc_ok r then
        if negb (sessionId h =? 0) && negb (sessionId h =? hdr_sessionId r)
        then
          (* Renegotiate protocol if sessionId changed. *)
          negotiate fuel' host (S i) VMGUESTLIB_DATA_VERSION (set_sessionId h 0)
        else
          Some (Ended (mkLoopEnd VMGUESTLIB_ERROR_SUCCESS hostVersion h r (S i)))
      else if hostVersion =? 2 then
        Some (Ended (mkLoopEnd VMGUESTLIB_ERROR_UNSUPPORTED_VERSION
                               hostVersion h r (S i)))
      else
        match reply_text r with
        | None => Some Fault
        | Some txt =>
            if is_unknown_command txt then
              Some (Ended (mkLoopEnd VMGUESTLIB_ERROR_UNSUPPORTED_VERSION
                                     hostVersion h r (S i)))
            else if hostVersion =? 3 then
              negotiate fuel' host (S i) 2 (set_sessionId h 0)
            else
              match StrUtil_GetNextUintToken txt with
              | None =>
                  Some (Ended (mkLoopEnd VMGUESTLIB_ERROR_OTHER
                                         hostVersion h r (S i)))
              | Some v =>
                  negotiate fuel' host (S i) (to_uint32 v) h
              end
        end
  end.

(** The value [hostVersion] starts from. *)
Definition initial_version (h : VMGuestLibHandleType) : Z :=
  if version h =? 0 then VMGUESTLIB_DATA_VERSION else version h.

(** "Make sure resourcePoolPath is NUL terminated." *)
Definition terminate_path (dv2 : VMGuestLibDataV2) : VMGuestLibDataV2 :=
  mkDataV2 (v2_stat dv2) (resourcePoolPath_valid dv2)
    (String.substring 0 (Z.to_nat (sizeof_resourcePoolPath - 1))
                      (resourcePoolPath_value dv2)).

(** The unmarshalling loop of the V3 branch: statistics decoded before the
    first failure or out-of-order id, and whether all [n] were decoded. *)
Fixpoint unmarshal (n : nat) (count : Z) (xs : list (option GuestLibV3Stat))
  : list GuestLibV3Stat * bool :=
  match n with
  | O => ([], true)
  | S n' =>
      match xs with
      | Some st :: xs' =>
          if d st =? count + 1 then
            let '(l, ok) := unmarshal n' (count + 1) xs' in (st :: l, ok)
          else ([st], false)
      | _ => ([], false)
      end
  end.

(** The part of VMGuestLibUpdateInfo after a loop that ended in success. *)
Definition store_reply (e : LoopEnd) : VMGuestLibError * VMGuestLibHandleType :=
  let h := le_handle e in
  let r := le_reply e in
  let hostVersion := le_hostVersion e in
  if replyLen r <? 4 then (VMGUESTLIB_ERROR_OTHER, h)
  else if hostVersion =? 2 then
    if negb (hdr_version r =? hostVersion) then (VMGUESTLIB_ERROR_OTHER, h)
    else if negb (replyLen r =? sizeof_VMGuestLibDataV2) then
      (VMGUESTLIB_ERROR_OTHER, h)
    else
      (VMGUESTLIB_ERROR_SUCCESS,
       mkHandle (hdr_version r) (hdr_sessionId r)
                (if dataSize h <? sizeof_VMGuestLibDataV2
                 then sizeof_VMGuestLibDataV2 else dataSize h)
                (DataV2 (terminate_path (as_v2 r))))
  else if hostVersion =? 3 then
    if negb (hdr_version r =? hostVersion) then (VMGUESTLIB_ERROR_OTHER, h)
    else if replyLen r <? sizeof_VMGuestLibDataV3 then
      (VMGUESTLIB_ERROR_OTHER, h)
    else
      let h1 := mkHandle (hdr_version r) (hdr_sessionId r)
                         (dataSize h) (data h) in
      match xdr_count r with
      | None => (le_ret e, h1)
      | Some c =>
          let count := if GUESTLIB_MAX_STATISTIC_ID <=? c
                       then GUESTLIB_MAX_STATISTIC_ID - 1 else c in
          let size := sizeof_VMGuestLibStatisticsV3
                      + count * sizeof_GuestLibV3Stat in
          let dsz := if dataSize h1 <? size then size else dataSize h1 in
          let '(l, ok) := unmarshal (Z.to_nat count) 0 (xdr_stats r) in
          if ok then
            (VMGUESTLIB_ERROR_SUCCESS,
             mkHandle (version h1) (sessionId h1) dsz (DataV3 count l))
          else
            (le_ret e, mkHandle (version h1) 0 dsz (DataV3 count l))
      end
  else (VMGUESTLIB_ERROR_OTHER, h).

(** What a call of VMGuestLibUpdateInfo leaves behind. *)
Inductive UpdateResult :=
| Updated (ret : VMGuestLibError) (h : VMGuestLibHandleType) (sent : nat)
| UpdateFault.

Definition VMGuestLibUpdateInfo (fuel : nat) (host : Host)
                                (h : VMGuestLibHandleType)
  : option UpdateResult :=
  match negotiate fuel host 0 (initial_version h) h with
  | None => None
  | Some Fault => Some UpdateFault
  | Some (Ended e) =>
      if is_success (le_ret e) then
        let '(ret, h') := store_reply e in Some (Updated ret h' (le_sent e))
      else Some (Updated (le_ret e) (le_handle e) (le_sent e))
  end.

(** The handles a client can hold: the one VMGuestLib_OpenHandle returns,
    and whatever VMGuestLibUpdateInfo leaves in it, against any host. *)
Inductive reachable : VMGuestLibHandleType -> Prop :=
| reach_open : reachable VMGuestLib_OpenHandle
| reach_update fuel host h ret h' sent :
    reachable h ->
    VMGuestLibUpdateInfo fuel host h = Some (Updated ret h' sent) ->
    reachable h'.

(** The loop has stopped, and when it ended normally it had sent at most
    [n] requests. *)
Definition ended_within (n : nat) (res : LoopResult) : Prop :=
  match res with
  | Ended e => (le_sent e <= n)%nat
  | Fault => True
  end.

(** VMGUESTLIB_GETSTAT_V2 on the V2 struct. *)
Definition VMGUESTLIB_GETSTAT_V2 (dv2 : VMGuestLibDataV2) (f : Field)
  : VMGuestLibError * option Z :=
  if negb (valid (v2_stat dv2 f)) then (VMGUESTLIB_ERROR_NOT_AVAILABLE, None)
  else (VMGUESTLIB_ERROR_SUCCESS, Some (value (v2_stat dv2 f))).

(** VMGuestLibGetStatisticsV3. *)
Definition VMGuestLibGetStatisticsV3 (numStats : Z) (stats : list GuestLibV3Stat)
                                     (id : Z)
  : VMGuestLibError * option GuestLibV3Stat :=
  let statIdx := to_uint32 (id - 1) in
  if numStats <=? statIdx then (VMGUESTLIB_ERROR_UNSUPPORTED_VERSION, None)
  else (VMGUESTLIB_ERROR_SUCCESS, List.nth_error stats (Z.to_nat statIdx)).

(** VMGUESTLIB_GETSTAT_V3 on the V3 statistics array.  (The size test of
    the macro sets BUFFER_TOO_SMALL and the next statement overwrites it
    with SUCCESS; it has no effect and is left out, as are the ASSERTs.) *)
Definition VMGUESTLIB_GETSTAT_V3 (h : VMGuestLibHandleType)
                                 (out_nonnull : bool) (numStats : Z)
                                 (stats : list GuestLibV3Stat) (f : Field)
  : option (VMGuestLibError * option Z) :=
  match VMGuestLibCheckArgs (Some h) out_nonnull with
  | VMGUESTLIB_ERROR_SUCCESS =>
      match VMGuestLibGetStatisticsV3 numStats stats (statId f) with
      | (VMGUESTLIB_ERROR_SUCCESS, Some st) =>
          if negb (v3_valid st) then Some (VMGUESTLIB_ERROR_NOT_AVAILABLE, None)
          else Some (VMGUESTLIB_ERROR_SUCCESS, Some (v3_value st))
      | (VMGUESTLIB_ERROR_SUCCESS, None) => None
      | (e, _) => Some (e, None)
      end
  | e => Some (e, None)
  end.

(** VMGUESTLIB_GETFN_BODY, the body of every integral accessor.  The macro
    has no final else: at a version other than 2 and 3 [error] keeps the
    SUCCESS of VMGuestLibCheckArgs and nothing is written.  The result is
    [None] when the buffer is read through a layout it was not written
    with. *)
Definition VMGUESTLIB_GETFN_BODY (handle : option VMGuestLibHandleType)
                                 (out_nonnull : bool) (f : Field)
  : option (VMGuestLibError * option Z) :=
  match VMGuestLibCheckArgs handle out_nonnull, handle with
  | VMGUESTLIB_ERROR_SUCCESS, Some h =>
      if version h =? 2 then
        match data h with
        | DataV2 dv2 => Some (VMGUESTLIB_GETSTAT_V2 dv2 f)
        | _ => None
        end
      else if version h =? 3 then
        match data h with
        | DataV3 n l => VMGUESTLIB_GETSTAT_V3 h out_nonnull n l f
        | _ => None
        end
      else Some (VMGUESTLIB_ERROR_SUCCESS, None)
  | e, _ => Some (e, None)
  end.

(** The copy-out of a resource pool path [path] into a caller's buffer of
    [bufferSize] bytes: the error, the new [*bufferSize] when it is
    written, and the string copied when one is. *)
Definition copy_path (valid : bool) (path : string) (bufferSize : Z)
  : VMGuestLibError * option Z * option string :=
  if negb valid then (VMGUESTLIB_ERROR_NOT_AVAILABLE, None, None)
  else
    let size := Z.of_nat (String.length path) + 1 in
    if bufferSize <? size then
      (VMGUESTLIB_ERROR_BUFFER_TOO_SMALL, Some size, None)
    else (VMGUESTLIB_ERROR_SUCCESS, None, Some path).

(** VMGuestLib_GetResourcePoolPath.  [bufferSize] is [None] for a NULL
    pointer; the result is [None] when the buffer is read through a layout
    it was not written with, or past the statistics it holds. *)
Definition VMGuestLib_GetResourcePoolPath
    (handle : option VMGuestLibHandleType) (bufferSize : option Z)
    (pathBuffer_nonnull : bool)
  : option (VMGuestLibError * option Z * option string) :=
  match handle with
  | None => Some (VMGUESTLIB_ERROR_INVALID_HANDLE, None, None)
  | Some h =>
      match bufferSize with
      | None => Some (VMGUESTLIB_ERROR_INVALID_ARG, None, None)
      | Some bsz =>
          if negb pathBuffer_nonnull then
            Some (VMGUESTLIB_ERROR_INVALID_ARG, None, None)
          else if sessionId h =? 0 then
            Some (VMGUESTLIB_ERROR_NO_INFO, None, None)
          else if version h =? 2 then
            match data h with
            | DataV2 dv2 =>
                Some (copy_path (resourcePoolPath_valid dv2)
                                (resourcePoolPath_value dv2) bsz)
            | _ => None
            end
          else if version h =? 3 then
            match data h with
            | DataV3 _ l =>
                match List.nth_error l
                        (Z.to_nat (GUESTLIB_RESOURCE_POOL_PATH - 1)) with
                | Some st => Some (copy_path (v3_valid st) (v3_path st) bsz)
                | None => None
                end
            | _ => None
            end
          else Some (VMGUESTLIB_ERROR_OTHER, None, None)
      end
  end.

End WithParams.

(** An instance for concrete runs: protocol version 3, statistic ids in the
    order of the accessors, and sample struct sizes. *)
Definition sample_params (parse : string -> option Z) : Params := {|
  VMGUESTLIB_DATA_VERSION := 3;
  GUESTLIB_MAX_STATISTIC_ID := 19;
  GUESTLIB_RESOURCE_POOL_PATH := 18;
  statId := fun f =>
    match f with
    | cpuReservationMHz => 1 | cpuLimitMHz => 2 | cpuShares => 3
    | cpuUsedMs => 4 | hostMHz => 5 | memReservationMB => 6
    | memLimitMB => 7 | memShares => 8 | memMappedMB => 9
    | memActiveMB => 10 | memOverheadMB => 11 | memBalloonedMB => 12
    | memSwappedMB => 13 | memSharedMB => 14 | memSharedSavedMB => 15
    | memUsedMB => 16 | elapsedMs => 17
    end;
  sizeof_VMGuestLibDataV2 := 640;
  sizeof_VMGuestLibDataV3 := 16;
  sizeof_VMGuestLibStatisticsV3 := 4;
  sizeof_GuestLibV3Stat := 16;
  sizeof_resourcePoolPath := 512;
  StrUtil_GetNextUintToken := parse
|}.

(** VMGuestLib_GetSessionId: the error, and the id written to [*id]. *)
Definition VMGuestLib_GetSessionId (handle : option VMGuestLibHandleType)
                                   (id_nonnull : bool)
  : VMGuestLibError * option Z :=
  match VMGuestLibCheckArgs handle id_nonnull, handle with
  | VMGUESTLIB_ERROR_SUCCESS, Some h => (VMGUESTLIB_ERROR_SUCCESS, Some (sessionId h))
  | e, _ => (e, None)
  end.

(** What holds of the handle between calls: the version is 0, 2 or 3; a
    handle at version 0 has no session and no data; a handle at version 2
    holds a V2 struct whose path is NUL-terminated inside its array; V3
    statistics are held at version 3 only, fewer than
    GUESTLIB_MAX_STATISTIC_ID of them. *)
Definition handle_ok {P : Params} (h : VMGuestLibHandleType) : Prop :=
  (version h = 0 \/ version h = 2 \/ version h = 3)
  /\ (version h = 0 -> sessionId h = 0 /\ data h = NoData)
  /\ (version h = 2 ->
      exists dv2, data h = DataV2 dv2
        /\ (String.length (resourcePoolPath_value dv2)
            <= Z.to_nat (sizeof_resourcePoolPath - 1))%nat)
  /\ (forall n l, data h = DataV3 n l ->
        version h = 3 /\ n < GUESTLIB_MAX_STATISTIC_ID
        /\ (List.length l <= Z.to_nat n)%nat).

(** A V3 reply of two statistics, and hosts that send it whole or cut
    after the first statistic. *)
Definition v3_reply (sid : Z) (stats : list (option GuestLibV3Stat))
  : HostReply :=
  mkHostReply true (Some ""%string) 64 3 sid
              (mkDataV2 (fun _ => mkStatV2 false 0) false "") (Some 2) stats.

Definition two_stats : list (option GuestLibV3Stat) :=
  [Some (mkV3Stat 1 true 1000 ""); Some (mkV3Stat 2 false 0 "")].

Definition v3_host (sid : Z) (stats : list (option GuestLibV3Stat)) : Host :=
  fun _ _ => v3_reply sid stats.

(** A V2 struct with the resource pool path "/ha-root-pool". *)
Definition pool_path_stats : VMGuestLibDataV2 :=
  mkDataV2 (fun _ => mkStatV2 false 0) true "/ha-root-pool".

(** Replies and hosts for concrete runs. *)
Definition no_stats : VMGuestLibDataV2 :=
  mkDataV2 (fun _ => mkStatV2 false 0) false "".

Definition one_stat (f0 : Field) (v : Z) : VMGuestLibDataV2 :=
  mkDataV2 (fun f => match f0, f with
                     | cpuLimitMHz, cpuLimitMHz => mkStatV2 true v
                     | _, _ => mkStatV2 false 0
                     end) false "".

Definition failure_reply (txt : string) : HostReply :=
  mkHostReply false (Some txt) (Z.of_nat (String.length txt)) 0 0 no_stats
              None [].

Definition v2_reply (sid : Z) (dv2 : VMGuestLibDataV2) : HostReply :=
  mkHostReply true (Some ""%string) 640 2 sid dv2 None [].

(** A host that knows version 2 only. *)
Definition v2_only_host (sid : Z) (dv2 : VMGuestLibDataV2) : Host :=
  fun _ v => if v =? 2 then v2_reply sid dv2
             else failure_reply "Unsupported version".

(** A host that refuses every request and names version 3 each time. *)
Definition refusing_host : Host :=
  fun _ _ => failure_reply "Unsupported version:3".

(** A handle updated at version 2 in session 7. *)
Definition v2_handle : VMGuestLibHandleType :=
  mkHandle 2 7 640 (DataV2 no_stats).

(** The handle after an update against a version-2 host in session 7 that
    sends the resource pool path "/ha-root-pool". *)
Definition pool_path_handle : VMGuestLibHandleType :=
  mkHandle 2 7 640 (DataV2 pool_path_stats).

(** The end of a negotiation loop at version 3 whose reply announces two
    statistics and carries one. *)
Definition cut_v3_end : LoopEnd :=
  mkLoopEnd VMGUESTLIB_ERROR_SUCCESS 3 VMGuestLib_OpenHandle
            (v3_reply 7 [Some (mkV3Stat 1 true 1000 "")]) 1.

End GuestLib.

(* ====================================================================== *)
(** ** vnopscommon.c: HGFS vnode operations *)
(* ====================================================================== *)

Module Hgfs.

(** Error numbers of FreeBSD's <sys/errno.h>. *)
Definition EPERM : Z := 1.
Definition EIO : Z := 5.
Definition ENOMEM : Z := 12.
Definition EACCES : Z := 13.
Definition EFAULT : Z := 14.
Definition EXDEV : Z := 18.
Definition EISDIR : Z := 21.
Definition EINVAL : Z := 22.
Definition ENAMETOOLONG : Z := 63.
Definition EOVERFLOW : Z := 84.
Definition EPROTO : Z := 92.

(** Constants and macros of hgfsProto.h and of the kernel headers. *)
Class Params := {
  HGFS_IO_MAX : Z;
  HGFS_PACKET_MAX : Z;
  MAXPATHLEN : Z;
  (** [HGFS_REQ_PAYLOAD_SIZE_V3(request)] of the rename request. *)
  reqSize_rename : Z;
  (** [HGFS_REP_PAYLOAD_SIZE_V3(reply)] of the write reply. *)
  repSize_write : Z;
  (** [HGFS_REP_PAYLOAD_SIZE_V3(reply) + sizeof *dirent] of SEARCH_READ. *)
  repSize_searchRead : Z;
  HGFS_PAYLOAD_MAX : Z -> Z;
  (** [sizeof dirp->d_name] and [sizeof *dirp] of struct dirent. *)
  sizeof_d_name : Z;
  sizeof_dirent : Z;
  (** TRUE when compiled with [__FreeBSD__] defined. *)
  FreeBSD : bool
}.

(** *** The request pool (HgfsKReq) *)

Definition HgfsKReqHandle := nat.
Definition HgfsHandle := Z.

(** The requests that are sent, with the fields the functions fill in. *)
Inductive HgfsOp :=
| OP_READ_V3 (file : HgfsHandle) (offset : Z) (requiredSize : Z)
| OP_WRITE_V3 (file : HgfsHandle) (offset : Z) (requiredSize : Z)
              (payload : list Byte.byte)
| OP_SEARCH_READ_V3 (search : HgfsHandle) (offset : Z)
| OP_SEARCH_OPEN_V3
| OP_OPEN_V3
| OP_DELETE_V3
| OP_RENAME_V3.

Inductive KEvent :=
| EvAlloc (req : HgfsKReqHandle)
| EvRelease (req : HgfsKReqHandle)                 (* HgfsKReq_ReleaseRequest *)
| EvSubmit (req : HgfsKReqHandle) (op : HgfsOp) (ret : Z).

(** Modelled from the spec: the request pool of HgfsKReq (request.c is not
    among the sources).  "The pool holds a bounded number of reusable
    fixed-capacity buffers"; allocation fails rather than growing the pool;
    release returns the buffer to the free pool.  [misuse] counts releases
    of a buffer that is not outstanding. *)
Record Pool := mkPool {
  free : list HgfsKReqHandle;
  inuse : list HgfsKReqHandle;
  misuse : nat
}.

Record KState := mkKState {
  pool : Pool;
  events : list KEvent
}.

Fixpoint remove_first (r : HgfsKReqHandle) (l : list HgfsKReqHandle)
  : option (list HgfsKReqHandle) :=
  match l with
  | [] => None
  | x :: l' =>
      if Nat.eqb r x then Some l'
      else match remove_first r l' with
           | Some l'' => Some (x :: l'')
           | None => None
           end
  end.

(** Returning [r] to the free pool. *)
Definition pool_put (p : Pool) (r : HgfsKReqHandle) : Pool :=
  match remove_first r (inuse p) with
  | Some l => mkPool (r :: free p) l (misuse p)
  | None => mkPool (free p) (inuse p) (S (misuse p))
  end.

Definition HgfsKReq_AllocateRequest (st : KState)
  : option HgfsKReqHandle * KState :=
  match free (pool st) with
  | [] => (None, st)
  | r :: fs =>
      (Some r, mkKState (mkPool fs (r :: inuse (pool st)) (misuse (pool st)))
                        (events st ++ [EvAlloc r]))
  end.

Definition HgfsKReq_ReleaseRequest (st : KState) (r : HgfsKReqHandle) : KState :=
  mkKState (pool_put (pool st) r) (events st ++ [EvRelease r]).

(** Modelled from the spec: HgfsSubmitRequest (fsutil.c is not among the
    sources).  [ret] is the status the submission comes back with; on
    failure the function has disposed of the request itself ("the request is
    destroyed in HgfsSubmitRequest() if necessary"). *)
Definition HgfsSubmitRequest (st : KState) (r : HgfsKReqHandle) (op : HgfsOp)
                             (ret : Z) : KState :=
  mkKState (if ret =? 0 then pool st else pool_put (pool st) r)
           (events st ++ [EvSubmit r op ret]).

(** *** struct uio *)

Record uio (A : Type) := mkUio {
  uio_offset : Z;
  uio_resid : Z;
  uio_buf : list A
}.
Arguments mkUio {A}.
Arguments uio_offset {A}.
Arguments uio_resid {A}.
Arguments uio_buf {A}.

(** uiomove towards the user: [min n resid] bytes of [cp] are appended to
    the user's buffer. *)
Definition uiomove_to_user (cp : list Byte.byte) (n : Z) (u : uio Byte.byte)
  : uio Byte.byte :=
  let cnt := Z.min n (uio_resid u) in
  mkUio (uio_offset u + cnt) (uio_resid u - cnt)
        (uio_buf u ++ List.firstn (Z.to_nat cnt) cp).

(** uiomove from the user: [min n resid] bytes leave the user's buffer. *)
Definition uiomove_from_user (n : Z) (u : uio Byte.byte)
  : list Byte.byte * uio Byte.byte :=
  let cnt := Z.min n (uio_resid u) in
  (List.firstn (Z.to_nat cnt) (uio_buf u),
   mkUio (uio_offset u + cnt) (uio_resid u - cnt)
         (List.skipn (Z.to_nat cnt) (uio_buf u))).

(** *** READ *)

(** What happens to one READ request: the status of the submission, of
    HgfsGetStatus, the reply's fields, and the result of uiomove. *)
Record ReadReply := mkReadReply {
  rr_submit : Z;
  rr_status : Z;
  rr_actualSize : Z;
  rr_payload : list Byte.byte;
  rr_uiomove : Z
}.

Section WithParams.
Context {P : Params}.

Definition HgfsDoRead (st : KState) (handle : HgfsHandle) (offset size : Z)
                      (uiop : uio Byte.byte) (env : ReadReply)
  : Z * KState * uio Byte.byte :=
  match HgfsKReq_AllocateRequest st with
  | (None, st1) => (- ENOMEM, st1, uiop)
  | (Some req, st1) =>
      let st2 := HgfsSubmitRequest st1 req (OP_READ_V3 handle offset size)
                                   (rr_submit env) in
      if negb (rr_submit env =? 0) then
        (* out: *)
        (- rr_submit env, st2, uiop)
      else if negb (rr_status env =? 0) then
        (* destroyOut: *)
        (- (if negb (rr_status env =? EPROTO) then EACCES else rr_status env),
         HgfsKReq_ReleaseRequest st2 req, uiop)
      else if rr_actualSize env <=? size then
        if rr_actualSize env =? 0 then
          (* success: *)
          (to_int32 (rr_actualSize env), HgfsKReq_ReleaseRequest st2 req, uiop)
        else if negb (rr_uiomove env =? 0) then
          (- EIO, HgfsKReq_ReleaseRequest st2 req, uiop)
        else
          (to_int32 (rr_actualSize env), HgfsKReq_ReleaseRequest st2 req,
           uiomove_to_user (rr_payload env) (rr_actualSize env) uiop)
      else
        (* We got too much data: server error. *)
        (- EPROTO, HgfsKReq_ReleaseRequest st2 req, uiop)
  end.

(** The server seen from the read loop: its answer to the [i]-th request
    of the loop, which asks for [size] bytes at [offset]. *)
Definition ReadServer := nat -> Z -> Z -> ReadReply.

(** "Request at most HGFS_IO_MAX bytes": the value of the uint32 [size]. *)
Definition chunk_size (resid : Z) : Z :=
  to_uint32 (if HGFS_IO_MAX <? resid then HGFS_IO_MAX else resid).

(** The do-while loop of HgfsReadInt. *)
Fixpoint read_loop (fuel : nat) (server : ReadServer) (i : nat)
                   (st : KState) (handle : HgfsHandle) (offset : Z)
                   (uiop : uio Byte.byte)
  : option (Z * KState * uio Byte.byte) :=
  match fuel with
  | O => None
  | S fuel' =>
      let size := chunk_size (uio_resid uiop) in
      let '(ret, st', uiop') :=
        HgfsDoRead st handle offset size uiop (server i offset size) in
      if ret =? 0 then Some (0, st', uiop')
      else if ret <? 0 then Some (- ret, st', uiop')
      else
        let offset' := to_uint64 (offset + ret) in
        if uio_resid uiop' =? 0 then Some (0, st', uiop')
        else read_loop fuel' server (S i) st' handle offset' uiop'
  end.

(** What the functions need of the vnode: whether it is a directory, and
    the handle HgfsGetOpenFileHandle finds ([None] when it fails). *)
Record vnode := mkVnode {
  v_isdir : bool;
  v_handle : option HgfsHandle
}.

Definition HgfsReadInt (fuel : nat) (server : ReadServer) (st : KState)
                       (vp : vnode) (uiop : uio Byte.byte)
  : option (Z * KState * uio Byte.byte) :=
  if v_isdir vp then Some (EISDIR, st, uiop)
  else if uio_offset uiop <? 0 then Some (EINVAL, st, uiop)
  else
    match v_handle vp with
    | None => Some (EINVAL, st, uiop)
    | Some handle =>
        read_loop fuel server 0 st handle (to_uint64 (uio_offset uiop)) uiop
    end.

(** *** WRITE *)

Record WriteReply := mkWriteReply {
  wr_uiomove : Z;
  wr_submit : Z;
  wr_status : Z;
  wr_payloadSize : Z;                (* HgfsKReq_GetPayloadSize(req) *)
  wr_actualSize : Z
}.

(** The server seen from the write loop: its answer to the [i]-th request,
    which carries [payload] for [offset]. *)
Definition WriteServer := nat -> Z -> list Byte.byte -> WriteReply.

Definition HgfsDoWrite (st : KState) (handle : HgfsHandle) (offset size : Z)
                       (uiop : uio Byte.byte)
                       (server : Z -> list Byte.byte -> WriteReply)
  : Z * KState * uio Byte.byte :=
  match HgfsKReq_AllocateRequest st with
  | (None, st1) => (- ENOMEM, st1, uiop)
  | (Some req, st1) =>
      let '(payload, uiop1) := uiomove_from_user size uiop in
      let env := server offset payload in
      if negb (wr_uiomove env =? 0) then
        (- EIO, HgfsKReq_ReleaseRequest st1 req, uiop)
      else
        let st2 := HgfsSubmitRequest st1 req
                     (OP_WRITE_V3 handle offset size payload) (wr_submit env) in
        if negb (wr_submit env =? 0) then
          (- wr_submit env, st2, uiop1)
        else if negb (wr_status env =? 0) then
          (- (if negb (wr_status env =? EPROTO) then EACCES else wr_status env),
           HgfsKReq_ReleaseRequest st2 req, uiop1)
        else if negb (wr_payloadSize env =? repSize_write) then
          (- EPROTO, HgfsKReq_ReleaseRequest st2 req, uiop1)
        else
          (to_int32 (wr_actualSize env), HgfsKReq_ReleaseRequest st2 req, uiop1)
  end.

(** The do-while loop of HgfsWriteInt; [return -ret] is on [int]. *)
Fixpoint write_loop (fuel : nat) (server : WriteServer) (i : nat)
                    (st : KState) (handle : HgfsHandle) (offset : Z)
                    (uiop : uio Byte.byte)
  : option (Z * KState * uio Byte.byte) :=
  match fuel with
  | O => None
  | S fuel' =>
      let size := chunk_size (uio_resid uiop) in
      let '(ret, st', uiop') :=
        HgfsDoWrite st handle offset size uiop (server i) in
      if ret <? 0 then Some (to_int32 (- ret), st', uiop')
      else
        let offset' := to_uint64 (offset + ret) in
        if uio_resid uiop' =? 0 then Some (0, st', uiop')
        else write_loop fuel' server (S i) st' handle offset' uiop'
  end.

Definition HgfsWriteInt (fuel : nat) (server : WriteServer) (st : KState)
                        (vp : vnode) (uiop : uio Byte.byte)
  : option (Z * KState * uio Byte.byte) :=
  if uio_resid uiop =? 0 then Some (0, st, uiop)
  else if uio_offset uiop <? 0 then Some (EINVAL, st, uiop)
  else
    match v_handle vp with
    | None => Some (EINVAL, st, uiop)
    | Some handle =>
        write_loop fuel server 0 st handle (to_uint64 (uio_offset uiop)) uiop
    end.

(** *** SEARCH_READ and readdir *)

Inductive HgfsFileType :=
| HGFS_FILE_TYPE_REGULAR
| HGFS_FILE_TYPE_DIRECTORY
| HGFS_FILE_TYPE_SYMLINK.

(** What happens to one SEARCH_READ request: the status of the submission
    and of HgfsGetStatus, the size of the reply, and the directory entry the
    reply carries. *)
Record DirReply := mkDirReply {
  dr_submit : Z;
  dr_status : Z;
  dr_payloadSize : Z;                (* HgfsKReq_GetPayloadSize(req) *)
  dr_nameLength : Z;                 (* dirent->fileName.length *)
  dr_name : list Byte.byte;          (* dirent->fileName.name *)
  dr_type : HgfsFileType             (* dirent->attr.type *)
}.

(** Result and out-parameters of HgfsGetNextDirEntry: [ne_name] and
    [ne_type] are [None] when nothing was written to [nameOut] and [type];
    [ne_done] says whether [*done] was set. *)
Record NextEntry := mkNextEntry {
  ne_ret : Z;
  ne_name : option (list Byte.byte);
  ne_type : option HgfsFileType;
  ne_done : bool
}.

Definition HgfsGetNextDirEntry (st : KState) (handle : HgfsHandle)
                               (offset : Z) (nameSize : Z) (env : DirReply)
  : NextEntry * KState :=
  match HgfsKReq_AllocateRequest st with
  | (None, st1) => (mkNextEntry ENOMEM None None false, st1)
  | (Some req, st1) =>
      let st2 := HgfsSubmitRequest st1 req (OP_SEARCH_READ_V3 handle offset)
                                   (dr_submit env) in
      if negb (dr_submit env =? 0) then
        (mkNextEntry (dr_submit env) None None false, st2)
      else if negb (dr_status env =? 0) then
        (mkNextEntry (if negb (dr_status env =? EPROTO) then EINVAL
                      else dr_status env) None None false,
         HgfsKReq_ReleaseRequest st2 req)
      else if dr_payloadSize env <? repSize_searchRead then
        (mkNextEntry EFAULT None None false, HgfsKReq_ReleaseRequest st2 req)
      else if dr_nameLength env <=? 0 then
        (* no more directory entries *)
        (mkNextEntry 0 None None true, HgfsKReq_ReleaseRequest st2 req)
      else if (nameSize <=? dr_nameLength env)
              || (HGFS_PAYLOAD_MAX repSize_searchRead <? dr_nameLength env) then
        (mkNextEntry EOVERFLOW None None false, HgfsKReq_ReleaseRequest st2 req)
      else
        (mkNextEntry 0
           (Some (List.firstn (Z.to_nat (dr_nameLength env)) (dr_name env)))
           (Some (dr_type env)) false,
         HgfsKReq_ReleaseRequest st2 req)
  end.

Inductive DType := DT_UNKNOWN | DT_DIR | DT_REG.

Record dirent := mkDirent {
  d_fileno : Z;
  d_reclen : Z;
  d_type : DType;
  d_namlen : Z;
  d_name : list Byte.byte
}.

(** uiomove of one directory entry towards the user. *)
Definition uiomove_dirent (dirp : dirent) (u : uio dirent) : uio dirent :=
  let cnt := Z.min (d_reclen dirp) (uio_resid u) in
  mkUio (uio_offset u + cnt) (uio_resid u - cnt) (uio_buf u ++ [dirp]).

(** The surroundings of HgfsReaddirInt: the server's answer to the [i]-th
    SEARCH_READ (which asks for the entry at [offset]), the name decoder,
    HgfsMakeFullName and HgfsNodeIdGet for the directory at hand, and the
    result of the [i]-th uiomove. *)
Record ReaddirEnv := mkReaddirEnv {
  rd_server : nat -> Z -> DirReply;
  HgfsNameFromWireEncoding : list Byte.byte -> Z * list Byte.byte;
  HgfsMakeFullName : list Byte.byte -> Z -> Z * list Byte.byte;
  HgfsNodeIdGet : list Byte.byte -> Z -> Z;
  rd_malloc : bool;                  (* os_malloc returned the name buffer *)
  rd_uiomove : nat -> Z
}.

(** How HgfsReaddirInt ends: its return value, the uio, [*eofp] ([None]
    when the caller passed NULL) and the pool. *)
Record ReaddirEnd := mkReaddirEnd {
  re_ret : Z;
  re_uio : uio dirent;
  re_eof : option bool;
  re_state : KState
}.

Definition dtype_of (t : HgfsFileType) : DType :=
  match t with
  | HGFS_FILE_TYPE_REGULAR => DT_REG
  | HGFS_FILE_TYPE_DIRECTORY => DT_DIR
  | _ => DT_UNKNOWN
  end.

(** HGFS_UIOP_SET_OFFSET *)
Definition set_offset {A} (u : uio A) (o : Z) : uio A :=
  mkUio o (uio_resid u) (uio_buf u).

(** The for loop of HgfsReaddirInt, with the statements after it.  [i]
    counts the SEARCH_READ requests already sent. *)
Fixpoint readdir_loop (fuel : nat) (env : ReaddirEnv) (i : nat)
                      (st : KState) (handle : HgfsHandle) (offset : Z)
                      (done : bool) (uiop : uio dirent) (eofp : option bool)
  : option ReaddirEnd :=
  match fuel with
  | O => None
  | S fuel' =>
      let next := to_uint64 (offset + 1) in
      let '(ne, st1) :=
        HgfsGetNextDirEntry st handle (to_uint32 offset) sizeof_d_name
                            (rd_server env i (to_uint32 offset)) in
      let done1 := done || ne_done ne in
      if ne_ret ne =? EOVERFLOW then
        (* the filename was too long: skip to the next entry *)
        readdir_loop fuel' env (S i) st1 handle next done1 uiop eofp
      else if negb (ne_ret ne =? 0) then
        (* goto out *)
        Some (mkReaddirEnd (ne_ret ne) uiop eofp st1)
      else if done1 then
        (* no more entries: set the end of file pointer and break *)
        Some (mkReaddirEnd 0 (set_offset uiop offset)
                (match eofp with Some _ => Some true | None => None end) st1)
      else
        let nameBuf := match ne_name ne with Some n => n | None => [] end in
        let fileType := match ne_type ne with
                        | Some t => t
                        | None => HGFS_FILE_TYPE_REGULAR
                        end in
        let '(ret, name) := HgfsNameFromWireEncoding env nameBuf in
        if ret <? 0 then
          readdir_loop fuel' env (S i) st1 handle next done1 uiop eofp
        else if uio_resid uiop <? sizeof_dirent then
          (* ran out of room in the buffer *)
          Some (mkReaddirEnd 0 (set_offset uiop offset) eofp st1)
        else
          let '(ret', fullName) := HgfsMakeFullName env name ret in
          if ret' <? 0 then
            readdir_loop fuel' env (S i) st1 handle next done1 uiop eofp
          else
            let dirp := mkDirent (HgfsNodeIdGet env fullName (to_uint32 ret'))
                                 sizeof_dirent (dtype_of fileType) ret name in
            if negb (rd_uiomove env i =? 0) then
              Some (mkReaddirEnd (rd_uiomove env i) uiop eofp st1)
            else
              readdir_loop fuel' env (S i) st1 handle next done1
                           (uiomove_dirent dirp uiop) eofp
  end.

Definition HgfsReaddirInt (fuel : nat) (env : ReaddirEnv) (st : KState)
                          (vp : vnode) (uiop : uio dirent)
                          (eofp : option bool) : option ReaddirEnd :=
  if uio_offset uiop <? 0 then Some (mkReaddirEnd EINVAL uiop eofp st)
  else
    match v_handle vp with
    | None => Some (mkReaddirEnd EINVAL uiop eofp st)
    | Some handle =>
        if negb (rd_malloc env) then Some (mkReaddirEnd ENOMEM uiop eofp st)
        else
          readdir_loop fuel env 0 st handle (to_uint64 (uio_offset uiop)) false
                       uiop eofp
    end.

(** *** DELETE, RENAME, SEARCH_OPEN, OPEN *)

(** Results of the calls HgfsDelete makes: HgfsNameToWireEncoding,
    HgfsSubmitRequest, HgfsGetStatus. *)
Record DeleteEnv := mkDeleteEnv {
  de_encode : Z;
  de_submit : Z;
  de_status : Z
}.

Definition HgfsDelete (st : KState) (env : DeleteEnv) : Z * KState :=
  match HgfsKReq_AllocateRequest st with
  | (None, st1) => (ENOMEM, st1)
  | (Some req, st1) =>
      if de_encode env <? 0 then
        (- de_encode env, HgfsKReq_ReleaseRequest st1 req)
      else
        let st2 := HgfsSubmitRequest st1 req OP_DELETE_V3 (de_submit env) in
        if negb (de_submit env =? 0) then (de_submit env, st2)
        else (de_status env, HgfsKReq_ReleaseRequest st2 req)
  end.

(** Results of the calls HgfsRenameInt makes, and the facts about its
    vnodes it looks at. *)
Record RenameEnv := mkRenameEnv {
  re_crossdev : bool;                (* HGFS_VP_TO_MP(fvp) != HGFS_VP_TO_MP(tdvp) *)
  re_malloc : bool;                  (* os_malloc returned a buffer *)
  re_srcFullPathLen : Z;
  re_makeFullName : Z;
  re_encodeSrc : Z;
  re_encodeDst : Z;
  re_submit : Z;
  re_status : Z
}.

Definition HgfsRenameInt (st : KState) (env : RenameEnv) : Z * KState :=
  if re_crossdev env then (EXDEV, st)
  else
    match HgfsKReq_AllocateRequest st with
    | (None, st1) => (ENOMEM, st1)
    | (Some req, st1) =>
        if negb (re_malloc env) then (ENOMEM, HgfsKReq_ReleaseRequest st1 req)
        else if re_makeFullName env <? 0 then
          (ENAMETOOLONG, HgfsKReq_ReleaseRequest st1 req)
        else
          let dstFullPathLen := to_uint32 (re_makeFullName env) in
          if HGFS_PACKET_MAX
             <? to_uint32 (reqSize_rename + re_srcFullPathLen env
                           + dstFullPathLen) then
            (EPROTO, HgfsKReq_ReleaseRequest st1 req)
          else if re_encodeSrc env <? 0 then
            (- re_encodeSrc env, HgfsKReq_ReleaseRequest st1 req)
          else if re_encodeDst env <? 0 then
            (- re_encodeDst env, HgfsKReq_ReleaseRequest st1 req)
          else
            let st2 := HgfsSubmitRequest st1 req OP_RENAME_V3 (re_submit env) in
            if negb (re_submit env =? 0) then (re_submit env, st2)
            else (re_status env, HgfsKReq_ReleaseRequest st2 req)
    end.

(** Results of the calls HgfsDirOpen makes. *)
Record DirOpenEnv := mkDirOpenEnv {
  do_handleIsSet : bool;
  do_encode : Z;
  do_submit : Z;
  do_status : Z;
  do_setHandle : Z                   (* HgfsSetOpenFileHandle *)
}.

Definition HgfsDirOpen (st : KState) (env : DirOpenEnv) : Z * KState :=
  if do_handleIsSet env then
    if FreeBSD then (EIO, st) else (0, st)
  else
    match HgfsKReq_AllocateRequest st with
    | (None, st1) => (ENOMEM, st1)
    | (Some req, st1) =>
        if do_encode env <? 0 then
          (- do_encode env, HgfsKReq_ReleaseRequest st1 req)
        else
          let st2 := HgfsSubmitRequest st1 req OP_SEARCH_OPEN_V3
                                       (do_submit env) in
          if negb (do_submit env =? 0) then (do_submit env, st2)
          else if negb (do_status env =? 0) then
            (do_status env, HgfsKReq_ReleaseRequest st2 req)
          else if negb (do_setHandle env =? 0) then
            (EINVAL, HgfsKReq_ReleaseRequest st2 req)
          else (0, HgfsKReq_ReleaseRequest st2 req)
    end.

(** Results of the calls HgfsFileOpen makes. *)
Record FileOpenEnv := mkFileOpenEnv {
  fo_createShare : bool;             (* HgfsAttemptToCreateShare *)
  fo_handleIsSet : bool;
  fo_openMode : Z;                   (* HgfsGetOpenMode *)
  fo_openFlags : Z;                  (* HgfsGetOpenFlags *)
  fo_encode : Z;
  fo_submit : Z;
  fo_status : Z;
  fo_setHandle : Z
}.

Definition HgfsFileOpen (st : KState) (env : FileOpenEnv) : Z * KState :=
  if fo_createShare env then (EPERM, st)
  else if fo_handleIsSet env then (EIO, st)
  else
    match HgfsKReq_AllocateRequest st with
    | (None, st1) => (ENOMEM, st1)
    | (Some req, st1) =>
        if fo_openMode env <? 0 then (EINVAL, HgfsKReq_ReleaseRequest st1 req)
        else if fo_openFlags env <? 0 then
          (EINVAL, HgfsKReq_ReleaseRequest st1 req)
        else if fo_encode env <? 0 then
          (- fo_encode env, HgfsKReq_ReleaseRequest st1 req)
        else
          let st2 := HgfsSubmitRequest st1 req OP_OPEN_V3 (fo_submit env) in
          if negb (fo_submit env =? 0) then (fo_submit env, st2)
          else if negb (fo_status env =? 0) then
            (fo_status env, HgfsKReq_ReleaseRequest st2 req)
          else if negb (fo_setHandle env =? 0) then
            (EINVAL, HgfsKReq_ReleaseRequest st2 req)
          else (0, HgfsKReq_ReleaseRequest st2 req)
    end.

(** *** The marshaling operations as one family *)

Inductive MarshalOp :=
| MRename (env : RenameEnv)
| MDelete (env : DeleteEnv)
| MRead (handle : HgfsHandle) (offset size : Z) (uiop : uio Byte.byte)
        (env : ReadReply)
| MWrite (handle : HgfsHandle) (offset size : Z) (uiop : uio Byte.byte)
         (server : Z -> list Byte.byte -> WriteReply)
| MDirOpen (env : DirOpenEnv)
| MFileOpen (env : FileOpenEnv)
| MNextDirEntry (handle : HgfsHandle) (offset nameSize : Z) (env : DirReply).

(** The state a marshaling operation leaves behind. *)
Definition run_marshal (op : MarshalOp) (st : KState) : KState :=
  match op with
  | MRename env => snd (HgfsRenameInt st env)
  | MDelete env => snd (HgfsDelete st env)
  | MRead handle offset size uiop env =>
      snd (fst (HgfsDoRead st handle offset size uiop env))
  | MWrite handle offset size uiop server =>
      snd (fst (HgfsDoWrite st handle offset size uiop server))
  | MDirOpen env => snd (HgfsDirOpen st env)
  | MFileOpen env => snd (HgfsFileOpen st env)
  | MNextDirEntry handle offset nameSize env =>
      snd (HgfsGetNextDirEntry st handle offset nameSize env)
  end.

(** Counting, in a list of events, the allocations of [r], its releases by
    the caller, and its disposals by a failed HgfsSubmitRequest. *)
Definition is_alloc (r : HgfsKReqHandle) (e : KEvent) : bool :=
  match e with EvAlloc r' => Nat.eqb r r' | _ => false end.
Definition is_release (r : HgfsKReqHandle) (e : KEvent) : bool :=
  match e with EvRelease r' => Nat.eqb r r' | _ => false end.
Definition is_dispose (r : HgfsKReqHandle) (e : KEvent) : bool :=
  match e with
  | EvSubmit r' _ ret => Nat.eqb r r' && negb (ret =? 0)
  | _ => false
  end.
Definition is_submit (e : KEvent) : bool :=
  match e with EvSubmit _ _ _ => true | _ => false end.

Definition count_ev (p : KEvent -> bool) (l : list KEvent) : nat :=
  List.length (List.filter p l).

(** The bytes requested by a READ or carried by a WRITE request. *)
Definition requested_size (e : KEvent) : Z :=
  match e with
  | EvSubmit _ (OP_READ_V3 _ _ n) _ => n
  | EvSubmit _ (OP_WRITE_V3 _ _ n _) _ => n
  | _ => 0
  end.

Definition is_submit_ok (r : HgfsKReqHandle) (e : KEvent) : bool :=
  match e with
  | EvSubmit r' _ ret => Nat.eqb r r' && (ret =? 0)
  | _ => false
  end.

(** The pool events one marshaling operation can add. *)
Inductive op_trace : list KEvent -> Prop :=
| tr_none : op_trace []
| tr_early r : op_trace [EvAlloc r; EvRelease r]
| tr_submit_failed r op ret :
    ret <> 0 -> op_trace [EvAlloc r; EvSubmit r op ret]
| tr_replied r op : op_trace [EvAlloc r; EvSubmit r op 0; EvRelease r].

End WithParams.

(** A single hypothetical unchunked read of [len] bytes at [off]. *)
Definition unchunked_read (file : list Byte.byte) (off len : Z)
  : list Byte.byte :=
  List.firstn (Z.to_nat len) (List.skipn (Z.to_nat off) file).

(** A server whose READ replies are consistent with the content [file]:
    HgfsSubmitRequest comes back with 0 or an errno, the count is a uint32,
    and a successful reply of at most the requested size carries the bytes
    that [file] has at [off], [actualSize] of them; the count is 0 only
    when [file] has nothing in the requested range. *)
Definition faithful (file : list Byte.byte)
                    (server : nat -> Z -> Z -> ReadReply) : Prop :=
  forall i off sz,
    let r := server i off sz in
    0 <= rr_submit r /\ 0 <= rr_actualSize r
    /\ (rr_submit r = 0 -> rr_status r = 0 -> rr_actualSize r <= sz ->
        List.firstn (Z.to_nat (rr_actualSize r)) (rr_payload r)
          = unchunked_read file off (rr_actualSize r)
        /\ (rr_actualSize r = 0 -> unchunked_read file off sz = [])).

(** An instance for concrete runs, with a small I/O unit. *)
Definition sample_params : Params := {|
  HGFS_IO_MAX := 4;
  HGFS_PACKET_MAX := 6144;
  MAXPATHLEN := 1024;
  reqSize_rename := 64;
  repSize_write := 16;
  repSize_searchRead := 120;
  HGFS_PAYLOAD_MAX := fun repSize => 6144 - repSize;
  sizeof_d_name := 256;
  sizeof_dirent := 264;
  FreeBSD := true
|}.

(** A server that answers a READ with the bytes of [file], at most [k] at
    a time. *)
Definition file_server (file : list Byte.byte) (k : Z) : ReadServer :=
  fun _ offset size =>
    let data := unchunked_read file offset (Z.min size k) in
    mkReadReply 0 0 (Z.of_nat (List.length data)) data 0.

(** Concrete surroundings: a pool of two buffers with an empty history, an
    open regular file, a file of ten bytes, and user buffers. *)
Definition two_buffers : KState := mkKState (mkPool [0%nat; 1%nat] [] 0) [].

Definition open_file : vnode := mkVnode false (Some 5).

Definition ten_bytes : list Byte.byte := String.list_byte_of_string "0123456789".

(** A read of [len] bytes at [off] into an empty buffer. *)
Definition read_uio (off len : Z) : uio Byte.byte := mkUio off len [].

(** A write of the bytes [data] at [off]. *)
Definition write_uio (off : Z) (data : list Byte.byte) : uio Byte.byte :=
  mkUio off (Z.of_nat (List.length data)) data.

(** A server that declares five bytes in every READ reply. *)
Definition five_byte_server : ReadServer :=
  fun _ _ _ => mkReadReply 0 0 5 (String.list_byte_of_string "01234") 0.

(** A server that declares nine bytes written in every WRITE reply. *)
Definition nine_byte_server : WriteServer :=
  fun _ _ _ => mkWriteReply 0 0 0 16 9.

(** A directory of three SEARCH_READ answers: the entry "a", an entry whose
    name has 300 bytes, and the zero-length name that ends the listing. *)
Definition entry_reply (name : string) : DirReply :=
  mkDirReply 0 0 200 (Z.of_nat (String.length name))
             (String.list_byte_of_string name) HGFS_FILE_TYPE_REGULAR.

Definition long_name_reply : DirReply :=
  mkDirReply 0 0 200 300 [] HGFS_FILE_TYPE_REGULAR.

Definition end_reply : DirReply :=
  mkDirReply 0 0 200 0 [] HGFS_FILE_TYPE_REGULAR.

Definition sample_dir : ReaddirEnv :=
  mkReaddirEnv
    (fun _ off => if off =? 0 then entry_reply "a"
                  else if off =? 1 then long_name_reply else end_reply)
    (fun n => (Z.of_nat (List.length n), n))
    (fun n len => (len + 1, n))
    (fun _ _ => 42)
    true
    (fun _ => 0).

Definition open_dir : vnode := mkVnode true (Some 9).

(** A readdir into an empty buffer of [len] bytes, from entry [off]. *)
Definition dir_uio (off len : Z) : uio dirent := mkUio off len [].

(** *** The listing of a directory *)

Section Listing.
Context {P : Params}.
Variable env : ReaddirEnv.

(** A SEARCH_READ reply that came back whole: submitted, with success
    status, and large enough to hold a directory entry. *)
Definition whole_reply (r : DirReply) : Prop :=
  dr_submit r = 0 /\ dr_status r = 0
  /\ repSize_searchRead <= dr_payloadSize r.

(** The entry's name does not fit the [d_name] of a dirent, or the reply. *)
Definition too_long (r : DirReply) : bool :=
  (sizeof_d_name <=? dr_nameLength r)
  || (HGFS_PAYLOAD_MAX repSize_searchRead <? dr_nameLength r).

(** The name as the reply carries it. *)
Definition wire_name (r : DirReply) : list Byte.byte :=
  List.firstn (Z.to_nat (dr_nameLength r)) (dr_name r).

(** The decoder rejects the entry's name. *)
Definition undecodable (r : DirReply) : bool :=
  fst (HgfsNameFromWireEncoding env (wire_name r)) <? 0.

(** The dirent a caller should see for the entry a reply carries: none for
    a name that is too long or that the decoder rejects, and otherwise the
    decoded name with its length, the node id of the full name, and the
    type. *)
Definition listed (r : DirReply) : option dirent :=
  if too_long r || undecodable r then None
  else
    let '(ret, name) := HgfsNameFromWireEncoding env (wire_name r) in
    let '(ret', fullName) := HgfsMakeFullName env name ret in
    Some (mkDirent (HgfsNodeIdGet env fullName (to_uint32 ret'))
                   sizeof_dirent (dtype_of (dr_type r)) ret name).

(** The dirents of the [n] entries that the directory [dir] (the reply for
    each offset) holds from [offset] on. *)
Fixpoint listing (dir : Z -> DirReply) (offset : Z) (n : nat) : list dirent :=
  match n with
  | O => []
  | S n' =>
      match listed (dir offset) with
      | Some d => d :: listing dir (offset + 1) n'
      | None => listing dir (offset + 1) n'
      end
  end.

End Listing.

End Hgfs.

(* ====================================================================== *)
(** ** vnopscommon.c: the other vnode operations *)
(* ====================================================================== *)

Module HgfsVnops.
Import Hgfs.

(** Further error numbers of FreeBSD's <sys/errno.h>. *)
Definition ENOENT : Z := 2.
Definition ENOTSUP : Z := 45.
Definition EJUSTRETURN : Z := -2.

(** Mode bits of <sys/stat.h>. *)
Definition S_ISUID : Z := 2048.
Definition S_ISGID : Z := 1024.
Definition S_ISVTX : Z := 512.
Definition S_IRWXU : Z := 448.
Definition S_IRUSR : Z := 256.
Definition S_IWUSR : Z := 128.
Definition S_IXUSR : Z := 64.
Definition S_IRWXG : Z := 56.
Definition S_IRGRP : Z := 32.
Definition S_IWGRP : Z := 16.
Definition S_IXGRP : Z := 8.
Definition S_IRWXO : Z := 7.
Definition S_IROTH : Z := 4.
Definition S_IWOTH : Z := 2.
Definition S_IXOTH : Z := 1.

Inductive vtype :=
| VNON | VREG | VDIR | VBLK | VCHR | VLNK | VSOCK | VFIFO | VBAD.

(** The fields of HgfsAttrV2 that vnopscommon.c names. *)
Record HgfsAttrV2 := mkAttrV2 {
  attr_type : HgfsFileType;
  attr_size : Z;
  attr_ownerPerms : Z;
  attr_groupPerms : Z;
  attr_otherPerms : Z;
  attr_hostFileId : Z
}.

(** Constants of hgfsProto.h used by these operations, and HgfsAttrToBSD
    (fsutil.c) for the vnode at hand, as far as HgfsAccessInt looks at its
    result: the [va_mode] it stores. *)
Class AttrParams := {
  HGFS_ATTR_SPECIAL_PERM_SHIFT : Z;
  HGFS_ATTR_OWNER_PERM_SHIFT : Z;
  HGFS_ATTR_GROUP_PERM_SHIFT : Z;
  (** [HGFS_REP_PAYLOAD_SIZE_V3(reply)] of the getattr reply. *)
  repSize_getattr : Z;
  HgfsAttrToBSD : HgfsAttrV2 -> Z
}.

(** The requests these operations send. *)
Inductive VnopRequest :=
| OP_SETATTR_V3
| OP_CREATE_DIR_V3 (specialPerms ownerPerms groupPerms otherPerms : Z)
| OP_SEARCH_CLOSE_V3 (search : HgfsHandle)
| OP_CLOSE_V3 (file : HgfsHandle)
| OP_GETATTR_V3 (fid : option HgfsHandle).     (* None: by name *)

Inductive VEvent :=
| VAlloc (req : HgfsKReqHandle)
| VRelease (req : HgfsKReqHandle)
| VSubmit (req : HgfsKReqHandle) (op : VnopRequest) (ret : Z).

(** The pool of [Hgfs] with the history of these operations. *)
Record VState := mkVState {
  vpool : Pool;
  vevents : list VEvent
}.

(** HgfsKReq_AllocateRequest, HgfsKReq_ReleaseRequest and HgfsSubmitRequest
    on [VState]: the functions of [Hgfs], recording [VEvent]s. *)
Definition VAllocateRequest (st : VState) : option HgfsKReqHandle * VState :=
  match free (vpool st) with
  | [] => (None, st)
  | r :: fs =>
      (Some r, mkVState (mkPool fs (r :: inuse (vpool st)) (misuse (vpool st)))
                        (vevents st ++ [VAlloc r]))
  end.

Definition VReleaseRequest (st : VState) (r : HgfsKReqHandle) : VState :=
  mkVState (pool_put (vpool st) r) (vevents st ++ [VRelease r]).

Definition VSubmitRequest (st : VState) (r : HgfsKReqHandle) (op : VnopRequest)
                          (ret : Z) : VState :=
  mkVState (if ret =? 0 then vpool st else pool_put (vpool st) r)
           (vevents st ++ [VSubmit r op ret]).

Definition is_vsubmit (e : VEvent) : bool :=
  match e with VSubmit _ _ _ => true | _ => false end.

(** The pool events one of these operations can add. *)
Inductive vop_trace : list VEvent -> Prop :=
| vtr_none : vop_trace []
| vtr_early r : vop_trace [VAlloc r; VRelease r]
| vtr_submit_failed r op ret :
    ret <> 0 -> vop_trace [VAlloc r; VSubmit r op ret]
| vtr_replied r op : vop_trace [VAlloc r; VSubmit r op 0; VRelease r].

Section WithParams.
Context {P : Params} {A : AttrParams}.

(** The permission fields HgfsMkdirInt (and HgfsFileOpen) put in the
    request: special, owner, group, other, as computed, before they are
    converted to the type of the request's fields. *)
Definition perm_fields (mode : Z) : Z * Z * Z * Z :=
  (Z.shiftr (Z.land mode (Z.lor (Z.lor S_ISUID S_ISGID) S_ISVTX))
            HGFS_ATTR_SPECIAL_PERM_SHIFT,
   Z.shiftr (Z.land mode S_IRWXU) HGFS_ATTR_OWNER_PERM_SHIFT,
   Z.shiftr (Z.land mode S_IRWXG) HGFS_ATTR_GROUP_PERM_SHIFT,
   Z.land mode S_IRWXO).

(** Results of the calls HgfsSetattrInt makes: HgfsSetattrCopy, the
    [attr.mask] it left in the request, HgfsNameToWireEncoding,
    HgfsSubmitRequest, HgfsGetStatus. *)
Record SetattrEnv := mkSetattrEnv {
  sa_copy : bool;
  sa_mask : Z;
  sa_encode : Z;
  sa_submit : Z;
  sa_status : Z
}.

Definition HgfsSetattrInt (st : VState) (env : SetattrEnv) : Z * VState :=
  match VAllocateRequest st with
  | (None, st1) => (ENOMEM, st1)
  | (Some req, st1) =>
      if negb (sa_copy env) then
        (* don't need to update attributes *)
        (0, VReleaseRequest st1 req)
      else if sa_encode env <? 0 then
        (- sa_encode env, VReleaseRequest st1 req)
      else if sa_mask env =? 0 then
        (* they were trying to set filerev or vaflags, which we ignore *)
        (0, VReleaseRequest st1 req)
      else
        let st2 := VSubmitRequest st1 req OP_SETATTR_V3 (sa_submit env) in
        if negb (sa_submit env =? 0) then (sa_submit env, st2)
        else (sa_status env, VReleaseRequest st2 req)
  end.

(** Results of the calls HgfsMkdirInt makes. *)
Record MkdirEnv := mkMkdirEnv {
  mk_malloc : bool;
  mk_makeFullName : Z;
  mk_encode : Z;
  mk_submit : Z;
  mk_status : Z;
  mk_vnodeGet : Z
}.

(** HgfsMkdirInt: the return value, whether [*vpp] received a vnode, and
    the pool. *)
Definition HgfsMkdirInt (st : VState) (mode : Z) (env : MkdirEnv)
  : Z * bool * VState :=
  if negb (mk_malloc env) then (ENOMEM, false, st)
  else if mk_makeFullName env <? 0 then (ENAMETOOLONG, false, st)
  else
    match VAllocateRequest st with
    | (None, st1) => (ENOMEM, false, st1)
    | (Some req, st1) =>
        if mk_encode env <? 0 then
          (- mk_encode env, false, VReleaseRequest st1 req)
        else
          let '(sp, ow, gr, ot) := perm_fields mode in
          let st2 := VSubmitRequest st1 req (OP_CREATE_DIR_V3 sp ow gr ot)
                                    (mk_submit env) in
          if negb (mk_submit env =? 0) then (mk_submit env, false, st2)
          else if negb (mk_status env =? 0) then
            (mk_status env, false, VReleaseRequest st2 req)
          else if negb (mk_vnodeGet env =? 0) then
            (EIO, false, VReleaseRequest st2 req)
          else (0, true, VReleaseRequest st2 req)
    end.

(** Results of the calls HgfsDirClose and HgfsFileClose make:
    HgfsShouldCloseOpenFileHandle, HgfsReleaseOpenFileHandle (its return
    value and [closed]), HgfsGetOpenFileHandle ([None] when it fails),
    HgfsSubmitRequest, HgfsGetStatus. *)
Record CloseEnv := mkCloseEnv {
  cl_shouldClose : bool;
  cl_release : Z * bool;
  cl_getHandle : option HgfsHandle;
  cl_submit : Z;
  cl_status : Z
}.

(** HgfsDirClose: the return value, whether HgfsReleaseOpenFileHandle was
    called, and the pool. *)
Definition HgfsDirClose (st : VState) (env : CloseEnv) : Z * bool * VState :=
  if negb (cl_shouldClose env) then
    if negb (fst (cl_release env) =? 0) || snd (cl_release env)
    then (EINVAL, true, st) else (0, true, st)
  else
    match VAllocateRequest st with
    | (None, st1) => (ENOMEM, false, st1)
    | (Some req, st1) =>
        match cl_getHandle env with
        | None => (EINVAL, false, VReleaseRequest st1 req)
        | Some h =>
            let st2 := VSubmitRequest st1 req (OP_SEARCH_CLOSE_V3 h)
                                      (cl_submit env) in
            if negb (cl_submit env =? 0) then (cl_submit env, false, st2)
            else if negb (cl_status env =? 0) then
              (if negb (cl_status env =? EPROTO) then EFAULT
               else cl_status env, false, VReleaseRequest st2 req)
            else if negb (fst (cl_release env) =? 0)
                    || negb (snd (cl_release env)) then
              (EINVAL, true, VReleaseRequest st2 req)
            else (0, true, VReleaseRequest st2 req)
        end
    end.

Definition HgfsFileClose (st : VState) (env : CloseEnv) : Z * bool * VState :=
  if negb (cl_shouldClose env) then
    if negb (fst (cl_release env) =? 0) || snd (cl_release env)
    then (EINVAL, true, st) else (0, true, st)
  else
    match VAllocateRequest st with
    | (None, st1) => (ENOMEM, false, st1)
    | (Some req, st1) =>
        match cl_getHandle env with
        | None => (EINVAL, false, VReleaseRequest st1 req)
        | Some h =>
            let st2 := VSubmitRequest st1 req (OP_CLOSE_V3 h)
                                      (cl_submit env) in
            if negb (cl_submit env =? 0) then (cl_submit env, false, st2)
            else if negb (cl_status env =? 0) then
              (cl_status env, false, VReleaseRequest st2 req)
            else if negb (fst (cl_release env) =? 0)
                    || negb (snd (cl_release env)) then
              (EINVAL, true, VReleaseRequest st2 req)
            else (0, true, VReleaseRequest st2 req)
        end
    end.

(** HgfsCloseInt: the value of its local [ret], the value it returns,
    whether HgfsReleaseOpenFileHandle was called, and the pool. *)
Definition HgfsCloseInt (st : VState) (vt : vtype) (env : CloseEnv)
  : Z * Z * bool * VState :=
  let '(ret, released, st') :=
    match vt with
    | VDIR => HgfsDirClose st env
    | VREG => HgfsFileClose st env
    | _ => (EINVAL, false, st)
    end in
  (ret, 0, released, st').

(** Results of the calls HgfsDoGetattrInt makes, and the fields of the
    reply it reads. *)
Record GetattrEnv := mkGetattrEnv {
  ga_encode : Z;
  ga_submit : Z;
  ga_status : Z;
  ga_payloadSize : Z;                (* HgfsKReq_GetPayloadSize(req) *)
  ga_symlinkLen : Z;                 (* reply->symlinkTarget.length *)
  ga_attr : HgfsAttrV2               (* reply->attr *)
}.

(** HgfsDoGetattrInt: the return value, what was copied to [*hgfsAttrV2]
    ([None] when nothing was), and the pool.  [path] is [None] for a NULL
    path. *)
Definition HgfsDoGetattrInt (st : VState) (path : option string)
                            (handle : HgfsHandle) (env : GetattrEnv)
  : Z * option HgfsAttrV2 * VState :=
  match VAllocateRequest st with
  | (None, st1) => (ENOMEM, None, st1)
  | (Some req, st1) =>
      let by_name := match path with Some _ => true | None => false end in
      if by_name && (ga_encode env <? 0) then
        (- ga_encode env, None, VReleaseRequest st1 req)
      else
        let st2 := VSubmitRequest st1 req
                     (OP_GETATTR_V3 (if by_name then None else Some handle))
                     (ga_submit env) in
        if negb (ga_submit env =? 0) then (ga_submit env, None, st2)
        else if negb (ga_status env =? 0) then
          (ga_status env, None, VReleaseRequest st2 req)
        else if negb (ga_payloadSize env
                      =? to_uint32 (repSize_getattr + ga_symlinkLen env)) then
          (EFAULT, None, VReleaseRequest st2 req)
        else (ga_status env, Some (ga_attr env), VReleaseRequest st2 req)
  end.

Definition HgfsDoGetattrByName (st : VState) (path : string) (env : GetattrEnv)
  : Z * option HgfsAttrV2 * VState :=
  HgfsDoGetattrInt st (Some path) 0 env.

(** HgfsGetattrInt: the return value, the [va_mode] stored in [*vap]
    ([None] when [*vap] was not written), and the pool. *)
Definition HgfsGetattrInt (st : VState) (path : string) (env : GetattrEnv)
  : Z * option Z * VState :=
  let '(ret, attr, st') := HgfsDoGetattrByName st path env in
  if ret =? 0 then
    (ret, match attr with Some a => Some (HgfsAttrToBSD a) | None => None end,
     st')
  else (ret, None, st').

(** [(mode & bit) && !(va_mode & bit)] *)
Definition lacks (mode va_mode bit : Z) : bool :=
  negb (Z.land mode bit =? 0) && (Z.land va_mode bit =? 0).

Definition HgfsAccessInt (st : VState) (path : string) (mode : Z)
                         (env : GetattrEnv) : Z * VState :=
  let '(ret, va, st') := HgfsGetattrInt st path env in
  if negb (ret =? 0) then (ret, st')
  else
    let va_mode := match va with Some m => m | None => 0 end in
    if lacks mode va_mode S_ISUID then (EPERM, st')
    else if lacks mode va_mode S_ISGID then (EPERM, st')
    else if lacks mode va_mode S_ISVTX then (EPERM, st')
    else if lacks mode va_mode S_IRUSR then (EPERM, st')
    else if lacks mode va_mode S_IWUSR then (EPERM, st')
    else if lacks mode va_mode S_IXUSR then (EPERM, st')
    else if lacks mode va_mode S_IRGRP then (EPERM, st')
    else if lacks mode va_mode S_IWGRP then (EPERM, st')
    else if lacks mode va_mode S_IXGRP then (EPERM, st')
    else if lacks mode va_mode S_IROTH then (EPERM, st')
    else if lacks mode va_mode S_IWOTH then (EPERM, st')
    else if lacks mode va_mode S_IXOTH then (EPERM, st')
    else (0, st').

(** What HgfsLookupInt leaves in [*vpp]. *)
Inductive Vpp :=
| VppUntouched
| VppRoot                            (* sip->rootVnode *)
| VppNew (type : HgfsFileType)       (* the vnode HgfsVnodeGet made *)
| VppFailedGet.                      (* what a failing HgfsVnodeGet left *)

(** The surroundings of HgfsLookupInt: whether the superinfo is there,
    os_malloc, HgfsMakeFullName (its return value and the path it wrote),
    the getattr request, the name operation and flags of [cnp], and
    HgfsVnodeGet. *)
Record LookupEnv := mkLookupEnv {
  lk_sip : bool;
  lk_malloc : bool;
  lk_makeFullName : Z;
  lk_path : string;
  lk_getattr : GetattrEnv;
  lk_createOrRename : bool;          (* cn_nameiop == CREATE || == RENAME *)
  lk_isLastCn : bool;                (* cn_flags & ISLASTCN *)
  lk_vnodeGet : Z
}.

Definition HgfsLookupInt (st : VState) (env : LookupEnv) : Z * Vpp * VState :=
  if negb (lk_sip env) then (ENOTSUP, VppUntouched, st)
  else if negb (lk_malloc env) then (ENOMEM, VppUntouched, st)
  else if lk_makeFullName env <? 0 then (EINVAL, VppUntouched, st)
  else if String.eqb (lk_path env) "/" then (0, VppRoot, st)
  else
    let '(ret, attr, st') :=
      HgfsDoGetattrByName st (lk_path env) (lk_getattr env) in
    if (ret =? ENOENT) && lk_createOrRename env && lk_isLastCn env then
      (EJUSTRETURN, VppUntouched, st')
    else if negb (ret =? 0) then (ret, VppUntouched, st')
    else if negb (lk_vnodeGet env =? 0) then (lk_vnodeGet env, VppFailedGet, st')
    else
      (0, VppNew (match attr with
                  | Some a => attr_type a
                  | None => HGFS_FILE_TYPE_REGULAR
                  end), st').

(** HgfsRemoveInt and HgfsRmdirInt, on the state of [Hgfs]. *)
Definition HgfsRemoveInt (st : KState) (vt : vtype) (env : DeleteEnv)
  : Z * KState :=
  match vt with
  | VDIR => (EPERM, st)
  | _ => HgfsDelete st env
  end.

Definition HgfsRmdirInt (st : KState) (env : DeleteEnv) : Z * KState :=
  HgfsDelete st env.

(** HgfsOpenInt. *)
Definition HgfsOpenInt (st : KState) (vt : vtype) (denv : DirOpenEnv)
                       (fenv : FileOpenEnv) : Z * KState :=
  match vt with
  | VDIR => HgfsDirOpen st denv
  | VREG => HgfsFileOpen st fenv
  | _ => (EINVAL, st)
  end.

(** The marshaling operations of this module as one family. *)
Inductive VnopCall :=
| CSetattr (env : SetattrEnv)
| CMkdir (mode : Z) (env : MkdirEnv)
| CDirClose (env : CloseEnv)
| CFileClose (env : CloseEnv)
| CGetattr (path : option string) (handle : HgfsHandle) (env : GetattrEnv).

Definition run_vnop (c : VnopCall) (st : VState) : VState :=
  match c with
  | CSetattr env => snd (HgfsSetattrInt st env)
  | CMkdir mode env => snd (HgfsMkdirInt st mode env)
  | CDirClose env => snd (HgfsDirClose st env)
  | CFileClose env => snd (HgfsFileClose st env)
  | CGetattr path handle env => snd (HgfsDoGetattrInt st path handle env)
  end.

End WithParams.

(** The (offset, payload) pairs of the WRITE requests in a history. *)
Fixpoint write_requests (evs : list KEvent) : list (Z * list Byte.byte) :=
  match evs with
  | [] => []
  | EvSubmit _ (OP_WRITE_V3 _ offset _ payload) _ :: evs' =>
      (offset, payload) :: write_requests evs'
  | _ :: evs' => write_requests evs'
  end.

(** Requests that follow one another without gap or overlap from [off]. *)
Fixpoint contiguous (off : Z) (reqs : list (Z * list Byte.byte)) : Prop :=
  match reqs with
  | [] => True
  | (o, p) :: reqs' =>
      o = off /\ contiguous (off + Z.of_nat (List.length p)) reqs'
  end.

(** A server that takes every WRITE request whole: the user's bytes are
    copied in, the submission and the status are fine, the reply has the
    size of a WRITE reply and counts every byte sent. *)
Definition accepting {P : Params} (server : WriteServer) : Prop :=
  forall i off payload,
    server i off payload
    = mkWriteReply 0 0 0 repSize_write (Z.of_nat (List.length payload)).

(** Sample values: the shifts of the permission fields, the getattr reply
    size, and a mode made of the permission fields the server sent. *)
Definition sample_attr_params : AttrParams := {|
  HGFS_ATTR_SPECIAL_PERM_SHIFT := 9;
  HGFS_ATTR_OWNER_PERM_SHIFT := 6;
  HGFS_ATTR_GROUP_PERM_SHIFT := 3;
  repSize_getattr := 100;
  HgfsAttrToBSD := fun a =>
    Z.lor (Z.lor (Z.shiftl (attr_ownerPerms a) 6)
                 (Z.shiftl (attr_groupPerms a) 3)) (attr_otherPerms a)
|}.

Definition empty_history : VState := mkVState (mkPool [0%nat; 1%nat] [] 0) [].

(** A server that takes every WRITE request whole. *)
Definition whole_write_server : WriteServer :=
  fun _ _ payload => mkWriteReply 0 0 0 16 (Z.of_nat (List.length payload)).

End HgfsVnops.

(* ====================================================================== *)
(** * Properties *)
(* ====================================================================== *)

Lemma to_int32_small (z : Z) : - 2 ^ 31 <= z < 2 ^ 31 -> to_int32 z = z.
Proof.
  intros Hz. unfold to_int32.
  rewrite Z.mod_small by lia. lia.
Qed.

Lemma to_uint64_small (z : Z) : 0 <= z < 2 ^ 64 -> to_uint64 z = z.
Proof. intros Hz. unfold to_uint64. now rewrite Z.mod_small. Qed.

Lemma to_uint32_small (z : Z) : 0 <= z < 2 ^ 32 -> to_uint32 z = z.
Proof. intros Hz. unfold to_uint32. now rewrite Z.mod_small. Qed.

(** ** The backdoor channel *)

Section BdoorProperties.
Import Bdoor.
Context {L : RpcLib}.

Lemma stop_out_flags (bdoor bdoor' : BackdoorChannel) destroy calls :
  stop_out bdoor destroy = Some (bdoor', calls) ->
  outStarted bdoor' = false /\ inStarted bdoor' = inStarted bdoor
  /\ in_ bdoor' = in_ bdoor.
Proof.
  unfold stop_out. destruct (out bdoor) as [o|].
  - destruct (outStarted bdoor), destroy; intros H; inversion H; auto.
  - destruct (outStarted bdoor) eqn:E; simpl; intros H; inversion H; subst; auto.
Qed.

Lemma stop_in_flags (bdoor bdoor' : BackdoorChannel) destroy calls :
  stop_in bdoor destroy = Some (bdoor', calls) ->
  inStarted bdoor' = false /\ outStarted bdoor' = outStarted bdoor
  /\ out bdoor' = out bdoor.
Proof.
  unfold stop_in. destruct (in_ bdoor) as [i|].
  - destruct (inStarted bdoor), destroy; intros H; inversion H; auto.
  - destruct (inStarted bdoor) eqn:E; simpl; intros H; inversion H; subst; auto.
Qed.

Lemma stop_out_total (bdoor : BackdoorChannel) destroy :
  (out bdoor = None -> outStarted bdoor = false) ->
  exists bdoor' calls, stop_out bdoor destroy = Some (bdoor', calls).
Proof.
  intros H. unfold stop_out. destruct (out bdoor) as [o|].
  - destruct (outStarted bdoor), destroy; eauto.
  - rewrite H by reflexivity. simpl. eauto.
Qed.

Lemma stop_in_total (bdoor : BackdoorChannel) destroy :
  (in_ bdoor = None -> inStarted bdoor = false) ->
  exists bdoor' calls, stop_in bdoor destroy = Some (bdoor', calls).
Proof.
  intros H. unfold stop_in. destruct (in_ bdoor) as [i|].
  - destruct (inStarted bdoor), destroy; eauto.
  - rewrite H by reflexivity. simpl. eauto.
Qed.

Lemma RpcInStopChannel_clears (bdoor : BackdoorChannel) destroy :
  stoppable bdoor ->
  exists bdoor' calls,
    RpcInStopChannel bdoor destroy = Some (bdoor', calls)
    /\ inStarted bdoor' = false /\ outStarted bdoor' = false.
Proof.
  intros [Ho Hi]. unfold RpcInStopChannel.
  destruct (stop_out_total bdoor destroy Ho) as (b1 & c1 & E1).
  rewrite E1. simpl.
  destruct (stop_out_flags _ _ _ _ E1) as (F1 & F2 & F3).
  assert (Hi1 : in_ b1 = None -> inStarted b1 = false).
  { rewrite F2, F3. exact Hi. }
  destruct (stop_in_total b1 destroy Hi1) as (b2 & c2 & E2).
  rewrite E2. simpl.
  destruct (stop_in_flags _ _ _ _ E2) as (G1 & G2 & G3).
  exists b2, (c1 ++ c2). repeat split; congruence.
Qed.

Lemma cleared_stoppable (bdoor : BackdoorChannel) :
  inStarted bdoor = false -> outStarted bdoor = false -> stoppable bdoor.
Proof. intros Hi Ho. split; intros _; assumption. Qed.

Lemma stop_many_clears (ds : list bool) :
  forall (bdoor : BackdoorChannel) d,
    stoppable bdoor ->
    exists bdoor', stop_many bdoor (d :: ds) = Some bdoor'
                   /\ inStarted bdoor' = false /\ outStarted bdoor' = false.
Proof.
  induction ds as [|d' ds IH]; intros bdoor d Hs.
  - destruct (RpcInStopChannel_clears bdoor d Hs) as (b1 & c1 & E & Fi & Fo).
    exists b1. simpl. rewrite E. simpl. auto.
  - destruct (RpcInStopChannel_clears bdoor d Hs) as (b1 & c1 & E & Fi & Fo).
    destruct (IH b1 d' (cleared_stoppable b1 Fi Fo)) as (b2 & E2 & Gi & Go).
    exists b2. change (stop_many bdoor (d :: d' :: ds))
      with (r <-? RpcInStopChannel bdoor d ;; stop_many (fst r) (d' :: ds)).
    rewrite E. simpl obind. simpl fst. auto.
Qed.

Lemma RpcInStart_result (bdoor : BackdoorChannel) i o :
  in_ bdoor = Some i -> out bdoor = Some o ->
  inStarted bdoor = false -> outStarted bdoor = false ->
  exists bdoor1 ret calls,
    RpcInStart bdoor = Some (bdoor1, ret, calls)
    /\ inStarted bdoor1 = true /\ outStarted bdoor1 = true
    /\ in_ bdoor1 <> None /\ out bdoor1 <> None
    /\ ret = (snd (RpcIn_start i RPCIN_MAX_DELAY) && snd (RpcOut_start o))%bool
    /\ (snd (RpcIn_start i RPCIN_MAX_DELAY) = true ->
        snd (RpcOut_start o) = false ->
        calls = [CallInStart RPCIN_MAX_DELAY; CallOutStart; CallInStop]).
Proof.
  intros Hi Ho Fi Fo. unfold RpcInStart. rewrite Fi, Fo, Hi. simpl.
  destruct (RpcIn_start i RPCIN_MAX_DELAY) as [i1 [|]]; simpl.
  - rewrite Ho. simpl. destruct (RpcOut_start o) as [o1 [|]]; simpl.
    + do 3 eexists. repeat split; try reflexivity; try discriminate.
    + do 3 eexists. repeat split; try reflexivity; try discriminate.
  - rewrite Ho. do 3 eexists. repeat split; try reflexivity; try discriminate.
Qed.

(** C9.  A channel with both library objects and both flags clear (the
    state RpcInStart asserts) is started: whatever the two start calls
    return, RpcInStart passes its assertions; when the inbound loop starts
    and the outbound channel does not, it returns FALSE after stopping the
    inbound loop again.  From the state it leaves, every non-empty sequence
    of stop calls (with or without destroy) runs without tripping an
    assertion and ends with both direction flags FALSE.  The two flags are
    separate: stopping the "out" half clears only [outStarted], stopping
    the "in" half only [inStarted]. *)
Theorem RpcInStart_leaves_stoppable_channel
    (bdoor : BackdoorChannel) (i : RpcIn) (o : RpcOut) :
  in_ bdoor = Some i -> out bdoor = Some o ->
  inStarted bdoor = false -> outStarted bdoor = false ->
  exists bdoor1 ret calls,
    RpcInStart bdoor = Some (bdoor1, ret, calls)
    /\ (snd (RpcIn_start i RPCIN_MAX_DELAY) = true ->
        snd (RpcOut_start o) = false ->
        ret = false
        /\ calls = [CallInStart RPCIN_MAX_DELAY; CallOutStart; CallInStop])
    /\ (forall d ds, exists bdoor2,
          stop_many bdoor1 (d :: ds) = Some bdoor2
          /\ inStarted bdoor2 = false /\ outStarted bdoor2 = false)
    /\ (forall b destroy b' calls',
          stop_out b destroy = Some (b', calls') ->
          outStarted b' = false /\ inStarted b' = inStarted b)
    /\ (forall b destroy b' calls',
          stop_in b destroy = Some (b', calls') ->
          inStarted b' = false /\ outStarted b' = outStarted b).
Proof.
  intros Hi Ho Fi Fo.
  destruct (RpcInStart_result bdoor i o Hi Ho Fi Fo)
    as (b1 & ret & calls & E & Si & So & Ni & No & Hret & Hcalls).
  exists b1, ret, calls. split; [exact E|]. split.
  - intros A B. split; [|auto]. rewrite Hret, A, B. reflexivity.
  - split; [|split].
    + intros d ds. apply stop_many_clears. split; intros N; contradiction.
    + intros b destroy b' calls' H.
      destruct (stop_out_flags _ _ _ _ H) as (A & B & _). auto.
    + intros b destroy b' calls' H.
      destruct (stop_in_flags _ _ _ _ H) as (A & B & _). auto.
Qed.


Lemma RpcInSend_sends_at_most_twice (bdoor bdoor' : BackdoorChannel) data
                                    hr hl so calls :
  RpcInSend bdoor data hr hl = Some (bdoor', so, calls) ->
  (count_calls is_send calls <= 2)%nat
  /\ (count_calls is_out_stop calls <= 1)%nat
  /\ (count_calls is_out_start calls <= 1)%nat.
Proof.
  unfold RpcInSend, finish_send.
  destruct (outStarted bdoor); simpl.
  2:{ intros H; inversion H; subst; simpl; unfold count_calls; simpl; lia. }
  destruct (out bdoor) as [o|]; simpl; [|discriminate].
  destruct (RpcOut_send o data) as [o1 r1].
  destruct (desync_reply r1).
  - destruct (RpcOut_start (fst (RpcOut_stop o1))) as [o3 [|]].
    + destruct (RpcOut_send o3 data) as [o4 r2].
      intros H; inversion H; subst; unfold count_calls; simpl; lia.
    + intros H; inversion H; subst; unfold count_calls; simpl; lia.
  - intros H; inversion H; subst; unfold count_calls; simpl; lia.
Qed.

(** C3 (amended).  A send whose first attempt fails with a non-NULL reply
    that is longer than [sizeof "RpcOut: "] (9) and starts with "RpcOut: "
    stops the out channel once and tries to start it again once.  When the
    restart succeeds the identical data is sent a second time, exactly once,
    and the caller sees what that second attempt gave: its return value, its
    reply and its length, on a channel still marked started.  When the
    restart fails nothing is resent, the caller gets FALSE with a copy of
    the first reply and its length, and the out direction is marked stopped
    on the object the failed restart left.  No send ever makes more than
    two attempts, one stop and one restart. *)
Theorem RpcInSend_desync_retries_once
    (bdoor : BackdoorChannel) (data : string) (hr hl : bool)
    (o o1 : RpcOut) (r1 : SendReply) (txt : string) :
  outStarted bdoor = true -> out bdoor = Some o ->
  RpcOut_send o data = (o1, r1) ->
  sr_ret r1 = false -> sr_reply r1 = Some txt ->
  sizeof_lit "RpcOut: " < sr_replyLen r1 ->
  String.prefix "RpcOut: " txt = true ->
  exists bdoor' so calls,
    RpcInSend bdoor data hr hl = Some (bdoor', so, calls)
    /\ count_calls is_out_stop calls = 1%nat
    /\ count_calls is_out_start calls = 1%nat
    /\ (count_calls is_send calls <= 2)%nat
    /\ (forall o3, RpcOut_start (fst (RpcOut_stop o1)) = (o3, true) ->
          retried_once data calls
          /\ so_ret so = sr_ret (snd (RpcOut_send o3 data))
          /\ so_result so =
               (if hr then
                  Some (copy_reply (sr_reply (snd (RpcOut_send o3 data)))
                                   (sr_replyLen (snd (RpcOut_send o3 data))))
                else None)
          /\ so_resultLen so =
               (if hl then Some (sr_replyLen (snd (RpcOut_send o3 data)))
                else None)
          /\ outStarted bdoor' = true)
    /\ (forall o3, RpcOut_start (fst (RpcOut_stop o1)) = (o3, false) ->
          calls = [CallOutSend data; CallOutStop; CallOutStart]
          /\ so_ret so = false
          /\ so_result so =
               (if hr then Some (copy_reply (sr_reply r1) (sr_replyLen r1))
                else None)
          /\ so_resultLen so =
               (if hl then Some (sr_replyLen r1) else None)
          /\ outStarted bdoor' = false
          /\ out bdoor' = Some o3).
Proof.
  intros Hs Ho Hsend Hret Hreply Hlen Hpre.
  assert (Hd : desync_reply r1 = true).
  { unfold desync_reply. rewrite Hret, Hreply, Hpre.
    apply Z.ltb_lt in Hlen. rewrite Hlen. reflexivity. }
  unfold RpcInSend, finish_send. rewrite Hs, Ho. simpl.
  rewrite Hsend, Hd.
  destruct (RpcOut_start (fst (RpcOut_stop o1))) as [o3 [|]] eqn:Est.
  - destruct (RpcOut_send o3 data) as [o4 r2] eqn:E2.
    do 3 eexists. split; [reflexivity|].
    unfold count_calls; simpl.
    split; [reflexivity|]. split; [reflexivity|]. split; [lia|]. split.
    + intros o3' H3; inversion H3; subst. unfold retried_once.
      rewrite E2. simpl. repeat split; reflexivity.
    + intros o3' H3; inversion H3.
  - do 3 eexists. split; [reflexivity|].
    unfold count_calls; simpl.
    split; [reflexivity|]. split; [reflexivity|]. split; [lia|]. split.
    + intros o3' H3; inversion H3.
    + intros o3' H3. inversion H3; subst o3'. cbn [so_ret so_result so_resultLen
                                                    outStarted out].
      split; [reflexivity|]. split; [exact Hret|].
      split; [reflexivity|]. split; [reflexivity|].
      split; reflexivity.
Qed.

End BdoorProperties.

Lemma RpcInStart_leaves_stoppable_channel_witness :
  exists bdoor1,
    Bdoor.RpcInStart Bdoor.fresh_channel
      = Some (bdoor1, false,
              [Bdoor.CallInStart Bdoor.RPCIN_MAX_DELAY; Bdoor.CallOutStart;
               Bdoor.CallInStop])
    /\ exists bdoor2,
         Bdoor.stop_many bdoor1 [false; false; true] = Some bdoor2
         /\ Bdoor.inStarted bdoor2 = false /\ Bdoor.outStarted bdoor2 = false.
Proof.
  destruct (RpcInStart_leaves_stoppable_channel (L := Bdoor.ScriptLib)
              Bdoor.fresh_channel true
              (Bdoor.mkScript [] [false])
              eq_refl eq_refl eq_refl eq_refl)
    as (b1 & ret & calls & E & Hpart & Hstop & _).
  destruct (Hpart eq_refl eq_refl) as [Hret Hcalls].
  exists b1. split.
  - rewrite E, Hret, Hcalls. reflexivity.
  - apply Hstop.
Defined.

Lemma RpcInSend_desync_retries_once_witness :
  exists bdoor' so,
    Bdoor.RpcInSend (Bdoor.desync_channel true) "tools.set.version 1" true true
      = Some (bdoor', so,
              [Bdoor.CallOutSend "tools.set.version 1"; Bdoor.CallOutStop;
               Bdoor.CallOutStart; Bdoor.CallOutSend "tools.set.version 1"])
    /\ Bdoor.so_ret so = true
    /\ Bdoor.so_result so = Some (Some "1 ok"%string).
Proof.
  destruct (RpcInSend_desync_retries_once (L := Bdoor.ScriptLib)
              (Bdoor.desync_channel true) "tools.set.version 1" true true
              (Bdoor.mkScript [Bdoor.failed_reply; Bdoor.ok_reply] [true])
              (Bdoor.mkScript [Bdoor.ok_reply] [true])
              Bdoor.failed_reply Bdoor.desync_text
              eq_refl eq_refl eq_refl eq_refl eq_refl eq_refl eq_refl)
    as (b & so & calls & E & _ & _ & _ & Hok & _).
  destruct (Hok (Bdoor.mkScript [Bdoor.ok_reply] []) eq_refl)
    as (Hcalls & Hret & Hres & _).
  exists b, so. rewrite E, Hcalls. unfold Bdoor.retried_once.
  split; [reflexivity|]. split; [exact Hret | exact Hres].
Defined.

(** C3 as stated fails: the first attempt fails with a reply that bears the
    "RpcOut: " prefix, the channel is stopped, the restart fails, and the
    data is not sent a second time. *)
Lemma RpcInSend_no_resend_counterexample :
  Bdoor.sr_ret Bdoor.failed_reply = false
  /\ String.prefix "RpcOut: " Bdoor.desync_text = true
  /\ exists bdoor' so calls,
       Bdoor.RpcInSend (Bdoor.desync_channel false) "tools.set.version 1"
                       true true
         = Some (bdoor', so, calls)
       /\ ~ Bdoor.retried_once "tools.set.version 1" calls
       /\ Bdoor.count_calls Bdoor.is_send calls = 1%nat.
Proof.
  split; [reflexivity|]. split; [reflexivity|].
  do 3 eexists. split; [reflexivity|]. split.
  - unfold Bdoor.retried_once. discriminate.
  - reflexivity.
Qed.

(** The length test of the retry: a failed reply of nine characters that
    starts with "RpcOut: " is handed to the caller without any restart. *)
Lemma RpcInSend_short_reply_not_retried :
  exists bdoor' so,
    Bdoor.RpcInSend Bdoor.short_reply_channel "tools.set.version 1" true true
      = Some (bdoor', so, [Bdoor.CallOutSend "tools.set.version 1"])
    /\ Bdoor.so_ret so = false
    /\ Bdoor.so_result so = Some (Some "RpcOut: x"%string).
Proof. do 2 eexists. repeat split. Qed.

(** ** Version negotiation in VMGuestLibUpdateInfo *)

Section GuestLibProperties.
Import GuestLib.
Context {P : Params}.

(** The loop touches nothing of the handle but its session id. *)
Lemma negotiate_keeps_handle (fuel : nat) :
  forall host i hv h e,
    negotiate fuel host i hv h = Some (Ended e) ->
    version (le_handle e) = version h
    /\ dataSize (le_handle e) = dataSize h
    /\ data (le_handle e) = data h
    /\ (le_sent e > i)%nat.
Proof.
  induction fuel as [|fuel IH]; intros host i hv h e; simpl; [discriminate|].
  destruct (rpc_ok (host i hv)).
  - destruct (negb (sessionId h =? 0) && negb (sessionId h =? hdr_sessionId (host i hv))).
    + intros H. apply IH in H. simpl in H. intuition lia.
    + intros H; inversion H; subst; simpl; intuition lia.
  - destruct (hv =? 2).
    + intros H; inversion H; subst; simpl; intuition lia.
    + destruct (reply_text (host i hv)) as [txt|]; [|discriminate].
      destruct (is_unknown_command txt).
      * intros H; inversion H; subst; simpl; intuition lia.
      * destruct (hv =? 3).
        -- intros H. apply IH in H. simpl in H. intuition lia.
        -- destruct (StrUtil_GetNextUintToken txt).
           ++ intros H. apply IH in H. intuition lia.
           ++ intros H; inversion H; subst; simpl; intuition lia.
Qed.

(** The loop ends with [hostVersion] 2 or 3 when it started there and the
    client's own version is 3. *)
Lemma negotiate_version_2_3 (fuel : nat) :
  VMGUESTLIB_DATA_VERSION = 3 ->
  forall host i hv h e,
    hv = 2 \/ hv = 3 ->
    negotiate fuel host i hv h = Some (Ended e) ->
    le_hostVersion e = 2 \/ le_hostVersion e = 3.
Proof.
  intros HV.
  induction fuel as [|fuel IH]; intros host i hv h e Hhv; simpl; [discriminate|].
  destruct (rpc_ok (host i hv)).
  - destruct (negb (sessionId h =? 0) && negb (sessionId h =? hdr_sessionId (host i hv))).
    + apply IH. rewrite HV. auto.
    + intros H; inversion H; subst; simpl; auto.
  - destruct (hv =? 2) eqn:E2.
    + intros H; inversion H; subst; simpl; auto.
    + destruct (reply_text (host i hv)) as [txt|]; [|discriminate].
      destruct (is_unknown_command txt).
      * intros H; inversion H; subst; simpl; auto.
      * destruct (hv =? 3) eqn:E3.
        -- apply IH. auto.
        -- apply Z.eqb_neq in E2, E3. lia.
Qed.

Lemma store_reply_version (e : LoopEnd) :
  le_hostVersion e = 2 \/ le_hostVersion e = 3 ->
  version (snd (store_reply e)) = version (le_handle e)
  \/ version (snd (store_reply e)) = 2
  \/ version (snd (store_reply e)) = 3.
Proof.
  intros Hv. unfold store_reply.
  destruct (replyLen (le_reply e) <? 4); [auto|].
  destruct (le_hostVersion e =? 2) eqn:E2.
  - apply Z.eqb_eq in E2.
    destruct (hdr_version (le_reply e) =? le_hostVersion e) eqn:Eh; simpl; [|auto].
    apply Z.eqb_eq in Eh.
    destruct (replyLen (le_reply e) =? sizeof_VMGuestLibDataV2); simpl; [|auto].
    right; left. congruence.
  - destruct (le_hostVersion e =? 3) eqn:E3; [|auto].
    apply Z.eqb_eq in E3.
    destruct (hdr_version (le_reply e) =? le_hostVersion e) eqn:Eh; simpl; [|auto].
    apply Z.eqb_eq in Eh.
    destruct (replyLen (le_reply e) <? sizeof_VMGuestLibDataV3); simpl; [auto|].
    destruct (xdr_count (le_reply e)) as [c|]; simpl.
    + destruct (unmarshal _ _ _) as [l [|]]; simpl; right; right; congruence.
    + right; right; congruence.
Qed.

(** Every handle a client can hold has version 0 (never updated), 2 or 3. *)
Lemma reachable_version (h : VMGuestLibHandleType) :
  VMGUESTLIB_DATA_VERSION = 3 ->
  reachable h -> version h = 0 \/ version h = 2 \/ version h = 3.
Proof.
  intros HV R. induction R as [|fuel host h ret h' sent R IH U].
  - left; reflexivity.
  - unfold VMGuestLibUpdateInfo in U.
    destruct (negotiate fuel host 0 (initial_version h) h) as [[e|]|] eqn:N;
      try discriminate.
    assert (Hiv : initial_version h = 2 \/ initial_version h = 3).
    { unfold initial_version. destruct IH as [H0|[H2|H3]].
      - rewrite H0. simpl. rewrite HV. auto.
      - rewrite H2. simpl. auto.
      - rewrite H3. simpl. auto. }
    pose proof (negotiate_keeps_handle _ _ _ _ _ _ N) as (Kv & _).
    pose proof (negotiate_version_2_3 _ HV _ _ _ _ _ Hiv N) as Hv.
    destruct (is_success (le_ret e)).
    + pose proof (store_reply_version e Hv) as S.
      destruct (store_reply e) as [ret0 h0]. inversion U; subst.
      simpl in S. rewrite Kv in S.
      destruct S as [S|[S|S]]; [rewrite S; exact IH | auto | auto].
    + inversion U; subst. rewrite Kv. exact IH.
Qed.

Lemma initial_version_2_3 (h : VMGuestLibHandleType) :
  VMGUESTLIB_DATA_VERSION = 3 -> reachable h ->
  initial_version h = 2 \/ initial_version h = 3.
Proof.
  intros HV R. destruct (reachable_version h HV R) as [H0|[H2|H3]];
    unfold initial_version.
  - rewrite H0. simpl. rewrite HV. auto.
  - rewrite H2. simpl. auto.
  - rewrite H3. simpl. auto.
Qed.

(** At version 2 with no session recorded, one request ends the loop. *)
Lemma negotiate_v2_fresh host i h :
  sessionId h = 0 ->
  exists e, (forall f, negotiate (1 + f) host i 2 h = Some (Ended e))
            /\ le_sent e = S i
            /\ (rpc_ok (host i 2) = false ->
                le_ret e = VMGUESTLIB_ERROR_UNSUPPORTED_VERSION).
Proof.
  intros Hs. simpl. rewrite Hs. simpl.
  destruct (rpc_ok (host i 2)); eexists; repeat split; auto; discriminate.
Qed.

(** At version 3 with no session recorded, two requests are enough. *)
Lemma negotiate_v3_fresh host i h :
  sessionId h = 0 ->
  exists res, (forall f, negotiate (2 + f) host i 3 h = Some res)
              /\ ended_within (2 + i) res
              /\ (rpc_ok (host i 3) = false -> rpc_ok (host (S i) 2) = false ->
                  reply_text (host i 3) <> None ->
                  exists e, res = Ended e
                            /\ le_ret e = VMGUESTLIB_ERROR_UNSUPPORTED_VERSION).
Proof.
  intros Hs.
  destruct (negotiate_v2_fresh host (S i) (set_sessionId h 0) eq_refl)
    as (e2 & N2 & S2 & F2).
  cbn [negotiate Nat.add]. rewrite Hs. simpl.
  destruct (rpc_ok (host i 3)).
  - eexists; repeat split; simpl; try lia; discriminate.
  - destruct (reply_text (host i 3)) as [txt|].
    + destruct (is_unknown_command txt).
      * eexists; repeat split; simpl; try lia. eauto.
      * exists (Ended e2). split; [exact N2|]. split; [simpl; lia|].
        intros _ Hf _. eauto.
    + exists Fault. repeat split. intros _ _ C. congruence.
Qed.

(** From version 2 or 3, whatever the session, three requests are enough. *)
Lemma negotiate_bounded host i hv h :
  VMGUESTLIB_DATA_VERSION = 3 -> hv = 2 \/ hv = 3 ->
  exists res, (forall f, negotiate (3 + f) host i hv h = Some res)
              /\ ended_within (3 + i) res.
Proof.
  intros HV Hhv.
  destruct (negotiate_v3_fresh host (S i) (set_sessionId h 0) eq_refl)
    as (r3 & N3 & W3 & _).
  destruct (negotiate_v2_fresh host (S i) (set_sessionId h 0) eq_refl)
    as (e2 & N2 & S2 & _).
  assert (W3' : ended_within (3 + i) r3).
  { destruct r3; simpl in *; lia. }
  cbn [negotiate Nat.add]. rewrite HV.
  destruct (rpc_ok (host i hv)).
  - destruct (negb (sessionId h =? 0) && negb (sessionId h =? hdr_sessionId (host i hv))).
    + exists r3. split; [exact N3 | exact W3'].
    + eexists; split; [reflexivity | simpl; lia].
  - destruct Hhv as [-> | ->]; simpl.
    + eexists; split; [reflexivity | simpl; lia].
    + destruct (reply_text (host i 3)) as [txt|].
      * destruct (is_unknown_command txt).
        -- eexists; split; [reflexivity | simpl; lia].
        -- exists (Ended e2). split; [intros f; apply (N2 (S f)) | simpl; lia].
      * exists Fault. split; [reflexivity | exact I].
Qed.

(** A host that fails every request, with a reply text each time, gets the
    loop to UNSUPPORTED_VERSION within two requests. *)
Lemma negotiate_failing_host host i hv h :
  hv = 2 \/ hv = 3 ->
  (forall j v, rpc_ok (host j v) = false /\ reply_text (host j v) <> None) ->
  exists e, (forall f, negotiate (2 + f) host i hv h = Some (Ended e))
            /\ le_ret e = VMGUESTLIB_ERROR_UNSUPPORTED_VERSION
            /\ (le_sent e <= 2 + i)%nat.
Proof.
  intros Hhv Hfail.
  destruct (negotiate_v2_fresh host (S i) (set_sessionId h 0) eq_refl)
    as (e2 & N2 & S2 & F2).
  cbn [negotiate Nat.add].
  destruct (Hfail i hv) as [Hok Htxt]. rewrite Hok.
  destruct Hhv as [-> | ->]; simpl.
  - eexists; repeat split; simpl; lia.
  - destruct (reply_text (host i 3)) as [txt|]; [|congruence].
    destruct (is_unknown_command txt).
    + eexists; repeat split; simpl; lia.
    + exists e2. split; [exact N2|]. split; [|lia].
      apply F2. apply Hfail.
Qed.

(** C2.  With the client's own version at 3, VMGuestLibUpdateInfo on any
    handle a client can hold returns for every host: three iterations of
    the negotiation loop always suffice (more fuel does not change the
    result), so at most three requests are sent, whatever versions the host
    reports and in whatever order.  Against a host that keeps failing the
    request (whatever fallback version its reply text names), the function
    returns the error UNSUPPORTED_VERSION after at most two requests. *)
Theorem VMGuestLibUpdateInfo_terminates
    (host : Host) (h : VMGuestLibHandleType) :
  VMGUESTLIB_DATA_VERSION = 3 -> reachable h ->
  (exists r,
     (forall f, VMGuestLibUpdateInfo (3 + f) host h = Some r)
     /\ (forall ret h' sent, r = Updated ret h' sent -> (sent <= 3)%nat))
  /\ ((forall j v, rpc_ok (host j v) = false /\ reply_text (host j v) <> None) ->
      exists h' sent,
        (forall f, VMGuestLibUpdateInfo (2 + f) host h
                   = Some (Updated VMGUESTLIB_ERROR_UNSUPPORTED_VERSION h' sent))
        /\ (sent <= 2)%nat).
Proof.
  intros HV R. pose proof (initial_version_2_3 h HV R) as Hiv. split.
  - destruct (negotiate_bounded host 0%nat (initial_version h) h HV Hiv)
      as (res & N & W).
    unfold VMGuestLibUpdateInfo.
    destruct res as [e|].
    + destruct (is_success (le_ret e)) eqn:Es.
      * destruct (store_reply e) as [ret0 h0] eqn:St.
        exists (Updated ret0 h0 (le_sent e)). split.
        -- intros f. rewrite N, Es, St. reflexivity.
        -- intros ret h' sent HU; inversion HU; subst. simpl in W. lia.
      * exists (Updated (le_ret e) (le_handle e) (le_sent e)). split.
        -- intros f. rewrite N, Es. reflexivity.
        -- intros ret h' sent HU; inversion HU; subst. simpl in W. lia.
    + exists UpdateFault. split.
      * intros f. rewrite N. reflexivity.
      * intros ret h' sent HU; inversion HU.
  - intros Hfail.
    destruct (negotiate_failing_host host 0%nat (initial_version h) h Hiv Hfail)
      as (e & N & Hret & Hsent).
    exists (le_handle e), (le_sent e). split; [|lia].
    intros f. unfold VMGuestLibUpdateInfo. rewrite N, Hret. reflexivity.
Qed.


(** After a loop that ended in success on a handle without a session,
    the part after the loop leaves the session at 0 unless it stores the
    reply it was given: then the handle has the reply's session and the
    version the loop ended at. *)
Lemma store_reply_session (e : LoopEnd) :
  sessionId (le_handle e) = 0 ->
  le_ret e = VMGUESTLIB_ERROR_SUCCESS ->
  (fst (store_reply e) <> VMGUESTLIB_ERROR_SUCCESS ->
   snd (store_reply e) = le_handle e)
  /\ (sessionId (snd (store_reply e)) = 0
      \/ (sessionId (snd (store_reply e)) = hdr_sessionId (le_reply e)
          /\ version (snd (store_reply e)) = le_hostVersion e
          /\ hdr_version (le_reply e) = le_hostVersion e)).
Proof.
  intros Hs Hret. unfold store_reply.
  destruct (replyLen (le_reply e) <? 4); cbn [fst snd]; [auto|].
  destruct (le_hostVersion e =? 2) eqn:E2.
  - destruct (hdr_version (le_reply e) =? le_hostVersion e) eqn:Eh;
      cbn [negb fst snd]; [|auto].
    apply Z.eqb_eq in Eh.
    destruct (replyLen (le_reply e) =? sizeof_VMGuestLibDataV2);
      cbn [negb fst snd]; [|auto].
    split; [intros C; contradiction|]. right. cbn [sessionId version]. auto.
  - destruct (le_hostVersion e =? 3) eqn:E3; cbn [fst snd]; [|auto].
    destruct (hdr_version (le_reply e) =? le_hostVersion e) eqn:Eh;
      cbn [negb fst snd]; [|auto].
    apply Z.eqb_eq in Eh.
    destruct (replyLen (le_reply e) <? sizeof_VMGuestLibDataV3);
      cbn [fst snd]; [auto|].
    destruct (xdr_count (le_reply e)) as [c|]; cbn [fst snd].
    + destruct (unmarshal _ _ _) as [l [|]]; cbn [fst snd sessionId version].
      * split; [intros C; contradiction|]. right. auto.
      * rewrite Hret. split; [intros C; contradiction|]. left. reflexivity.
    + rewrite Hret. split; [intros C; contradiction|].
      right. cbn [sessionId version]. auto.
Qed.

(** C6.  A successful reply whose session id differs from the nonzero id
    stored in the handle is not accepted.  In any iteration of the loop, at
    whatever version: the loop goes on and ends within two further requests
    (three iterations are always enough); the id in the handle has been
    reset to 0 and nothing else of the handle is touched; the next request
    asks for the client's highest version, 3, and when the host answers it
    the loop ends in SUCCESS at version 3 with that answer; otherwise the
    loop ends at version 3 with that failure, or at version 2 with the
    answer to a third request; the reply it ends with is never the one
    with the changed session.  For the whole update, started on such a
    handle: it returns after two or three requests, and the handle it
    leaves has session 0 (always so when the update reports an error), or
    the session and version of the reply to the second or third request;
    the rejected reply is stored nowhere. *)
Theorem session_change_renegotiates
    (host : Host) (i : nat) (hv : Z) (h : VMGuestLibHandleType) :
  VMGUESTLIB_DATA_VERSION = 3 ->
  rpc_ok (host i hv) = true ->
  sessionId h <> 0 ->
  hdr_sessionId (host i hv) <> sessionId h ->
  (exists res,
     (forall f, negotiate (3 + f) host i hv h = Some res)
     /\ (forall e, res = Ended e ->
           le_handle e = set_sessionId h 0
           /\ (S i < le_sent e <= 3 + i)%nat
           /\ ((le_hostVersion e = 3 /\ le_reply e = host (S i) 3
                /\ le_sent e = S (S i))
               \/ (le_hostVersion e = 2 /\ le_reply e = host (S (S i)) 2
                   /\ le_sent e = S (S (S i))
                   /\ rpc_ok (host (S i) 3) = false)))
     /\ (rpc_ok (host (S i) 3) = true ->
         res = Ended (mkLoopEnd VMGUESTLIB_ERROR_SUCCESS 3 (set_sessionId h 0)
                                (host (S i) 3) (S (S i))))
     /\ (res = Fault ->
         rpc_ok (host (S i) 3) = false /\ reply_text (host (S i) 3) = None))
  /\ (i = 0%nat -> hv = initial_version h ->
      exists r,
        (forall f, VMGuestLibUpdateInfo (3 + f) host h = Some r)
        /\ (forall ret h' sent, r = Updated ret h' sent ->
              (2 <= sent <= 3)%nat
              /\ (ret <> VMGUESTLIB_ERROR_SUCCESS -> h' = set_sessionId h 0)
              /\ (sessionId h' = 0
                  \/ (sent = 2%nat /\ version h' = 3
                      /\ sessionId h' = hdr_sessionId (host 1%nat 3))
                  \/ (sent = 3%nat /\ version h' = 2
                      /\ sessionId h' = hdr_sessionId (host 2%nat 2))))).
Proof.
  intros HV Hok Hs Hd.
  assert (A : (sessionId h =? 0) = false) by (apply Z.eqb_neq; exact Hs).
  assert (B : (sessionId h =? hdr_sessionId (host i hv)) = false)
    by (apply Z.eqb_neq; congruence).
  assert (Hloop : exists res,
     (forall f, negotiate (3 + f) host i hv h = Some res)
     /\ (forall e, res = Ended e ->
           le_handle e = set_sessionId h 0
           /\ (S i < le_sent e <= 3 + i)%nat
           /\ ((le_hostVersion e = 3 /\ le_reply e = host (S i) 3
                /\ le_sent e = S (S i))
               \/ (le_hostVersion e = 2 /\ le_reply e = host (S (S i)) 2
                   /\ le_sent e = S (S (S i))
                   /\ rpc_ok (host (S i) 3) = false))
           /\ (le_ret e = VMGUESTLIB_ERROR_SUCCESS
               \/ le_ret e = VMGUESTLIB_ERROR_UNSUPPORTED_VERSION))
     /\ (rpc_ok (host (S i) 3) = true ->
         res = Ended (mkLoopEnd VMGUESTLIB_ERROR_SUCCESS 3 (set_sessionId h 0)
                                (host (S i) 3) (S (S i))))
     /\ (res = Fault ->
         rpc_ok (host (S i) 3) = false /\ reply_text (host (S i) 3) = None)).
  { cbn [negotiate Nat.add]. rewrite Hok, A, B, HV.
    cbn [negb andb set_sessionId sessionId Z.eqb].
    destruct (rpc_ok (host (S i) 3)) eqn:E3.
    - eexists. split; [reflexivity|]. split; [|split].
      + intros e He. inversion He; subst e. cbn.
        split; [reflexivity|]. split; [lia|]. split; [left; auto | left; auto].
      + reflexivity.
      + intros C; discriminate.
    - destruct (reply_text (host (S i) 3)) as [txt|] eqn:Et.
      + destruct (is_unknown_command txt).
        * eexists. split; [reflexivity|]. split; [|split].
          -- intros e He. inversion He; subst e. cbn.
             split; [reflexivity|]. split; [lia|].
             split; [left; auto | right; auto].
          -- intros C; discriminate.
          -- intros C; discriminate.
        * destruct (rpc_ok (host (S (S i)) 2)) eqn:E2.
          -- eexists. split; [reflexivity|]. split; [|split].
             ++ intros e He. inversion He; subst e. cbn.
                split; [reflexivity|]. split; [lia|].
                split; [right; auto | left; auto].
             ++ intros C; discriminate.
             ++ intros C; discriminate.
          -- eexists. split; [reflexivity|]. split; [|split].
             ++ intros e He. inversion He; subst e. cbn.
                split; [reflexivity|]. split; [lia|].
                split; [right; auto | right; auto].
             ++ intros C; discriminate.
             ++ intros C; discriminate.
      + exists Fault. split; [reflexivity|]. split; [|split].
        * intros e C; discriminate.
        * intros C; discriminate.
        * intros _. auto. }
  destruct Hloop as (res & N & Hend & Hacc & Hfault).
  split.
  - exists res. split; [exact N|]. split; [|split; assumption].
    intros e He. destruct (Hend e He) as (H1 & H2 & H3 & _). auto.
  - intros -> ->. unfold VMGuestLibUpdateInfo.
    destruct res as [e|].
    + destruct (Hend e eq_refl) as (Hh & Hsent & Hrep & Hret).
      destruct (is_success (le_ret e)) eqn:Es.
      * assert (Hsucc : le_ret e = VMGUESTLIB_ERROR_SUCCESS)
          by (destruct (le_ret e); try discriminate; reflexivity).
        assert (H0 : sessionId (le_handle e) = 0) by (rewrite Hh; reflexivity).
        destruct (store_reply_session e H0 Hsucc) as [Hfail Hsess].
        destruct (store_reply e) as [ret0 h0] eqn:St. cbn [fst snd] in *.
        exists (Updated ret0 h0 (le_sent e)). split.
        -- intros f. rewrite N, Es, St. reflexivity.
        -- intros ret h' sent HU. inversion HU; subst ret h' sent.
           split; [lia|]. split.
           ++ intros Hne. rewrite (Hfail Hne). exact Hh.
           ++ destruct Hsess as [Z0 | (Hsid & Hver & _)]; [left; exact Z0|].
              right.
              destruct Hrep as [(Hv3 & Hr & Hn) | (Hv2 & Hr & Hn & _)].
              ** left. rewrite Hn, Hver, Hv3, Hsid, Hr. auto.
              ** right. rewrite Hn, Hver, Hv2, Hsid, Hr. auto.
      * exists (Updated (le_ret e) (le_handle e) (le_sent e)). split.
        -- intros f. rewrite N, Es. reflexivity.
        -- intros ret h' sent HU. inversion HU; subst ret h' sent.
           split; [lia|]. split; [intros _; exact Hh|].
           left. rewrite Hh. reflexivity.
    + exists UpdateFault. split.
      * intros f. rewrite N. reflexivity.
      * intros ret h' sent HU. inversion HU.
Qed.

(** C5.  The client asks for version 3; the host fails that request with a
    reply text other than "Unknown command" and answers the request for
    version 2 with a V2 struct of the right size.  VMGuestLibUpdateInfo
    then sends exactly two requests, returns SUCCESS, and leaves version 2,
    the host's session id and the V2 data in the handle.  On that handle
    every integral accessor returns what VMGuestLibCheckArgs says, or else
    the statistic read through the V2 struct, and the resource pool path
    is the one of the V2 struct. *)
Theorem v3_client_falls_back_to_v2
    (host : Host) (h : VMGuestLibHandleType) (txt : string) :
  VMGUESTLIB_DATA_VERSION = 3 ->
  initial_version h = VMGUESTLIB_DATA_VERSION ->
  rpc_ok (host 0%nat 3) = false ->
  reply_text (host 0%nat 3) = Some txt ->
  is_unknown_command txt = false ->
  rpc_ok (host 1%nat 2) = true ->
  hdr_version (host 1%nat 2) = 2 ->
  replyLen (host 1%nat 2) = sizeof_VMGuestLibDataV2 ->
  4 <= sizeof_VMGuestLibDataV2 ->
  exists h',
    (forall f, VMGuestLibUpdateInfo (2 + f) host h
               = Some (Updated VMGUESTLIB_ERROR_SUCCESS h' 2))
    /\ version h' = 2
    /\ sessionId h' = hdr_sessionId (host 1%nat 2)
    /\ data h' = DataV2 (terminate_path (as_v2 (host 1%nat 2)))
    /\ (forall out_nonnull fld,
          VMGUESTLIB_GETFN_BODY (Some h') out_nonnull fld
          = Some (match VMGuestLibCheckArgs (Some h') out_nonnull with
                  | VMGUESTLIB_ERROR_SUCCESS =>
                      VMGUESTLIB_GETSTAT_V2
                        (terminate_path (as_v2 (host 1%nat 2))) fld
                  | e => (e, None)
                  end))
    /\ (forall bsz,
          sessionId h' <> 0 ->
          VMGuestLib_GetResourcePoolPath (Some h') (Some bsz) true
          = Some (copy_path
                    (resourcePoolPath_valid (as_v2 (host 1%nat 2)))
                    (resourcePoolPath_value
                       (terminate_path (as_v2 (host 1%nat 2)))) bsz)).
Proof.
  intros HV Hiv Hfail Htxt Hunk Hok Hver Hlen Hsz.
  eexists. split; [|split; [|split; [|split; [|split]]]].
  - intros f. unfold VMGuestLibUpdateInfo. rewrite Hiv, HV.
    cbn [negotiate Nat.add]. rewrite Hfail. simpl. rewrite Htxt, Hunk, Hok.
    simpl. unfold store_reply. simpl.
    replace (replyLen (host 1%nat 2) <? 4) with false
      by (symmetry; apply Z.ltb_ge; lia).
    rewrite Hver, Hlen. simpl. rewrite Z.eqb_refl. simpl. reflexivity.
  - reflexivity.
  - reflexivity.
  - reflexivity.
  - intros out_nonnull fld. unfold VMGUESTLIB_GETFN_BODY. simpl.
    destruct out_nonnull; simpl; [|reflexivity].
    destruct (hdr_sessionId (host 1%nat 2) =? 0); reflexivity.
  - intros bsz Hs. unfold VMGuestLib_GetResourcePoolPath. simpl in *.
    apply Z.eqb_neq in Hs. rewrite Hs. reflexivity.
Qed.

End GuestLibProperties.

Lemma VMGuestLibUpdateInfo_terminates_witness :
  exists h' sent,
    GuestLib.VMGuestLibUpdateInfo (P := GuestLib.sample_params (fun _ => None))
      2 GuestLib.refusing_host GuestLib.VMGuestLib_OpenHandle
    = Some (GuestLib.Updated GuestLib.VMGUESTLIB_ERROR_UNSUPPORTED_VERSION
                             h' sent)
    /\ (sent <= 2)%nat.
Proof.
  destruct (VMGuestLibUpdateInfo_terminates
              (P := GuestLib.sample_params (fun _ => None))
              GuestLib.refusing_host GuestLib.VMGuestLib_OpenHandle
              eq_refl GuestLib.reach_open) as [_ Hfail].
  destruct Hfail as (h' & sent & E & B).
  - intros j v. split; [reflexivity | discriminate].
  - exists h', sent. split; [exact (E 0%nat) | exact B].
Defined.

(** A handle updated at version 2 in session 7 meets a version-2 host
    that is now in session 8: the reply of session 8 to the first request is
    turned down, version 3 is asked for and refused, and the reply to the
    third request, at version 2, is stored. *)
Lemma session_change_renegotiates_witness :
  exists h',
    GuestLib.VMGuestLibUpdateInfo (P := GuestLib.sample_params (fun _ => None))
      3 (GuestLib.v2_only_host 8 GuestLib.no_stats) GuestLib.v2_handle
    = Some (GuestLib.Updated GuestLib.VMGUESTLIB_ERROR_SUCCESS h' 3)
    /\ GuestLib.version h' = 2 /\ GuestLib.sessionId h' = 8.
Proof.
  destruct (session_change_renegotiates
              (P := GuestLib.sample_params (fun _ => None))
              (GuestLib.v2_only_host 8 GuestLib.no_stats) 0 2 GuestLib.v2_handle
              eq_refl eq_refl ltac:(discriminate) ltac:(discriminate))
    as [_ Hup].
  destruct (Hup eq_refl eq_refl) as (r & Hrun & _).
  assert (Hr : exists h',
            r = GuestLib.Updated GuestLib.VMGUESTLIB_ERROR_SUCCESS h' 3
            /\ GuestLib.version h' = 2 /\ GuestLib.sessionId h' = 8).
  { specialize (Hrun 0%nat). vm_compute in Hrun. inversion Hrun.
    eexists. repeat split. }
  destruct Hr as (h' & -> & Hv & Hsid).
  exists h'. split; [exact (Hrun 0%nat) | split; assumption].
Defined.

Lemma v3_client_falls_back_to_v2_witness :
  exists h',
    GuestLib.VMGuestLibUpdateInfo (P := GuestLib.sample_params (fun _ => None))
      2 (GuestLib.v2_only_host 7 (GuestLib.one_stat GuestLib.cpuLimitMHz 2400))
      GuestLib.VMGuestLib_OpenHandle
    = Some (GuestLib.Updated GuestLib.VMGUESTLIB_ERROR_SUCCESS h' 2)
    /\ GuestLib.version h' = 2
    /\ GuestLib.VMGUESTLIB_GETFN_BODY
         (P := GuestLib.sample_params (fun _ => None))
         (Some h') true GuestLib.cpuLimitMHz
       = Some (GuestLib.VMGUESTLIB_ERROR_SUCCESS, Some 2400).
Proof.
  destruct (v3_client_falls_back_to_v2
              (P := GuestLib.sample_params (fun _ => None))
              (GuestLib.v2_only_host 7 (GuestLib.one_stat GuestLib.cpuLimitMHz 2400))
              GuestLib.VMGuestLib_OpenHandle "Unsupported version"
              eq_refl eq_refl eq_refl eq_refl eq_refl eq_refl eq_refl eq_refl)
    as (h' & E & Hv & Hs & Hd & Hacc & _).
  - simpl. lia.
  - exists h'. split; [exact (E 0%nat)|]. split; [exact Hv|].
    rewrite Hacc. unfold GuestLib.VMGuestLibCheckArgs. rewrite Hs. reflexivity.
Defined.

(** ** HGFS: request buffers *)

Section HgfsProperties.
Import Hgfs.
Context {P : Params}.

Lemma remove_first_head r l : remove_first r (r :: l) = Some l.
Proof. simpl. now rewrite Nat.eqb_refl. Qed.

Lemma pool_put_after_alloc r fs iu mi :
  pool_put (mkPool fs (r :: iu) mi) r = mkPool (r :: fs) iu mi.
Proof. unfold pool_put. simpl. now rewrite Nat.eqb_refl. Qed.

(** What the events of one operation say about each request handle. *)
Lemma op_trace_counts evs :
  op_trace evs ->
  (count_ev is_submit evs <= 1)%nat
  /\ forall r,
       (count_ev (is_alloc r) evs <= 1)%nat
       /\ (count_ev (is_release r) evs + count_ev (is_dispose r) evs
           = count_ev (is_alloc r) evs)%nat
       /\ (count_ev (is_dispose r) evs = 1%nat ->
           count_ev (is_release r) evs = 0%nat)
       /\ (count_ev (is_submit_ok r) evs = 1%nat ->
           count_ev (is_release r) evs = 1%nat).
Proof.
  intros T. destruct T as [|r0|r0 op ret Hret|r0 op]; unfold count_ev; simpl.
  - split; [lia|]. intros r. repeat split; lia.
  - split; [lia|]. intros r. destruct (Nat.eqb r r0); simpl; repeat split; lia.
  - apply Z.eqb_neq in Hret. rewrite Hret.
    split; [lia|]. intros r. destruct (Nat.eqb r r0); simpl; repeat split; lia.
  - split; [lia|]. intros r. destruct (Nat.eqb r r0); simpl; repeat split; lia.
Qed.

(** Case analysis on the conditions of an operation, after the allocation
    has been decided. *)
Ltac split_conditions :=
  repeat match goal with
         | |- context [if negb (?a =? ?b) then _ else _] =>
             destruct (a =? b) eqn:?; cbn [negb]
         | |- context [if ?c then _ else _] => destruct c eqn:?
         end.

Ltac name_trace :=
  unfold HgfsKReq_ReleaseRequest, HgfsSubmitRequest; cbn [pool events];
  repeat match goal with
         | H : (?a =? 0) = true |- _ => apply Z.eqb_eq in H; subst a
         | H : (?a =? 0) = false |- context [?a =? 0] => rewrite H
         end;
  cbn [Z.eqb]; rewrite ?pool_put_after_alloc;
  eexists; split; [rewrite <- ?app_assoc; cbn [app]; reflexivity|];
  split; [reflexivity|];
  first [ apply tr_none | apply tr_early | apply tr_replied
        | apply tr_submit_failed; apply Z.eqb_neq; assumption ].

Ltac solve_op :=
  cbn [fst snd];
  first [ exists []; rewrite app_nil_r; repeat split; apply tr_none
        | name_trace ].

Lemma run_marshal_trace (op : MarshalOp) (st : KState) :
  exists evs,
    events (run_marshal op st) = events st ++ evs
    /\ pool (run_marshal op st) = pool st
    /\ op_trace evs.
Proof.
  destruct st as [[fr iu mi] ev].
  destruct op as [env|env|handle offset size uiop env
                 |handle offset size uiop server|env|env
                 |handle offset nameSize env];
    unfold run_marshal.
  - destruct env as [crossdev malloc srcLen mk es ed sub sta].
    unfold HgfsRenameInt, HgfsKReq_AllocateRequest.
    cbn [re_crossdev re_malloc re_srcFullPathLen re_makeFullName re_encodeSrc
         re_encodeDst re_submit re_status pool free inuse misuse events].
    destruct crossdev; [solve_op|].
    destruct fr as [|r fs]; [solve_op|].
    split_conditions; solve_op.
  - destruct env as [enc sub sta].
    unfold HgfsDelete, HgfsKReq_AllocateRequest.
    cbn [de_encode de_submit de_status pool free inuse misuse events].
    destruct fr as [|r fs]; [solve_op|].
    split_conditions; solve_op.
  - destruct env as [sub sta act pay um].
    unfold HgfsDoRead, HgfsKReq_AllocateRequest.
    cbn [rr_submit rr_status rr_actualSize rr_payload rr_uiomove
         pool free inuse misuse events].
    destruct fr as [|r fs]; [solve_op|].
    split_conditions; solve_op.
  - unfold HgfsDoWrite, HgfsKReq_AllocateRequest.
    cbn [pool free inuse misuse events].
    destruct fr as [|r fs]; [solve_op|].
    destruct (uiomove_from_user size uiop) as [payload uiop1].
    destruct (server offset payload) as [um sub sta psz act].
    cbn [wr_uiomove wr_submit wr_status wr_payloadSize wr_actualSize].
    split_conditions; solve_op.
  - destruct env as [hs enc sub sta sh].
    unfold HgfsDirOpen, HgfsKReq_AllocateRequest.
    cbn [do_handleIsSet do_encode do_submit do_status do_setHandle
         pool free inuse misuse events].
    destruct hs; [destruct FreeBSD; solve_op|].
    destruct fr as [|r fs]; [solve_op|].
    split_conditions; solve_op.
  - destruct env as [cs hs om ofl enc sub sta sh].
    unfold HgfsFileOpen, HgfsKReq_AllocateRequest.
    cbn [fo_createShare fo_handleIsSet fo_openMode fo_openFlags fo_encode
         fo_submit fo_status fo_setHandle pool free inuse misuse events].
    destruct cs; [solve_op|]. destruct hs; [solve_op|].
    destruct fr as [|r fs]; [solve_op|].
    split_conditions; solve_op.
  - destruct env as [sub sta psz nl nm ty].
    unfold HgfsGetNextDirEntry, HgfsKReq_AllocateRequest.
    cbn [dr_submit dr_status dr_payloadSize dr_nameLength dr_name dr_type
         pool free inuse misuse events].
    destruct fr as [|r fs]; [solve_op|].
    split_conditions; solve_op.
Qed.

(** C4.  Each marshaling operation (rename, delete, read, write, directory
    open, file open, readdir entry), run from any pool state and with any
    outcome of the calls it makes, adds to the pool's history either
    nothing, or one allocation followed by events of that request only, in
    which: the request is allocated once; the caller's releases and the
    disposal by a failed HgfsSubmitRequest together number exactly one; a
    submission that failed is not followed by a release from the caller; a
    submission that succeeded is followed by exactly one release, whatever
    HgfsGetStatus and the later checks say.  At most one request is
    submitted, and the pool ends exactly as it started: the buffer is back
    among the free ones and no release of a buffer that is not outstanding
    has been counted. *)
Theorem marshal_releases_exactly_once (op : MarshalOp) (st : KState) :
  exists evs,
    events (run_marshal op st) = events st ++ evs
    /\ pool (run_marshal op st) = pool st
    /\ (count_ev is_submit evs <= 1)%nat
    /\ forall r,
         (count_ev (is_alloc r) evs <= 1)%nat
         /\ (count_ev (is_release r) evs + count_ev (is_dispose r) evs
             = count_ev (is_alloc r) evs)%nat
         /\ (count_ev (is_dispose r) evs = 1%nat ->
             count_ev (is_release r) evs = 0%nat)
         /\ (count_ev (is_submit_ok r) evs = 1%nat ->
             count_ev (is_release r) evs = 1%nat).
Proof.
  destruct (run_marshal_trace op st) as (evs & E & Hp & T).
  exists evs. split; [exact E|]. split; [exact Hp|].
  apply op_trace_counts. exact T.
Qed.


(** ** HGFS: the chunked read and write loops *)

Lemma firstn_split_at {A : Type} (a : nat) :
  forall (r : nat) (l : list A),
    (a <= r)%nat ->
    List.firstn r l = List.firstn a l ++ List.firstn (r - a) (List.skipn a l).
Proof.
  induction a as [|a IH]; intros r l Har.
  - simpl. now rewrite Nat.sub_0_r.
  - destruct r as [|r]; [lia|]. destruct l as [|x l]; simpl.
    + now rewrite List.firstn_nil.
    + f_equal. apply IH. lia.
Qed.

Lemma unchunked_read_split file off a r :
  0 <= off -> 0 <= a <= r ->
  unchunked_read file off r
  = unchunked_read file off a ++ unchunked_read file (off + a) (r - a).
Proof.
  intros Ho Ha. unfold unchunked_read.
  rewrite (firstn_split_at (Z.to_nat a) (Z.to_nat r)) by lia.
  f_equal. rewrite List.skipn_skipn.
  replace (Z.to_nat a + Z.to_nat off)%nat with (Z.to_nat (off + a)) by lia.
  replace (Z.to_nat r - Z.to_nat a)%nat with (Z.to_nat (r - a)) by lia.
  reflexivity.
Qed.

Lemma unchunked_read_nil file off sz n :
  0 < sz -> unchunked_read file off sz = [] -> unchunked_read file off n = [].
Proof.
  unfold unchunked_read. intros Hsz H.
  destruct (List.skipn (Z.to_nat off) file) as [|x l].
  - apply List.firstn_nil.
  - destruct (Z.to_nat sz) eqn:E; [lia | discriminate].
Qed.

Lemma unchunked_read_zero file off : unchunked_read file off 0 = [].
Proof. reflexivity. Qed.

Lemma chunk_size_spec resid :
  0 < HGFS_IO_MAX < 2 ^ 31 -> 0 <= resid ->
  chunk_size resid = Z.min resid HGFS_IO_MAX.
Proof.
  intros Hio Hr. unfold chunk_size.
  destruct (HGFS_IO_MAX <? resid) eqn:E.
  - apply Z.ltb_lt in E. rewrite to_uint32_small by lia. lia.
  - apply Z.ltb_ge in E. rewrite to_uint32_small by lia. lia.
Qed.

(** One READ chunk, whatever the reply: the request it submits asks for
    [size] bytes, and what it appends to the user's buffer is at most
    [size] bytes long. *)
Ltac all_events :=
  repeat (apply List.Forall_cons; [simpl; auto|]); apply List.Forall_nil.

Lemma HgfsDoRead_bounded st handle offset size uiop env :
  0 <= size ->
  exists evs data,
    events (snd (fst (HgfsDoRead st handle offset size uiop env)))
      = events st ++ evs
    /\ List.Forall (fun e => requested_size e = 0 \/ requested_size e = size) evs
    /\ uio_buf (snd (HgfsDoRead st handle offset size uiop env))
       = uio_buf uiop ++ data
    /\ Z.of_nat (List.length data) <= size.
Proof.
  intros Hsz. destruct st as [[fr iu mi] ev].
  unfold HgfsDoRead, HgfsKReq_AllocateRequest. cbn [pool free events].
  destruct fr as [|r fs].
  { exists [], []. cbn. rewrite !app_nil_r. repeat split; [constructor | lia]. }
  unfold HgfsKReq_ReleaseRequest, HgfsSubmitRequest. cbn [pool events].
  assert (Hnil : forall l : list Byte.byte, l = l ++ [] /\ Z.of_nat (@List.length Byte.byte []) <= size).
  { intros l. rewrite app_nil_r. split; [reflexivity | simpl; lia]. }
  destruct (rr_submit env =? 0); cbn [negb fst snd].
  2:{ eexists; exists []. split; [rewrite <- app_assoc; reflexivity|].
      split; [|apply Hnil]. all_events. }
  destruct (rr_status env =? 0); cbn [negb fst snd].
  2:{ eexists; exists []. split; [rewrite <- !app_assoc; reflexivity|].
      split; [|apply Hnil]. all_events. }
  destruct (rr_actualSize env <=? size) eqn:Ea; cbn [fst snd].
  2:{ eexists; exists []. split; [rewrite <- !app_assoc; reflexivity|].
      split; [|apply Hnil]. all_events. }
  destruct (rr_actualSize env =? 0); cbn [fst snd].
  { eexists; exists []. split; [rewrite <- !app_assoc; reflexivity|].
    split; [|apply Hnil]. all_events. }
  destruct (rr_uiomove env =? 0); cbn [negb fst snd].
  2:{ eexists; exists []. split; [rewrite <- !app_assoc; reflexivity|].
      split; [|apply Hnil]. all_events. }
  eexists; eexists. split; [rewrite <- !app_assoc; reflexivity|].
  split; [all_events|].
  split; [reflexivity|].
  apply Z.leb_le in Ea. rewrite List.length_firstn. lia.
Qed.

(** One READ chunk whose reply declares more than was asked for. *)
Lemma HgfsDoRead_too_much st handle offset size uiop env req fs :
  free (pool st) = req :: fs ->
  rr_submit env = 0 -> rr_status env = 0 -> size < rr_actualSize env ->
  exists st',
    HgfsDoRead st handle offset size uiop env = (- EPROTO, st', uiop)
    /\ pool st' = pool st
    /\ events st' = events st ++ [EvAlloc req;
                                  EvSubmit req (OP_READ_V3 handle offset size) 0;
                                  EvRelease req].
Proof.
  intros Hfree Hsub Hsta Hact. destruct st as [[fr iu mi] ev].
  simpl in Hfree. subst fr.
  unfold HgfsDoRead, HgfsKReq_AllocateRequest. cbn [pool free events inuse misuse].
  rewrite Hsub, Hsta. cbn [Z.eqb negb].
  replace (rr_actualSize env <=? size) with false by (symmetry; apply Z.leb_gt; lia).
  eexists. split; [reflexivity|].
  unfold HgfsKReq_ReleaseRequest, HgfsSubmitRequest. cbn [pool events Z.eqb].
  rewrite pool_put_after_alloc. split; [reflexivity|].
  rewrite <- !app_assoc. reflexivity.
Qed.

(** X26.  The READ half of the size check: in every iteration of the read
    loop, from whatever loop state, a reply that was received with success
    status and declares an [actualSize] greater than the chunk size asked
    for makes HgfsDoRead return -EPROTO after releasing the request, and
    the loop return EPROTO at once; the user's buffer is as the earlier
    chunks left it.  No READ chunk, whatever the reply, appends more than
    the requested number of bytes. *)
Theorem read_reply_too_large_aborts
    (fuel : nat) (server : ReadServer) (i : nat) (st : KState)
    (handle : HgfsHandle) (offset : Z) (uiop : uio Byte.byte)
    (req : HgfsKReqHandle) (fs : list HgfsKReqHandle) :
  free (pool st) = req :: fs ->
  rr_submit (server i offset (chunk_size (uio_resid uiop))) = 0 ->
  rr_status (server i offset (chunk_size (uio_resid uiop))) = 0 ->
  chunk_size (uio_resid uiop)
    < rr_actualSize (server i offset (chunk_size (uio_resid uiop))) ->
  (exists st',
     HgfsDoRead st handle offset (chunk_size (uio_resid uiop)) uiop
                (server i offset (chunk_size (uio_resid uiop)))
       = (- EPROTO, st', uiop)
     /\ read_loop (S fuel) server i st handle offset uiop
        = Some (EPROTO, st', uiop)
     /\ pool st' = pool st)
  /\ (forall st0 h0 off0 size0 u0 env0,
        0 <= size0 ->
        exists data,
          uio_buf (snd (HgfsDoRead st0 h0 off0 size0 u0 env0))
            = uio_buf u0 ++ data
          /\ Z.of_nat (List.length data) <= size0).
Proof.
  intros Hfree Hsub Hsta Hact. split.
  - destruct (HgfsDoRead_too_much st handle offset _ uiop _ req fs
                Hfree Hsub Hsta Hact) as (st' & E & Hp & _).
    exists st'. split; [exact E|]. split; [|exact Hp].
    cbn [read_loop]. rewrite E. reflexivity.
  - intros st0 h0 off0 size0 u0 env0 Hsz.
    destruct (HgfsDoRead_bounded st0 h0 off0 size0 u0 env0 Hsz)
      as (evs & data & _ & _ & Hb & Hl).
    exists data. auto.
Qed.

End HgfsProperties.

Lemma read_reply_too_large_aborts_witness :
  exists st',
    Hgfs.read_loop (P := Hgfs.sample_params) 1 Hgfs.five_byte_server 0
                   Hgfs.two_buffers 5 0 (Hgfs.read_uio 0 10)
    = Some (Hgfs.EPROTO, st', Hgfs.read_uio 0 10)
    /\ Hgfs.pool st' = Hgfs.pool Hgfs.two_buffers.
Proof.
  destruct (read_reply_too_large_aborts (P := Hgfs.sample_params)
              0 Hgfs.five_byte_server 0 Hgfs.two_buffers 5 0
              (Hgfs.read_uio 0 10) 0%nat [1%nat]
              eq_refl eq_refl eq_refl eq_refl)
    as [(st' & _ & E & Hp) _].
  exists st'. split; [exact E | exact Hp].
Defined.

(** C1.  The WRITE path does not make the check its READ sibling makes.
    Eight bytes are written at offset 0 in chunks of four; the server
    answers each WRITE with success, a reply of the right size and
    [actualSize] 9.  HgfsDoWrite returns 9 for the chunk of 4, no EPROTO is
    raised, HgfsWriteInt advances its offset by the 9 and sends the second
    chunk for offset 9, and returns 0.  The same over-declared count on a
    READ chunk of 4 makes HgfsReadInt return EPROTO. *)
Lemma write_reply_too_large_accepted :
  Hgfs.chunk_size (P := Hgfs.sample_params) 8 = 4
  /\ Hgfs.wr_actualSize
       (Hgfs.nine_byte_server 0%nat 0 (String.list_byte_of_string "0123")) = 9
  /\ fst (fst (Hgfs.HgfsDoWrite (P := Hgfs.sample_params) Hgfs.two_buffers 5 0 4
                 (Hgfs.write_uio 0 (String.list_byte_of_string "01234567"))
                 (Hgfs.nine_byte_server 0%nat))) = 9
  /\ (exists st' u',
        Hgfs.HgfsWriteInt (P := Hgfs.sample_params) 2 Hgfs.nine_byte_server
          Hgfs.two_buffers Hgfs.open_file
          (Hgfs.write_uio 0 (String.list_byte_of_string "01234567"))
        = Some (0, st', u')
        /\ HgfsVnops.write_requests (Hgfs.events st')
           = [(0, String.list_byte_of_string "0123");
              (9, String.list_byte_of_string "4567")])
  /\ (exists st',
        Hgfs.HgfsReadInt (P := Hgfs.sample_params) 1 Hgfs.five_byte_server
          Hgfs.two_buffers Hgfs.open_file (Hgfs.read_uio 0 4)
        = Some (Hgfs.EPROTO, st', Hgfs.read_uio 0 4)).
Proof.
  split; [reflexivity|]. split; [reflexivity|]. split; [reflexivity|].
  split.
  - do 2 eexists. split; reflexivity.
  - eexists. reflexivity.
Qed.

(** ** HGFS: the chunked read against a file *)

Section ReadRefinement.
Import Hgfs.
Context {P : Params}.
Variable file : list Byte.byte.
Variable server : ReadServer.
Hypothesis Hio : 0 < HGFS_IO_MAX < 2 ^ 31.
Hypothesis Hfaithful : faithful file server.

(** The three ways one chunk of the loop can go against a faithful
    server. *)
Lemma HgfsDoRead_faithful i st handle offset uiop :
  0 <= uio_resid uiop ->
  let size := chunk_size (uio_resid uiop) in
  let res := HgfsDoRead st handle offset size uiop (server i offset size) in
  (fst (fst res) < 0 /\ snd res = uiop)
  \/ (fst (fst res) = 0 /\ snd res = uiop
      /\ unchunked_read file offset (uio_resid uiop) = [])
  \/ (0 < fst (fst res) <= size
      /\ uio_buf (snd res)
         = uio_buf uiop ++ unchunked_read file offset (fst (fst res))
      /\ uio_resid (snd res) = uio_resid uiop - fst (fst res)).
Proof.
  intros Hres size res.
  assert (Hsize : size = Z.min (uio_resid uiop) HGFS_IO_MAX)
    by (apply chunk_size_spec; assumption).
  pose proof (Hfaithful i offset size) as Hf. cbv zeta in Hf.
  destruct Hf as (Hsub & Hact & Hok).
  subst res. unfold HgfsDoRead, HgfsKReq_AllocateRequest.
  destruct (free (pool st)) as [|req fs].
  { left. cbn. unfold ENOMEM. split; [lia | reflexivity]. }
  destruct (rr_submit (server i offset size) =? 0) eqn:Es; cbn [negb fst snd].
  2:{ left. apply Z.eqb_neq in Es. split; [lia | reflexivity]. }
  destruct (rr_status (server i offset size) =? 0) eqn:Et; cbn [negb fst snd].
  2:{ left. split; [|reflexivity].
      destruct (rr_status (server i offset size) =? EPROTO) eqn:Ep; cbn [negb].
      - apply Z.eqb_eq in Ep. rewrite Ep. unfold EPROTO. lia.
      - unfold EACCES. lia. }
  apply Z.eqb_eq in Es, Et.
  destruct (rr_actualSize (server i offset size) <=? size) eqn:Ea; cbn [fst snd].
  2:{ left. unfold EPROTO. split; [lia | reflexivity]. }
  apply Z.leb_le in Ea. destruct (Hok Es Et Ea) as (Hdata & Hzero).
  destruct (rr_actualSize (server i offset size) =? 0) eqn:Ez; cbn [fst snd].
  { apply Z.eqb_eq in Ez. right; left. rewrite Ez.
    split; [reflexivity|]. split; [reflexivity|].
    destruct (Z.eq_dec (uio_resid uiop) 0) as [R0|R0].
    - rewrite R0. apply unchunked_read_zero.
    - apply (unchunked_read_nil file offset size); [lia | auto]. }
  apply Z.eqb_neq in Ez.
  destruct (rr_uiomove (server i offset size) =? 0); cbn [negb fst snd].
  2:{ left. unfold EIO. split; [lia | reflexivity]. }
  right; right.
  rewrite to_int32_small by lia.
  unfold uiomove_to_user. cbn [uio_buf uio_resid].
  replace (Z.min (rr_actualSize (server i offset size)) (uio_resid uiop))
    with (rr_actualSize (server i offset size)) by lia.
  rewrite Hdata. repeat split; lia.
Qed.

(** What a successful run of the loop has delivered. *)
Lemma read_loop_delivers (fuel : nat) :
  forall i st handle offset uiop st' uiop',
    0 <= offset -> 0 <= uio_resid uiop ->
    offset + uio_resid uiop < 2 ^ 64 ->
    read_loop fuel server i st handle offset uiop = Some (0, st', uiop') ->
    uio_buf uiop'
    = uio_buf uiop ++ unchunked_read file offset (uio_resid uiop).
Proof.
  induction fuel as [|fuel IH]; intros i st handle offset uiop st' uiop'
    Hoff Hres Hmax; [discriminate|].
  cbn [read_loop].
  pose proof (HgfsDoRead_faithful i st handle offset uiop Hres) as Hc.
  cbv zeta in Hc.
  assert (Hsize : chunk_size (uio_resid uiop) = Z.min (uio_resid uiop) HGFS_IO_MAX)
    by (apply chunk_size_spec; assumption).
  destruct (HgfsDoRead st handle offset (chunk_size (uio_resid uiop)) uiop
              (server i offset (chunk_size (uio_resid uiop))))
    as [[ret st1] uiop1].
  cbn [fst snd] in Hc.
  destruct Hc as [[Hneg Hu] | [[Hz [Hu Hnil]] | [Hpos [Hbuf Hr]]]].
  - replace (ret =? 0) with false by (symmetry; apply Z.eqb_neq; lia).
    replace (ret <? 0) with true by (symmetry; apply Z.ltb_lt; lia).
    intros H; inversion H; lia.
  - rewrite Hz. cbn [Z.eqb]. intros H; inversion H; subst.
    rewrite Hnil, app_nil_r. reflexivity.
  - replace (ret =? 0) with false by (symmetry; apply Z.eqb_neq; lia).
    replace (ret <? 0) with false by (symmetry; apply Z.ltb_ge; lia).
    destruct (uio_resid uiop1 =? 0) eqn:E0.
    + apply Z.eqb_eq in E0. intros H; inversion H; subst.
      rewrite Hbuf. do 2 f_equal. lia.
    + intros H. apply IH in H.
      * rewrite H, Hbuf, <- app_assoc. f_equal.
        rewrite to_uint64_small by lia. rewrite Hr.
        symmetry. apply unchunked_read_split; lia.
      * rewrite to_uint64_small by lia. lia.
      * lia.
      * rewrite to_uint64_small by lia. lia.
Qed.

(** The loop returns: a chunk that does not end it shortens what is left. *)
Lemma read_loop_returns (fuel : nat) :
  forall i st handle offset uiop,
    0 <= uio_resid uiop ->
    (Z.to_nat (uio_resid uiop) < fuel)%nat ->
    exists res, read_loop fuel server i st handle offset uiop = Some res.
Proof.
  induction fuel as [|fuel IH]; intros i st handle offset uiop Hres Hfuel;
    [lia|].
  cbn [read_loop].
  pose proof (HgfsDoRead_faithful i st handle offset uiop Hres) as Hc.
  cbv zeta in Hc.
  destruct (HgfsDoRead st handle offset (chunk_size (uio_resid uiop)) uiop
              (server i offset (chunk_size (uio_resid uiop))))
    as [[ret st1] uiop1].
  cbn [fst snd] in Hc.
  destruct (ret =? 0) eqn:Ez; [eauto|]. destruct (ret <? 0) eqn:En; [eauto|].
  destruct (uio_resid uiop1 =? 0) eqn:E0; [eauto|].
  apply Z.eqb_neq in Ez. apply Z.ltb_ge in En. apply Z.eqb_neq in E0.
  assert (Hsize : chunk_size (uio_resid uiop) = Z.min (uio_resid uiop) HGFS_IO_MAX)
    by (apply chunk_size_spec; assumption).
  destruct Hc as [[Hneg Hu] | [[Hz [Hu Hnil]] | [Hpos [Hbuf Hr]]]]; try lia.
  apply IH; lia.
Qed.

(** Every request of the loop asks for at most HGFS_IO_MAX bytes. *)
Lemma read_loop_requests (fuel : nat) :
  forall i st handle offset uiop res,
    0 <= uio_resid uiop ->
    read_loop fuel server i st handle offset uiop = Some res ->
    exists evs,
      events (snd (fst res)) = events st ++ evs
      /\ List.Forall (fun e => requested_size e <= HGFS_IO_MAX) evs.
Proof.
  induction fuel as [|fuel IH]; intros i st handle offset uiop res Hres;
    [discriminate|].
  cbn [read_loop].
  assert (Hsize : chunk_size (uio_resid uiop) = Z.min (uio_resid uiop) HGFS_IO_MAX)
    by (apply chunk_size_spec; assumption).
  pose proof (HgfsDoRead_faithful i st handle offset uiop Hres) as Hc.
  cbv zeta in Hc.
  destruct (HgfsDoRead_bounded st handle offset (chunk_size (uio_resid uiop))
              uiop (server i offset (chunk_size (uio_resid uiop))))
    as (evs & data & Hev & Hall & _); [lia|].
  assert (Hall' : List.Forall (fun e => requested_size e <= HGFS_IO_MAX) evs).
  { eapply List.Forall_impl; [|exact Hall]. simpl. intros e [H0|H1]; lia. }
  destruct (HgfsDoRead st handle offset (chunk_size (uio_resid uiop)) uiop
              (server i offset (chunk_size (uio_resid uiop))))
    as [[ret st1] uiop1].
  cbn [fst snd] in Hc, Hev.
  destruct (ret =? 0) eqn:Ez.
  { intros H; inversion H; subst. exists evs. auto. }
  destruct (ret <? 0) eqn:En.
  { intros H; inversion H; subst. exists evs. auto. }
  destruct (uio_resid uiop1 =? 0) eqn:E0.
  { intros H; inversion H; subst. exists evs. auto. }
  apply Z.eqb_neq in Ez. apply Z.ltb_ge in En. apply Z.eqb_neq in E0.
  intros H. apply IH in H.
  - destruct H as (evs2 & Hev2 & Hall2). exists (evs ++ evs2).
    split; [rewrite Hev2, Hev, app_assoc; reflexivity|].
    apply List.Forall_app. auto.
  - destruct Hc as [[Hneg Hu] | [[Hz [Hu Hnil]] | [Hpos [Hbuf Hr]]]]; lia.
Qed.

(** C7.  A read of [uio_resid] bytes at [uio_offset] against a server that
    answers from the content [file], in chunks of whatever size it likes:
    HgfsReadInt returns (its loop needs at most one iteration per byte);
    when it returns 0 the bytes added to the caller's buffer are exactly
    those of one unchunked read of the range; and every request it sent
    asked for at most HGFS_IO_MAX bytes. *)
Theorem chunked_read_is_unchunked_read
    (st : KState) (vp : vnode) (uiop : uio Byte.byte) :
  0 <= uio_offset uiop -> 0 <= uio_resid uiop ->
  uio_offset uiop + uio_resid uiop < 2 ^ 63 ->
  (exists res,
     HgfsReadInt (S (Z.to_nat (uio_resid uiop))) server st vp uiop = Some res)
  /\ (forall fuel st' uiop',
        HgfsReadInt fuel server st vp uiop = Some (0, st', uiop') ->
        uio_buf uiop'
        = uio_buf uiop
          ++ unchunked_read file (uio_offset uiop) (uio_resid uiop))
  /\ (forall fuel res,
        HgfsReadInt fuel server st vp uiop = Some res ->
        exists evs,
          events (snd (fst res)) = events st ++ evs
          /\ List.Forall (fun e => requested_size e <= HGFS_IO_MAX) evs).
Proof.
  intros Hoff Hres Hmax.
  assert (Ho : to_uint64 (uio_offset uiop) = uio_offset uiop)
    by (apply to_uint64_small; lia).
  assert (Hnone : forall r : Z * KState * uio Byte.byte,
            snd (fst r) = st ->
            exists evs, events (snd (fst r)) = events st ++ evs
              /\ List.Forall (fun e => requested_size e <= HGFS_IO_MAX) evs).
  { intros r Hr. exists []. rewrite Hr, app_nil_r. auto. }
  unfold HgfsReadInt. rewrite Ho.
  destruct (v_isdir vp).
  { split; [eauto|]. split.
    - intros fuel st' uiop' H; inversion H.
    - intros fuel res H; inversion H; subst. apply Hnone. reflexivity. }
  replace (uio_offset uiop <? 0) with false by (symmetry; apply Z.ltb_ge; lia).
  destruct (v_handle vp) as [handle|].
  2:{ split; [eauto|]. split.
      - intros fuel st' uiop' H; inversion H.
      - intros fuel res H; inversion H; subst. apply Hnone. reflexivity. }
  split; [|split].
  - apply read_loop_returns; lia.
  - intros fuel st' uiop' H.
    apply (read_loop_delivers fuel 0%nat st handle (uio_offset uiop) uiop st' uiop');
      try assumption; lia.
  - intros fuel res H. eapply read_loop_requests; eassumption.
Qed.

End ReadRefinement.

Lemma firstn_length_firstn {A : Type} (m : nat) (l : list A) :
  List.firstn (List.length (List.firstn m l)) l = List.firstn m l.
Proof.
  rewrite List.length_firstn.
  destruct (Nat.le_ge_cases m (List.length l)) as [H|H].
  - now rewrite Nat.min_l.
  - rewrite Nat.min_r by exact H.
    rewrite List.firstn_all. symmetry. now apply List.firstn_all2.
Qed.

(** The file server is faithful to its file whenever it hands out at least
    one byte at a time. *)
Lemma file_server_faithful (file : list Byte.byte) (k : Z) :
  0 < k -> Hgfs.faithful file (Hgfs.file_server file k).
Proof.
  intros Hk i off sz. unfold Hgfs.file_server. cbn.
  split; [lia|]. split; [lia|]. intros _ _ Hle.
  remember (Hgfs.unchunked_read file off (Z.min sz k)) as X eqn:EX.
  split.
  - rewrite Nat2Z.id, List.firstn_all. unfold Hgfs.unchunked_read.
    rewrite Nat2Z.id. subst X. unfold Hgfs.unchunked_read.
    symmetry. apply firstn_length_firstn.
  - intros Hz. destruct X as [|x0 X]; [|discriminate].
    unfold Hgfs.unchunked_read in *.
    destruct (List.skipn (Z.to_nat off) file) as [|x l].
    + apply List.firstn_nil.
    + destruct (Z.to_nat (Z.min sz k)) eqn:Em; [|discriminate].
      replace (Z.to_nat sz) with 0%nat by lia. reflexivity.
Qed.

Lemma chunked_read_is_unchunked_read_witness :
  exists st' u',
    Hgfs.HgfsReadInt (P := Hgfs.sample_params) 10
      (Hgfs.file_server Hgfs.ten_bytes 3) Hgfs.two_buffers Hgfs.open_file
      (Hgfs.read_uio 1 9)
    = Some (0, st', u')
    /\ Hgfs.uio_buf u' = String.list_byte_of_string "123456789".
Proof.
  assert (Hio : 0 < Hgfs.HGFS_IO_MAX (Params := Hgfs.sample_params) < 2 ^ 31)
    by (cbn; lia).
  destruct (chunked_read_is_unchunked_read (P := Hgfs.sample_params)
              Hgfs.ten_bytes (Hgfs.file_server Hgfs.ten_bytes 3) Hio
              (file_server_faithful Hgfs.ten_bytes 3 ltac:(lia))
              Hgfs.two_buffers Hgfs.open_file (Hgfs.read_uio 1 9)
              ltac:(cbn; lia) ltac:(cbn; lia) ltac:(cbn; lia))
    as (_ & Hdel & _).
  assert (Hrun : exists st' u',
            Hgfs.HgfsReadInt (P := Hgfs.sample_params) 10
              (Hgfs.file_server Hgfs.ten_bytes 3) Hgfs.two_buffers
              Hgfs.open_file (Hgfs.read_uio 1 9) = Some (0, st', u'))
    by (vm_compute; eauto).
  destruct Hrun as (st' & u' & Hr).
  exists st', u'. split; [exact Hr|].
  rewrite (Hdel 10%nat st' u' Hr). reflexivity.
Defined.

(** ** HGFS: readdir *)

Section ReaddirProperties.
Import Hgfs.
Context {P : Params}.

(** HgfsGetNextDirEntry when a whole reply came back with success status:
    the request is released, the pool is as before, and the result depends
    on the length of the name alone. *)
Lemma HgfsGetNextDirEntry_replied st handle offset nameSize env req fs :
  free (pool st) = req :: fs ->
  dr_submit env = 0 -> dr_status env = 0 ->
  repSize_searchRead <= dr_payloadSize env ->
  exists st',
    HgfsGetNextDirEntry st handle offset nameSize env
    = (if dr_nameLength env <=? 0 then mkNextEntry 0 None None true
       else if (nameSize <=? dr_nameLength env)
               || (HGFS_PAYLOAD_MAX repSize_searchRead <? dr_nameLength env)
            then mkNextEntry EOVERFLOW None None false
            else mkNextEntry 0
                   (Some (List.firstn (Z.to_nat (dr_nameLength env))
                                      (dr_name env)))
                   (Some (dr_type env)) false,
       st')
    /\ pool st' = pool st
    /\ events st'
       = events st ++ [EvAlloc req;
                       EvSubmit req (OP_SEARCH_READ_V3 handle offset) 0;
                       EvRelease req].
Proof.
  intros Hfree Hsub Hsta Hsize. destruct st as [[fr iu mi] ev].
  simpl in Hfree. subst fr.
  unfold HgfsGetNextDirEntry, HgfsKReq_AllocateRequest.
  cbn [pool free inuse misuse events].
  rewrite Hsub, Hsta. cbn [Z.eqb negb].
  replace (dr_payloadSize env <? repSize_searchRead) with false
    by (symmetry; apply Z.ltb_ge; lia).
  unfold HgfsKReq_ReleaseRequest, HgfsSubmitRequest. cbn [pool events Z.eqb].
  rewrite pool_put_after_alloc, <- !app_assoc. cbn [app].
  destruct (dr_nameLength env <=? 0);
    [eexists; split; [reflexivity | split; reflexivity]|].
  destruct ((nameSize <=? dr_nameLength env)
            || (HGFS_PAYLOAD_MAX repSize_searchRead <? dr_nameLength env));
    eexists; (split; [reflexivity | split; reflexivity]).
Qed.

(** C8.  In any iteration of the readdir loop, whatever has been copied so
    far: when the SEARCH_READ request is answered with success by a whole
    reply whose file name has length zero, HgfsGetNextDirEntry sets [done],
    writes no name and returns 0; HgfsReaddirInt then returns 0 with the
    caller's end-of-file flag (when one was passed) set to TRUE; that
    request is the last one (whatever iterations remain, nothing more is
    sent), and the entries in the caller's buffer and the space left in it
    are untouched. *)
Theorem readdir_ends_at_zero_length_name
    (fuel : nat) (env : ReaddirEnv) (i : nat) (st : KState)
    (handle : HgfsHandle) (offset : Z) (done : bool) (uiop : uio dirent)
    (eofp : option bool) (req : HgfsKReqHandle) (fs : list HgfsKReqHandle) :
  free (pool st) = req :: fs ->
  dr_submit (rd_server env i (to_uint32 offset)) = 0 ->
  dr_status (rd_server env i (to_uint32 offset)) = 0 ->
  repSize_searchRead <= dr_payloadSize (rd_server env i (to_uint32 offset)) ->
  dr_nameLength (rd_server env i (to_uint32 offset)) = 0 ->
  exists st' uiop',
    HgfsGetNextDirEntry st handle (to_uint32 offset) sizeof_d_name
                        (rd_server env i (to_uint32 offset))
    = (mkNextEntry 0 None None true, st')
    /\ readdir_loop (S fuel) env i st handle offset done uiop eofp
       = Some (mkReaddirEnd 0 uiop'
                 (match eofp with Some _ => Some true | None => None end) st')
    /\ uio_buf uiop' = uio_buf uiop
    /\ uio_resid uiop' = uio_resid uiop
    /\ events st'
       = events st
         ++ [EvAlloc req;
             EvSubmit req (OP_SEARCH_READ_V3 handle (to_uint32 offset)) 0;
             EvRelease req]
    /\ pool st' = pool st.
Proof.
  intros Hfree Hsub Hsta Hsize Hlen.
  destruct (HgfsGetNextDirEntry_replied st handle (to_uint32 offset)
              sizeof_d_name _ req fs Hfree Hsub Hsta Hsize)
    as (st' & E & Hp & Hev).
  rewrite Hlen in E. cbn [Z.leb Z.compare] in E.
  exists st', (set_offset uiop offset).
  split; [exact E|]. split; [|repeat split; assumption].
  cbn [readdir_loop]. rewrite E. cbn [ne_ret ne_done].
  rewrite Bool.orb_true_r. reflexivity.
Qed.

(** One iteration of the readdir loop on an entry whose name does not fit
    the name buffer (or the reply), or whose name the decoder rejects: the
    loop goes on with the next offset, the caller's buffer and end-of-file
    flag as they were, and the request buffer back in the pool. *)
Lemma readdir_loop_skip_step
    (fuel : nat) (env : ReaddirEnv) (i : nat) (st : KState)
    (handle : HgfsHandle) (offset : Z) (uiop : uio dirent)
    (eofp : option bool) (req : HgfsKReqHandle) (fs : list HgfsKReqHandle) :
  free (pool st) = req :: fs ->
  dr_submit (rd_server env i (to_uint32 offset)) = 0 ->
  dr_status (rd_server env i (to_uint32 offset)) = 0 ->
  repSize_searchRead <= dr_payloadSize (rd_server env i (to_uint32 offset)) ->
  0 < dr_nameLength (rd_server env i (to_uint32 offset)) ->
  (sizeof_d_name <= dr_nameLength (rd_server env i (to_uint32 offset))
   \/ HGFS_PAYLOAD_MAX repSize_searchRead
      < dr_nameLength (rd_server env i (to_uint32 offset)))
  \/ fst (HgfsNameFromWireEncoding env
            (List.firstn
               (Z.to_nat (dr_nameLength (rd_server env i (to_uint32 offset))))
               (dr_name (rd_server env i (to_uint32 offset))))) < 0 ->
  exists ne st',
    HgfsGetNextDirEntry st handle (to_uint32 offset) sizeof_d_name
                        (rd_server env i (to_uint32 offset)) = (ne, st')
    /\ pool st' = pool st
    /\ readdir_loop (S fuel) env i st handle offset false uiop eofp
       = readdir_loop fuel env (S i) st' handle (to_uint64 (offset + 1))
                      false uiop eofp
    /\ (sizeof_d_name <= dr_nameLength (rd_server env i (to_uint32 offset))
        \/ HGFS_PAYLOAD_MAX repSize_searchRead
           < dr_nameLength (rd_server env i (to_uint32 offset)) ->
        ne_ret ne = EOVERFLOW /\ ne_name ne = None).
Proof.
  intros Hfree Hsub Hsta Hsize Hpos Hbad.
  destruct (HgfsGetNextDirEntry_replied st handle (to_uint32 offset)
              sizeof_d_name _ req fs Hfree Hsub Hsta Hsize)
    as (st' & E & Hp & Hev).
  replace (dr_nameLength (rd_server env i (to_uint32 offset)) <=? 0)
    with false in E by (symmetry; apply Z.leb_gt; lia).
  destruct ((sizeof_d_name <=? dr_nameLength (rd_server env i (to_uint32 offset)))
            || (HGFS_PAYLOAD_MAX repSize_searchRead
                <? dr_nameLength (rd_server env i (to_uint32 offset))))
    eqn:Elong.
  - do 2 eexists. split; [exact E|]. split; [exact Hp|]. split.
    + cbn [readdir_loop]. rewrite E. reflexivity.
    + intros _. split; reflexivity.
  - apply Bool.orb_false_iff in Elong. destruct Elong as [L1 L2].
    apply Z.leb_gt in L1. apply Z.ltb_ge in L2.
    destruct Hbad as [[Hl|Hl]|Hdec]; try lia.
    do 2 eexists. split; [exact E|]. split; [exact Hp|]. split.
    + cbn [readdir_loop]. rewrite E. cbn [ne_ret ne_done ne_name orb].
      destruct (HgfsNameFromWireEncoding env _) as [ret name].
      cbn [fst] in Hdec.
      replace (ret <? 0) with true by (symmetry; apply Z.ltb_lt; lia).
      reflexivity.
    + intros [Hl|Hl]; lia.
Qed.

Lemma count_ev_app (p : KEvent -> bool) (a b : list KEvent) :
  count_ev p (a ++ b) = (count_ev p a + count_ev p b)%nat.
Proof. unfold count_ev. now rewrite List.filter_app, List.length_app. Qed.

(** The readdir loop over a directory of [n] entries followed by its end
    marker, with room in the caller's buffer for all the entries listed. *)
Lemma readdir_loop_listing (env : ReaddirEnv) (dir : Z -> DirReply) (n : nat) :
  (forall j off, rd_server env j off = dir off) ->
  (forall j, rd_uiomove env j = 0) ->
  (forall name len, 0 <= len -> 0 <= fst (HgfsMakeFullName env name len)) ->
  0 <= sizeof_dirent ->
  forall i ev r fs iu mi handle offset uiop eofp,
    0 <= offset -> offset + Z.of_nat n < 2 ^ 32 ->
    (forall o, offset <= o < offset + Z.of_nat n ->
       whole_reply (dir o) /\ 0 < dr_nameLength (dir o)) ->
    whole_reply (dir (offset + Z.of_nat n)) ->
    dr_nameLength (dir (offset + Z.of_nat n)) <= 0 ->
    sizeof_dirent * Z.of_nat (List.length (listing env dir offset n))
      <= uio_resid uiop ->
    exists evs,
      readdir_loop (S n) env i (mkKState (mkPool (r :: fs) iu mi) ev) handle
                   offset false uiop eofp
      = Some (mkReaddirEnd 0
                (mkUio (offset + Z.of_nat n)
                       (uio_resid uiop
                        - sizeof_dirent
                          * Z.of_nat (List.length (listing env dir offset n)))
                       (uio_buf uiop ++ listing env dir offset n))
                (match eofp with Some _ => Some true | None => None end)
                (mkKState (mkPool (r :: fs) iu mi) (ev ++ evs)))
      /\ count_ev is_submit evs = S n.
Proof.
  intros Hsrv Hmove Hfull Hsd.
  induction n as [|n IH];
    intros i ev r fs iu mi handle offset uiop eofp Hoff Hmax Hent Hend Hlast Hroom.
  - cbn [readdir_loop]. rewrite to_uint32_small by lia. rewrite Hsrv.
    replace (offset + Z.of_nat 0) with offset in * by lia.
    destruct Hend as (Hsub & Hsta & Hsize).
    destruct (HgfsGetNextDirEntry_replied
                (mkKState (mkPool (r :: fs) iu mi) ev) handle offset
                sizeof_d_name (dir offset) r fs eq_refl Hsub Hsta Hsize)
      as ([p' ev'] & E & Hp & Hev).
    cbn [pool events] in Hp, Hev. subst p' ev'.
    rewrite E.
    replace (dr_nameLength (dir offset) <=? 0) with true
      by (symmetry; apply Z.leb_le; lia).
    cbn [ne_ret ne_done orb negb set_offset listing List.length].
    change (0 =? EOVERFLOW) with false. cbn [Z.eqb negb].
    exists [EvAlloc r; EvSubmit r (OP_SEARCH_READ_V3 handle offset) 0;
            EvRelease r].
    split; [|reflexivity].
    change (Z.of_nat 0) with 0. rewrite app_nil_r, Z.mul_0_r, Z.sub_0_r.
    reflexivity.
  - remember (S n) as m eqn:Em. cbn [readdir_loop]. subst m.
    rewrite to_uint32_small by lia. rewrite Hsrv.
    destruct (Hent offset ltac:(lia)) as ((Hsub & Hsta & Hsize) & Hpos).
    destruct (HgfsGetNextDirEntry_replied
                (mkKState (mkPool (r :: fs) iu mi) ev) handle offset
                sizeof_d_name (dir offset) r fs eq_refl Hsub Hsta Hsize)
      as ([p' ev'] & E & Hp & Hev).
    cbn [pool events] in Hp, Hev. subst p' ev'.
    rewrite E.
    replace (dr_nameLength (dir offset) <=? 0) with false
      by (symmetry; apply Z.leb_gt; lia).
    rewrite to_uint64_small by lia.
    assert (Hent' : forall o, offset + 1 <= o < offset + 1 + Z.of_nat n ->
                      whole_reply (dir o) /\ 0 < dr_nameLength (dir o))
      by (intros o Ho; apply Hent; lia).
    assert (Hnext : offset + 1 + Z.of_nat n = offset + Z.of_nat (S n)) by lia.
    assert (Hend' : whole_reply (dir (offset + 1 + Z.of_nat n)))
      by (rewrite Hnext; exact Hend).
    assert (Hlast' : dr_nameLength (dir (offset + 1 + Z.of_nat n)) <= 0)
      by (rewrite Hnext; exact Hlast).
    assert (Hskip : listed env (dir offset) = None ->
              forall d,
              readdir_loop (S n) env (S i)
                (mkKState (mkPool (r :: fs) iu mi)
                   (ev ++ [EvAlloc r;
                           EvSubmit r (OP_SEARCH_READ_V3 handle offset) 0;
                           EvRelease r]))
                handle (offset + 1) false uiop eofp = d ->
              exists evs,
                d = Some (mkReaddirEnd 0
                       (mkUio (offset + Z.of_nat (S n))
                          (uio_resid uiop
                           - sizeof_dirent
                             * Z.of_nat
                                 (List.length (listing env dir offset (S n))))
                          (uio_buf uiop ++ listing env dir offset (S n)))
                       (match eofp with Some _ => Some true | None => None end)
                       (mkKState (mkPool (r :: fs) iu mi) (ev ++ evs)))
                /\ count_ev is_submit evs = S (S n)).
    { intros Hnone d Hd. cbn [listing] in Hroom |- *. rewrite Hnone in Hroom |- *.
      destruct (IH (S i)
                  (ev ++ [EvAlloc r;
                          EvSubmit r (OP_SEARCH_READ_V3 handle offset) 0;
                          EvRelease r])
                  r fs iu mi handle (offset + 1) uiop eofp
                  ltac:(lia) ltac:(lia) Hent' Hend' Hlast' Hroom)
        as (evs & Hrun & Hcnt).
      rewrite Hrun in Hd. subst d.
      exists ([EvAlloc r; EvSubmit r (OP_SEARCH_READ_V3 handle offset) 0;
               EvRelease r] ++ evs).
      split.
      - rewrite Hnext, app_assoc. reflexivity.
      - rewrite count_ev_app, Hcnt. reflexivity. }
    unfold listed in Hskip. unfold listed, too_long, undecodable, wire_name in *.
    destruct ((sizeof_d_name <=? dr_nameLength (dir offset))
              || (HGFS_PAYLOAD_MAX repSize_searchRead
                  <? dr_nameLength (dir offset))) eqn:Elong.
    { cbn [ne_ret]. change (EOVERFLOW =? EOVERFLOW) with true. cbv iota.
      cbn [ne_done orb]. apply (Hskip eq_refl). reflexivity. }
    cbn [ne_ret ne_done ne_name ne_type orb negb].
    change (0 =? EOVERFLOW) with false. cbn [Z.eqb negb]. cbv iota.
    cbn [orb] in Hskip.
    destruct (HgfsNameFromWireEncoding env
                (List.firstn (Z.to_nat (dr_nameLength (dir offset)))
                             (dr_name (dir offset)))) as [ret name] eqn:Edec.
    cbn [fst] in *.
    destruct (ret <? 0) eqn:Eneg.
    { apply (Hskip eq_refl). reflexivity. }
    apply Z.ltb_ge in Eneg.
    pose proof (Hfull name ret Eneg) as Hf.
    cbn [listing] in Hroom |- *.
    unfold listed, too_long, undecodable, wire_name in Hroom |- *.
    rewrite Elong, Edec in Hroom |- *. cbn [fst orb] in Hroom |- *.
    replace (ret <? 0) with false in Hroom |- *
      by (symmetry; apply Z.ltb_ge; lia).
    destruct (HgfsMakeFullName env name ret) as [ret' fullName] eqn:Efull.
    cbn [fst] in Hf. cbn [List.length] in Hroom.
    replace (uio_resid uiop <? sizeof_dirent) with false
      by (symmetry; apply Z.ltb_ge; nia).
    replace (ret' <? 0) with false by (symmetry; apply Z.ltb_ge; lia).
    rewrite Hmove. cbn [Z.eqb negb].
    set (dirp := mkDirent (HgfsNodeIdGet env fullName (to_uint32 ret'))
                          sizeof_dirent (dtype_of (dr_type (dir offset)))
                          ret name) in *.
    destruct (IH (S i)
                (ev ++ [EvAlloc r;
                        EvSubmit r (OP_SEARCH_READ_V3 handle offset) 0;
                        EvRelease r])
                r fs iu mi handle (offset + 1) (uiomove_dirent dirp uiop) eofp
                ltac:(lia) ltac:(lia) Hent' Hend' Hlast')
      as (evs & Hrun & Hcnt).
    { unfold uiomove_dirent. cbn [uio_resid d_reclen dirp]. nia. }
    rewrite Hrun.
    exists ([EvAlloc r; EvSubmit r (OP_SEARCH_READ_V3 handle offset) 0;
             EvRelease r] ++ evs).
    split.
    + unfold uiomove_dirent. cbn [uio_resid uio_buf d_reclen dirp].
      rewrite Hnext, <- !app_assoc. cbn [app].
      replace (Z.min sizeof_dirent (uio_resid uiop)) with sizeof_dirent by nia.
      do 3 f_equal. cbn [List.length]. rewrite Nat2Z.inj_succ, Z.mul_succ_r.
      lia.
    + rewrite count_ev_app, Hcnt. reflexivity.
Qed.

(** C10.  A directory of [n] entries followed by its end marker is listed
    to the end whatever names it holds: HgfsReaddirInt returns 0 after
    one request per entry and one for the end marker, with the end-of-file
    flag set and the offset past the last entry; the caller's buffer has
    received, in order, exactly the entries whose names fit and decode.
    An entry whose name is too long for the name buffer (EOVERFLOW from
    HgfsGetNextDirEntry) or is rejected by the decoder leaves no trace in
    the buffer, not even a truncated name, does not end the listing and
    does not make it fail: the entries after it are still delivered. *)
Theorem readdir_skips_unusable_names
    (env : ReaddirEnv) (dir : Z -> DirReply) (n : nat) (st : KState)
    (vp : vnode) (uiop : uio dirent) (eofp : option bool)
    (handle : HgfsHandle) :
  (forall j off, rd_server env j off = dir off) ->
  (forall j, rd_uiomove env j = 0) ->
  (forall name len, 0 <= len -> 0 <= fst (HgfsMakeFullName env name len)) ->
  rd_malloc env = true -> v_handle vp = Some handle ->
  free (pool st) <> [] ->
  0 <= sizeof_dirent ->
  0 <= uio_offset uiop -> uio_offset uiop + Z.of_nat n < 2 ^ 32 ->
  (forall o, uio_offset uiop <= o < uio_offset uiop + Z.of_nat n ->
     whole_reply (dir o) /\ 0 < dr_nameLength (dir o)) ->
  whole_reply (dir (uio_offset uiop + Z.of_nat n)) ->
  dr_nameLength (dir (uio_offset uiop + Z.of_nat n)) <= 0 ->
  sizeof_dirent
    * Z.of_nat (List.length (listing env dir (uio_offset uiop) n))
    <= uio_resid uiop ->
  (exists st' evs,
     HgfsReaddirInt (S n) env st vp uiop eofp
     = Some (mkReaddirEnd 0
               (mkUio (uio_offset uiop + Z.of_nat n)
                      (uio_resid uiop
                       - sizeof_dirent
                         * Z.of_nat
                             (List.length
                                (listing env dir (uio_offset uiop) n)))
                      (uio_buf uiop ++ listing env dir (uio_offset uiop) n))
               (match eofp with Some _ => Some true | None => None end)
               st')
     /\ pool st' = pool st
     /\ events st' = events st ++ evs
     /\ count_ev is_submit evs = S n)
  /\ (forall o,
        too_long (dir o) = true \/ undecodable env (dir o) = true ->
        listed env (dir o) = None
        /\ forall k, listing env dir o (S k) = listing env dir (o + 1) k).
Proof.
  intros Hsrv Hmove Hfull Hmalloc Hh Hfree Hsd Hoff Hmax Hent Hend Hlast Hroom.
  split.
  - unfold HgfsReaddirInt.
    replace (uio_offset uiop <? 0) with false by (symmetry; apply Z.ltb_ge; lia).
    rewrite Hh, Hmalloc. cbn [negb]. rewrite to_uint64_small by lia.
    destruct st as [[fr iu mi] ev]. cbn [pool free events] in *.
    destruct fr as [|r fs]; [congruence|].
    destruct (readdir_loop_listing env dir n Hsrv Hmove Hfull Hsd 0%nat ev r fs
                iu mi handle (uio_offset uiop) uiop eofp Hoff Hmax Hent Hend
                Hlast Hroom) as (evs & Hrun & Hcnt).
    rewrite Hrun. do 2 eexists. split; [reflexivity|].
    cbn [pool events]. auto.
  - intros o Hbad.
    assert (Hnone : listed env (dir o) = None).
    { unfold listed. destruct Hbad as [-> | ->]; [reflexivity|].
      rewrite Bool.orb_true_r. reflexivity. }
    split; [exact Hnone|]. intros k. cbn [listing]. rewrite Hnone. reflexivity.
Qed.

End ReaddirProperties.

Lemma readdir_ends_at_zero_length_name_witness :
  exists st' uiop',
    Hgfs.readdir_loop (P := Hgfs.sample_params) 1 Hgfs.sample_dir 2
      Hgfs.two_buffers 9 2 false (Hgfs.dir_uio 0 1000) (Some false)
    = Some (Hgfs.mkReaddirEnd 0 uiop' (Some true) st')
    /\ Hgfs.uio_buf uiop' = [].
Proof.
  destruct (readdir_ends_at_zero_length_name (P := Hgfs.sample_params)
              0 Hgfs.sample_dir 2 Hgfs.two_buffers 9 2 false
              (Hgfs.dir_uio 0 1000) (Some false) 0%nat [1%nat]
              eq_refl eq_refl eq_refl ltac:(cbn; lia) eq_refl)
    as (st' & uiop' & _ & E & Hb & _).
  exists st', uiop'. split; [exact E | exact Hb].
Defined.

Lemma readdir_skips_unusable_names_witness :
  exists st',
    Hgfs.HgfsReaddirInt (P := Hgfs.sample_params) 3 Hgfs.sample_dir
      Hgfs.two_buffers Hgfs.open_dir (Hgfs.dir_uio 0 1000) (Some false)
    = Some (Hgfs.mkReaddirEnd 0
              (Hgfs.mkUio 2 736
                 [Hgfs.mkDirent 42 264 Hgfs.DT_REG 1
                                (String.list_byte_of_string "a")])
              (Some true) st')
    /\ Hgfs.too_long (P := Hgfs.sample_params) Hgfs.long_name_reply = true.
Proof.
  destruct (readdir_skips_unusable_names (P := Hgfs.sample_params)
              Hgfs.sample_dir (Hgfs.rd_server Hgfs.sample_dir 0%nat) 2
              Hgfs.two_buffers Hgfs.open_dir (Hgfs.dir_uio 0 1000) (Some false) 9)
    as [(st' & evs & Hrun & _) _].
  - intros j off. reflexivity.
  - intros j. reflexivity.
  - intros name len Hlen. cbn. lia.
  - reflexivity.
  - reflexivity.
  - discriminate.
  - cbn. lia.
  - cbn. lia.
  - cbn. lia.
  - intros o Ho. cbn in Ho.
    assert (Hcases : o = 0 \/ o = 1) by lia.
    destruct Hcases as [-> | ->]; unfold Hgfs.whole_reply; cbn; lia.
  - unfold Hgfs.whole_reply. cbn. lia.
  - cbn. lia.
  - vm_compute. discriminate.
  - exists st'. split; [exact Hrun | reflexivity].
Defined.

(** The whole listing of the sample directory: the entry "a" is copied,
    the over-long name is skipped, and the zero-length name ends the listing
    with the end-of-file flag set and the offset at 2. *)
Example HgfsReaddirInt_sample_listing :
  exists st',
    Hgfs.HgfsReaddirInt (P := Hgfs.sample_params) 5 Hgfs.sample_dir
      Hgfs.two_buffers Hgfs.open_dir (Hgfs.dir_uio 0 1000) (Some false)
    = Some (Hgfs.mkReaddirEnd 0
              (Hgfs.mkUio 2 736
                 [Hgfs.mkDirent 42 264 Hgfs.DT_REG 1
                                (String.list_byte_of_string "a")])
              (Some true) st').
Proof. eexists. vm_compute. reflexivity. Qed.

(** The step-down branch of the negotiation loop takes the number the host
    names as it is.  It is not reached when the client's version is 3; from
    a version other than 2 and 3, a host that fails every request and names
    that same version again keeps the loop going for any number of
    iterations. *)
Lemma negotiate_repeated_version_spins
    {P : GuestLib.Params} (host : GuestLib.Host) (txt : string) (hv : Z)
    (h : GuestLib.VMGuestLibHandleType) :
  hv <> 2 -> hv <> 3 -> 0 <= hv < 2 ^ 32 ->
  (forall j v, host j v = GuestLib.failure_reply txt) ->
  GuestLib.is_unknown_command txt = false ->
  GuestLib.StrUtil_GetNextUintToken txt = Some hv ->
  forall fuel i, GuestLib.negotiate fuel host i hv h = None.
Proof.
  intros H2 H3 Hr Hhost Hunk Hparse fuel.
  induction fuel as [|fuel IH]; intros i; [reflexivity|].
  cbn [GuestLib.negotiate]. rewrite Hhost. cbn.
  replace (hv =? 2) with false by (symmetry; apply Z.eqb_neq; exact H2).
  replace (hv =? 3) with false by (symmetry; apply Z.eqb_neq; exact H3).
  rewrite Hunk, Hparse. rewrite to_uint32_small by exact Hr. apply IH.
Qed.

(* ====================================================================== *)
(** * Further properties of the backdoor channel *)
(* ====================================================================== *)

Section BdoorLifecycle.
Import Bdoor.
Context {L : RpcLib}.

Lemma RpcInStopChannel_shape (bdoor b1 : BackdoorChannel) destroy c1 :
  RpcInStopChannel bdoor destroy = Some (b1, c1) ->
  inStarted b1 = false /\ outStarted b1 = false
  /\ (destroy = true -> in_ b1 = None /\ out b1 = None)
  /\ (destroy = false ->
      (in_ bdoor = None <-> in_ b1 = None)
      /\ (out bdoor = None <-> out b1 = None))
  /\ count_calls is_out_stop c1 = (if outStarted bdoor then 1%nat else 0%nat)
  /\ count_calls is_in_stop c1 = (if inStarted bdoor then 1%nat else 0%nat).
Proof.
  destruct bdoor as [bi bo si so]. unfold RpcInStopChannel, stop_out, stop_in.
  cbn [in_ out inStarted outStarted].
  destruct bo as [o|], so, destroy; cbn; try discriminate;
    destruct bi as [i|], si; cbn; try discriminate;
    intros H; inversion H; subst; cbn;
    repeat split; try reflexivity; try discriminate; auto.
Qed.

(** X1.  A channel that is not started refuses to send: on a channel fresh
    from RpcChannel_NewBackdoorChannel, and on any channel after a stop or
    a shutdown, RpcInSend returns FALSE, writes neither [*result] nor
    [*resultLen], calls nothing in the RpcOut library and leaves the
    channel as it is. *)
Theorem stopped_channel_refuses_send
    (bdoor b1 : BackdoorChannel) (destroy : bool) (c1 : list Call)
    (data : string) (hr hl : bool) :
  RpcInStopChannel bdoor destroy = Some (b1, c1) ->
  RpcInSend b1 data hr hl = Some (b1, mkSendOut false None None, [])
  /\ forall i o,
       RpcInSend (RpcChannel_NewBackdoorChannel i o) data hr hl
       = Some (RpcChannel_NewBackdoorChannel i o, mkSendOut false None None, []).
Proof.
  intros H. destruct (RpcInStopChannel_shape _ _ _ _ H) as (_ & Ho & _).
  split.
  - unfold RpcInSend. rewrite Ho. reflexivity.
  - intros i o. reflexivity.
Qed.

(** X2.  "It's safe to call this function more than once": the first stop
    calls RpcOut_stop once if the out direction was marked started and
    RpcIn_stop once if the in direction was; a further stop of the same
    kind changes nothing and calls nothing, and no later stop of either
    kind calls RpcOut_stop or RpcIn_stop again. *)
Theorem RpcInStopChannel_idempotent
    (bdoor b1 : BackdoorChannel) (destroy : bool) (c1 : list Call) :
  RpcInStopChannel bdoor destroy = Some (b1, c1) ->
  count_calls is_out_stop c1 = (if outStarted bdoor then 1%nat else 0%nat)
  /\ count_calls is_in_stop c1 = (if inStarted bdoor then 1%nat else 0%nat)
  /\ RpcInStopChannel b1 destroy = Some (b1, [])
  /\ forall d2, exists b2 c2,
       RpcInStopChannel b1 d2 = Some (b2, c2)
       /\ count_calls is_out_stop c2 = 0%nat
       /\ count_calls is_in_stop c2 = 0%nat.
Proof.
  intros H. pose proof (RpcInStopChannel_shape _ _ _ _ H)
    as (Hi & Ho & Hd & Hk & C1 & C2).
  split; [exact C1|]. split; [exact C2|]. split.
  - destruct b1 as [bi bo si so]. cbn in Hi, Ho. subst si so.
    destruct destroy.
    + destruct (Hd eq_refl) as [A B]. cbn in A, B. subst bi bo. reflexivity.
    + unfold RpcInStopChannel, stop_out, stop_in. cbn.
      destruct bo as [o|]; cbn; destruct bi as [i|]; reflexivity.
  - intros d2.
    destruct (RpcInStopChannel_clears b1 d2 (cleared_stoppable b1 Hi Ho))
      as (b2 & c2 & E & _).
    exists b2, c2. split; [exact E|].
    destruct (RpcInStopChannel_shape _ _ _ _ E) as (_ & _ & _ & _ & D1 & D2).
    rewrite Ho in D1. rewrite Hi in D2. auto.
Qed.

(** X3.  The life of a channel.  A new channel can be started; after a stop
    (without destroy) both library objects are still there and the channel
    can be started again; after a shutdown both objects are gone and both
    flags are clear. *)
Theorem channel_stop_keeps_objects_shutdown_destroys (i : RpcIn) (o : RpcOut) :
  exists c1 ret calls,
    RpcInStart (RpcChannel_NewBackdoorChannel i o) = Some (c1, ret, calls)
    /\ (exists c2 calls2,
          RpcInStop c1 = Some (c2, calls2)
          /\ in_ c2 <> None /\ out c2 <> None
          /\ exists r, RpcInStart c2 = Some r)
    /\ (exists c3 calls3,
          RpcInShutdown c1 = Some (c3, calls3)
          /\ in_ c3 = None /\ out c3 = None
          /\ inStarted c3 = false /\ outStarted c3 = false).
Proof.
  destruct (RpcInStart_result (RpcChannel_NewBackdoorChannel i o) i o
              eq_refl eq_refl eq_refl eq_refl)
    as (c1 & ret & calls & E & Si & So & Ni & No & _).
  exists c1, ret, calls. split; [exact E|].
  assert (Hs : stoppable c1) by (split; intros N; contradiction).
  split.
  - destruct (RpcInStopChannel_clears c1 false Hs) as (c2 & calls2 & E2 & Fi & Fo).
    exists c2, calls2. split; [exact E2|].
    destruct (RpcInStopChannel_shape _ _ _ _ E2) as (_ & _ & _ & Hk & _).
    destruct (Hk eq_refl) as [Ki Ko].
    assert (Ni2 : in_ c2 <> None) by (intros N; apply Ni, Ki, N).
    assert (No2 : out c2 <> None) by (intros N; apply No, Ko, N).
    split; [exact Ni2|]. split; [exact No2|].
    destruct (in_ c2) as [i2|] eqn:Ei; [|contradiction].
    destruct (out c2) as [o2|] eqn:Eo; [|contradiction].
    destruct (RpcInStart_result c2 i2 o2 Ei Eo Fi Fo) as (c & r & cs & Es & _).
    eauto.
  - destruct (RpcInStopChannel_clears c1 true Hs) as (c3 & calls3 & E3 & Fi & Fo).
    exists c3, calls3. split; [exact E3|].
    destruct (RpcInStopChannel_shape _ _ _ _ E3) as (_ & _ & Hd & _).
    destruct (Hd eq_refl). auto.
Qed.

(** X4.  No restart without the signature.  When the one send succeeds, or
    fails with a NULL reply, with a reply of at most [sizeof "RpcOut: "]
    bytes, or with a reply that does not start with "RpcOut: ", RpcInSend
    makes that single library call and hands its outcome to the caller:
    the return value, a copy of [replyLen] bytes of the reply (NULL for a
    NULL reply) and the length. *)
Theorem RpcInSend_passes_single_send_through
    (bdoor : BackdoorChannel) (data : string) (hr hl : bool)
    (o o1 : RpcOut) (r1 : SendReply) :
  outStarted bdoor = true -> out bdoor = Some o ->
  RpcOut_send o data = (o1, r1) ->
  (sr_ret r1 = true
   \/ sr_reply r1 = None
   \/ sr_replyLen r1 <= sizeof_lit "RpcOut: "
   \/ exists txt, sr_reply r1 = Some txt /\ String.prefix "RpcOut: " txt = false) ->
  exists bdoor',
    RpcInSend bdoor data hr hl
    = Some (bdoor',
            mkSendOut (sr_ret r1)
              (if hr then Some (copy_reply (sr_reply r1) (sr_replyLen r1))
               else None)
              (if hl then Some (sr_replyLen r1) else None),
            [CallOutSend data])
    /\ outStarted bdoor' = true /\ inStarted bdoor' = inStarted bdoor.
Proof.
  intros Hs Ho Hsend Hcase.
  assert (Hd : desync_reply r1 = false).
  { unfold desync_reply. destruct Hcase as [H|[H|[H|(txt & H & Hp)]]].
    - rewrite H. reflexivity.
    - rewrite H. apply Bool.andb_false_r.
    - destruct (sr_reply r1); [|apply Bool.andb_false_r].
      replace (sizeof_lit "RpcOut: " <? sr_replyLen r1) with false
        by (symmetry; apply Z.ltb_ge; exact H).
      apply Bool.andb_false_r.
    - rewrite H, Hp. rewrite Bool.andb_false_r. apply Bool.andb_false_r. }
  unfold RpcInSend, finish_send. rewrite Hs, Ho. cbn [negb obind].
  rewrite Hsend, Hd. eexists. split; [reflexivity|]. split; reflexivity.
Qed.

End BdoorLifecycle.

Lemma stopped_channel_refuses_send_witness :
  exists b1 c1,
    Bdoor.RpcInStopChannel (Bdoor.desync_channel true) false = Some (b1, c1)
    /\ Bdoor.RpcInSend b1 "tools.set.version 1" true true
       = Some (b1, Bdoor.mkSendOut false None None, []).
Proof.
  do 2 eexists. split; [reflexivity|].
  apply (stopped_channel_refuses_send (L := Bdoor.ScriptLib)
           (Bdoor.desync_channel true) _ false _ "tools.set.version 1" true true
           eq_refl).
Defined.

Lemma RpcInStopChannel_idempotent_witness :
  exists b1 c1,
    Bdoor.RpcInStopChannel (Bdoor.desync_channel true) false = Some (b1, c1)
    /\ Bdoor.count_calls Bdoor.is_out_stop c1 = 1%nat
    /\ Bdoor.RpcInStopChannel b1 false = Some (b1, []).
Proof.
  do 2 eexists. split; [reflexivity|].
  destruct (RpcInStopChannel_idempotent (L := Bdoor.ScriptLib)
              (Bdoor.desync_channel true) _ false _ eq_refl)
    as (C1 & _ & E & _).
  split; [exact C1 | exact E].
Defined.

Lemma RpcInSend_passes_single_send_through_witness :
  exists bdoor',
    Bdoor.RpcInSend Bdoor.short_reply_channel "tools.set.version 1" true true
    = Some (bdoor',
            Bdoor.mkSendOut false (Some (Some "RpcOut: x"%string)) (Some 9),
            [Bdoor.CallOutSend "tools.set.version 1"]).
Proof.
  destruct (RpcInSend_passes_single_send_through (L := Bdoor.ScriptLib)
              Bdoor.short_reply_channel "tools.set.version 1" true true
              (Bdoor.mkScript
                 [Bdoor.mkSendReply false (Some "RpcOut: x"%string) 9;
                  Bdoor.ok_reply] [true])
              (Bdoor.mkScript [Bdoor.ok_reply] [true])
              (Bdoor.mkSendReply false (Some "RpcOut: x"%string) 9)
              eq_refl eq_refl eq_refl
              ltac:(right; right; left; cbn; lia))
    as (b & E & _).
  exists b. exact E.
Defined.

(* ====================================================================== *)
(** * Further properties of the guestlib handle *)
(* ====================================================================== *)

Lemma substring_length_le (m : nat) :
  forall s : string, (String.length (String.substring 0 m s) <= m)%nat.
Proof.
  induction m as [|m IH]; intros s; destruct s as [|c s]; simpl; try lia.
  specialize (IH s). lia.
Qed.

Section GuestLibHandle.
Import GuestLib.
Context {P : Params}.

Lemma negotiate_session (fuel : nat) :
  forall host i hv h e,
    negotiate fuel host i hv h = Some (Ended e) ->
    sessionId (le_handle e) = sessionId h \/ sessionId (le_handle e) = 0.
Proof.
  induction fuel as [|fuel IH]; intros host i hv h e; simpl; [discriminate|].
  destruct (rpc_ok (host i hv)).
  - destruct (negb (sessionId h =? 0) && negb (sessionId h =? hdr_sessionId (host i hv))).
    + intros H. apply IH in H. simpl in H. destruct H; auto.
    + intros H; inversion H; subst; simpl; auto.
  - destruct (hv =? 2).
    + intros H; inversion H; subst; simpl; auto.
    + destruct (reply_text (host i hv)) as [txt|]; [|discriminate].
      destruct (is_unknown_command txt).
      * intros H; inversion H; subst; simpl; auto.
      * destruct (hv =? 3).
        -- intros H. apply IH in H. simpl in H. destruct H; auto.
        -- destruct (StrUtil_GetNextUintToken txt).
           ++ apply IH.
           ++ intros H; inversion H; subst; simpl; auto.
Qed.

Lemma unmarshal_length (n : nat) :
  forall c xs l ok, unmarshal n c xs = (l, ok) -> (List.length l <= n)%nat.
Proof.
  induction n as [|n IH]; intros c xs l ok; simpl.
  - intros H; inversion H; simpl; lia.
  - destruct xs as [|[st|] xs].
    + intros H; inversion H; simpl; lia.
    + destruct (d st =? c + 1).
      * destruct (unmarshal n (c + 1) xs) as [l' ok'] eqn:E.
        intros H; inversion H; subst. apply IH in E. simpl. lia.
      * intros H; inversion H; simpl; lia.
    + intros H; inversion H; simpl; lia.
Qed.

(** After a complete unmarshalling the [k]-th statistic carries the id
    that follows the [k] before it. *)
Lemma unmarshal_complete (n : nat) :
  forall c xs l,
    unmarshal n c xs = (l, true) ->
    List.length l = n
    /\ forall k, (k < n)%nat ->
         exists st, List.nth_error l k = Some st /\ d st = c + Z.of_nat k + 1.
Proof.
  induction n as [|n IH]; intros c xs l; simpl.
  - intros H; inversion H; subst. split; [reflexivity | intros k Hk; lia].
  - destruct xs as [|[st|] xs]; try discriminate.
    destruct (d st =? c + 1) eqn:Ed; [|discriminate].
    destruct (unmarshal n (c + 1) xs) as [l' ok'] eqn:E.
    intros H; inversion H; subst. destruct (IH _ _ _ E) as [Hl Hk].
    split; [simpl; lia|]. intros [|k] Hlt.
    + exists st. split; [reflexivity|]. apply Z.eqb_eq in Ed. lia.
    + destruct (Hk k ltac:(lia)) as (st' & Hn & Hd).
      exists st'. split; [exact Hn | lia].
Qed.

Lemma handle_ok_session (h : VMGuestLibHandleType) (s : Z) :
  handle_ok h -> s = sessionId h \/ s = 0 ->
  handle_ok (mkHandle (version h) s (dataSize h) (data h)).
Proof.
  intros (Hv & H0 & H2 & H3) Hs. unfold handle_ok.
  cbn [version sessionId data].
  split; [exact Hv|]. split; [|split; [exact H2 | exact H3]].
  intros C. destruct (H0 C) as [A B]. split; [|exact B].
  destruct Hs; congruence.
Qed.

Lemma negotiate_handle_ok fuel host i hv h e :
  handle_ok h -> negotiate fuel host i hv h = Some (Ended e) ->
  handle_ok (le_handle e).
Proof.
  intros Hok N.
  destruct (negotiate_keeps_handle _ _ _ _ _ _ N) as (Kv & Ks & Kd & _).
  pose proof (negotiate_session _ _ _ _ _ _ N) as Hs.
  pose proof (handle_ok_session h (sessionId (le_handle e)) Hok Hs) as H.
  destruct (le_handle e) as [v s ds dt]. cbn in *. subst. exact H.
Qed.

Lemma store_reply_handle_ok (e : LoopEnd) :
  handle_ok (le_handle e) -> handle_ok (snd (store_reply e)).
Proof.
  intros Hok. unfold store_reply.
  destruct (replyLen (le_reply e) <? 4); [exact Hok|].
  destruct (le_hostVersion e =? 2) eqn:E2.
  - apply Z.eqb_eq in E2.
    destruct (hdr_version (le_reply e) =? le_hostVersion e) eqn:Eh;
      cbn [negb]; [|exact Hok].
    apply Z.eqb_eq in Eh.
    destruct (replyLen (le_reply e) =? sizeof_VMGuestLibDataV2);
      cbn [negb]; [|exact Hok].
    cbn [snd]. unfold handle_ok. cbn [version sessionId data].
    split; [right; left; congruence|].
    split; [intros C; rewrite Eh, E2 in C; discriminate|].
    split; [|intros n l HH; discriminate].
    intros _. eexists. split; [reflexivity|]. cbn. apply substring_length_le.
  - destruct (le_hostVersion e =? 3) eqn:E3; [|exact Hok].
    apply Z.eqb_eq in E3.
    destruct (hdr_version (le_reply e) =? le_hostVersion e) eqn:Eh;
      cbn [negb]; [|exact Hok].
    apply Z.eqb_eq in Eh.
    destruct (replyLen (le_reply e) <? sizeof_VMGuestLibDataV3); [exact Hok|].
    destruct Hok as (Hv & H0 & H2 & H3).
    assert (V3 : hdr_version (le_reply e) = 3) by congruence.
    destruct (xdr_count (le_reply e)) as [c|].
    + destruct (unmarshal _ _ _) as [l ok] eqn:Eu.
      apply unmarshal_length in Eu.
      assert (Hc : (if GUESTLIB_MAX_STATISTIC_ID <=? c
                    then GUESTLIB_MAX_STATISTIC_ID - 1 else c)
                   < GUESTLIB_MAX_STATISTIC_ID).
      { destruct (GUESTLIB_MAX_STATISTIC_ID <=? c) eqn:Ec; [lia|].
        apply Z.leb_gt in Ec. exact Ec. }
      destruct ok; cbn [snd]; unfold handle_ok;
        cbn [version sessionId data]; rewrite V3;
        (split; [auto|]);
        (split; [intros C; discriminate|]);
        (split; [intros C; discriminate|]);
        intros n l0 HH; inversion HH; subst; auto.
    + cbn [snd]. unfold handle_ok. cbn [version sessionId data]. rewrite V3.
      split; [auto|]. split; [intros C; discriminate|].
      split; [intros C; discriminate|].
      intros n l HH. destruct (H3 n l HH) as (_ & A & B). auto.
Qed.

Lemma reachable_handle_ok (h : VMGuestLibHandleType) :
  reachable h -> handle_ok h.
Proof.
  intros R. induction R as [|fuel host h ret h' sent R IH U].
  - unfold handle_ok. cbn.
    split; [auto|]. split; [auto|]. split; [intros C; discriminate|].
    intros n l C; discriminate.
  - unfold VMGuestLibUpdateInfo in U.
    destruct (negotiate fuel host 0 (initial_version h) h) as [[e|]|] eqn:N;
      try discriminate.
    pose proof (negotiate_handle_ok _ _ _ _ _ _ IH N) as He.
    destruct (is_success (le_ret e)).
    + pose proof (store_reply_handle_ok e He) as Hs.
      destruct (store_reply e) as [ret0 h0]. inversion U; subst. exact Hs.
    + inversion U; subst. exact He.
Qed.

(** X5.  A handle that no update has filled yet (version 0: fresh from
    VMGuestLib_OpenHandle, or after any number of failed updates) answers
    every accessor with NO_INFO and writes no value. *)
Theorem never_updated_handle_reports_no_info
    (h : VMGuestLibHandleType) (f : Field) (bsz : Z) :
  reachable h -> version h = 0 ->
  VMGUESTLIB_GETFN_BODY (Some h) true f = Some (VMGUESTLIB_ERROR_NO_INFO, None)
  /\ VMGuestLib_GetResourcePoolPath (Some h) (Some bsz) true
     = Some (VMGUESTLIB_ERROR_NO_INFO, None, None)
  /\ VMGuestLib_GetSessionId (Some h) true = (VMGUESTLIB_ERROR_NO_INFO, None).
Proof.
  intros R Hv. destruct (reachable_handle_ok h R) as (_ & H0 & _).
  destruct (H0 Hv) as [Hs _].
  unfold VMGUESTLIB_GETFN_BODY, VMGuestLib_GetResourcePoolPath,
    VMGuestLib_GetSessionId, VMGuestLibCheckArgs.
  rewrite Hs. cbn. repeat split; reflexivity.
Qed.

(** X6.  On every handle at version 2 the buffer holds a V2 struct: each
    integral accessor returns what VMGuestLibCheckArgs says or else the
    statistic of that struct, and the resource pool path accessor one of
    NO_INFO, NOT_AVAILABLE, BUFFER_TOO_SMALL or SUCCESS from that struct;
    none reads the buffer through the V3 layout. *)
Theorem version2_handle_reads_v2_struct
    (h : VMGuestLibHandleType) :
  reachable h -> version h = 2 ->
  exists dv2,
    data h = DataV2 dv2
    /\ (forall out_nonnull f,
          VMGUESTLIB_GETFN_BODY (Some h) out_nonnull f
          = Some (match VMGuestLibCheckArgs (Some h) out_nonnull with
                  | VMGUESTLIB_ERROR_SUCCESS => VMGUESTLIB_GETSTAT_V2 dv2 f
                  | e => (e, None)
                  end))
    /\ (forall bsz,
          VMGuestLib_GetResourcePoolPath (Some h) (Some bsz) true
          = Some (if sessionId h =? 0
                  then (VMGUESTLIB_ERROR_NO_INFO, None, None)
                  else copy_path (resourcePoolPath_valid dv2)
                                 (resourcePoolPath_value dv2) bsz)).
Proof.
  intros R Hv. destruct (reachable_handle_ok h R) as (_ & _ & H2 & _).
  destruct (H2 Hv) as (dv2 & Hd & _). exists dv2. split; [exact Hd|]. split.
  - intros out_nonnull f. unfold VMGUESTLIB_GETFN_BODY, VMGuestLibCheckArgs.
    destruct out_nonnull; cbn; [|reflexivity].
    destruct (sessionId h =? 0); [reflexivity|]. rewrite Hv, Hd. reflexivity.
  - intros bsz. unfold VMGuestLib_GetResourcePoolPath. cbn.
    destruct (sessionId h =? 0); [reflexivity|]. rewrite Hv, Hd. reflexivity.
Qed.

(** X7.  Statistics unmarshalled completely are in id order, so the V3
    lookup finds, for an id within the count, the statistic that carries
    that very id (the accessor's ASSERT on the discriminant holds), and
    answers UNSUPPORTED_VERSION for an id that is 0 or beyond the count. *)
Theorem v3_lookup_finds_matching_id
    (count : Z) (xs : list (option GuestLibV3Stat)) (l : list GuestLibV3Stat)
    (id : Z) :
  0 <= count < 2 ^ 32 ->
  unmarshal (Z.to_nat count) 0 xs = (l, true) ->
  (1 <= id <= count ->
   exists st, VMGuestLibGetStatisticsV3 count l id
              = (VMGUESTLIB_ERROR_SUCCESS, Some st)
              /\ d st = id)
  /\ (id = 0 \/ count < id < 2 ^ 32 ->
      VMGuestLibGetStatisticsV3 count l id
      = (VMGUESTLIB_ERROR_UNSUPPORTED_VERSION, None)).
Proof.
  intros Hc Hu. destruct (unmarshal_complete _ _ _ _ Hu) as [Hl Hk].
  unfold VMGuestLibGetStatisticsV3. split.
  - intros Hid. rewrite to_uint32_small by lia.
    replace (count <=? id - 1) with false by (symmetry; apply Z.leb_gt; lia).
    destruct (Hk (Z.to_nat (id - 1)) ltac:(lia)) as (st & Hn & Hd).
    exists st. rewrite Hn. split; [reflexivity | lia].
  - intros [H0 | Hbig].
    + subst id. unfold to_uint32. cbn.
      replace (count <=? 4294967295) with true
        by (symmetry; apply Z.leb_le; lia).
      reflexivity.
    + rewrite to_uint32_small by lia.
      replace (count <=? id - 1) with true by (symmetry; apply Z.leb_le; lia).
      reflexivity.
Qed.

(** X8.  Whatever hosts a handle has been updated against, the invariant
    of the handle holds: V3 statistics are held at version 3 only, their
    count stays below GUESTLIB_MAX_STATISTIC_ID however many the host
    sent, and the array holds no more statistics than the count; a V2
    struct's resource pool path is shorter than its array. *)
Theorem handle_statistics_bounded (h : VMGuestLibHandleType) :
  reachable h ->
  (forall n l, data h = DataV3 n l ->
     version h = 3 /\ n < GUESTLIB_MAX_STATISTIC_ID
     /\ (List.length l <= Z.to_nat n)%nat)
  /\ (version h = 2 ->
      exists dv2, data h = DataV2 dv2
        /\ (String.length (resourcePoolPath_value dv2)
            <= Z.to_nat (sizeof_resourcePoolPath - 1))%nat).
Proof.
  intros R. destruct (reachable_handle_ok h R) as (_ & _ & H2 & H3).
  split; assumption.
Qed.

(** X9.  An update that returns an error leaves the statistics alone: the
    handle keeps its version, its buffer and the buffer's size; the session
    id is as before or has been reset to 0. *)
Theorem failed_update_keeps_statistics
    (fuel : nat) (host : Host) (h h' : VMGuestLibHandleType)
    (ret : VMGuestLibError) (sent : nat) :
  VMGuestLibUpdateInfo fuel host h = Some (Updated ret h' sent) ->
  ret <> VMGUESTLIB_ERROR_SUCCESS ->
  version h' = version h /\ data h' = data h /\ dataSize h' = dataSize h
  /\ (sessionId h' = sessionId h \/ sessionId h' = 0).
Proof.
  unfold VMGuestLibUpdateInfo.
  destruct (negotiate fuel host 0 (initial_version h) h) as [[e|]|] eqn:N;
    try discriminate.
  destruct (negotiate_keeps_handle _ _ _ _ _ _ N) as (Kv & Ks & Kd & _).
  pose proof (negotiate_session _ _ _ _ _ _ N) as Hs.
  destruct (is_success (le_ret e)) eqn:Es.
  2:{ intros H _; inversion H; subst. auto. }
  assert (Hret : le_ret e = VMGUESTLIB_ERROR_SUCCESS)
    by (destruct (le_ret e); try discriminate; reflexivity).
  unfold store_reply. rewrite Hret.
  destruct (replyLen (le_reply e) <? 4).
  { intros H _; inversion H; subst. auto. }
  destruct (le_hostVersion e =? 2).
  { destruct (negb (hdr_version (le_reply e) =? le_hostVersion e)).
    { intros H _; inversion H; subst. auto. }
    destruct (negb (replyLen (le_reply e) =? sizeof_VMGuestLibDataV2)).
    { intros H _; inversion H; subst. auto. }
    intros H C; inversion H; subst. contradiction. }
  destruct (le_hostVersion e =? 3).
  2:{ intros H _; inversion H; subst. auto. }
  destruct (negb (hdr_version (le_reply e) =? le_hostVersion e)).
  { intros H _; inversion H; subst. auto. }
  destruct (replyLen (le_reply e) <? sizeof_VMGuestLibDataV3).
  { intros H _; inversion H; subst. auto. }
  destruct (xdr_count (le_reply e)) as [c|].
  - destruct (unmarshal _ _ _) as [l [|]];
      intros H C; inversion H; subst; contradiction.
  - intros H C; inversion H; subst; contradiction.
Qed.

(** X10.  The size protocol of the resource pool path on a version-2
    handle with a session and a valid path: a buffer of the size of the
    struct's array is always enough; when the buffer is too small the size
    written back is one more than the length of the path, at most the size
    of the array, and a second call with that size succeeds with the whole
    path. *)
Theorem resource_pool_path_size_protocol
    (h : VMGuestLibHandleType) (bsz : Z) :
  reachable h -> version h = 2 -> sessionId h <> 0 ->
  1 <= sizeof_resourcePoolPath ->
  exists dv2,
    data h = DataV2 dv2
    /\ (resourcePoolPath_valid dv2 = true ->
        (sizeof_resourcePoolPath <= bsz ->
         VMGuestLib_GetResourcePoolPath (Some h) (Some bsz) true
         = Some (VMGUESTLIB_ERROR_SUCCESS, None,
                 Some (resourcePoolPath_value dv2)))
        /\ (forall need,
              VMGuestLib_GetResourcePoolPath (Some h) (Some bsz) true
              = Some (VMGUESTLIB_ERROR_BUFFER_TOO_SMALL, Some need, None) ->
              need = Z.of_nat (String.length (resourcePoolPath_value dv2)) + 1
              /\ bsz < need <= sizeof_resourcePoolPath
              /\ VMGuestLib_GetResourcePoolPath (Some h) (Some need) true
                 = Some (VMGUESTLIB_ERROR_SUCCESS, None,
                         Some (resourcePoolPath_value dv2)))).
Proof.
  intros R Hv Hs Hsz. destruct (reachable_handle_ok h R) as (_ & _ & H2 & _).
  destruct (H2 Hv) as (dv2 & Hd & Hlen). exists dv2. split; [exact Hd|].
  intros Hvalid.
  assert (E : forall b, VMGuestLib_GetResourcePoolPath (Some h) (Some b) true
                = Some (copy_path true (resourcePoolPath_value dv2) b)).
  { intros b. unfold VMGuestLib_GetResourcePoolPath. cbn.
    replace (sessionId h =? 0) with false by (symmetry; apply Z.eqb_neq; exact Hs).
    rewrite Hv, Hd, Hvalid. reflexivity. }
  split.
  - intros Hb. rewrite E. unfold copy_path. cbn [negb].
    replace (bsz <? Z.of_nat (String.length (resourcePoolPath_value dv2)) + 1)
      with false by (symmetry; apply Z.ltb_ge; lia).
    reflexivity.
  - intros need. rewrite !E. unfold copy_path. cbn [negb].
    destruct (bsz <? Z.of_nat (String.length (resourcePoolPath_value dv2)) + 1)
      eqn:Eb; [|discriminate].
    intros H; inversion H; subst. apply Z.ltb_lt in Eb.
    split; [reflexivity|]. split; [lia|].
    rewrite Z.ltb_irrefl. reflexivity.
Qed.

(** X11.  A V3 reply whose statistics cannot all be unmarshalled (a
    decoding failure, or an id out of order): the part of
    VMGuestLibUpdateInfo after the loop resets the session id to 0, so
    every accessor then reports NO_INFO, while the function returns the
    SUCCESS the loop ended with. *)
Theorem v3_unmarshal_failure_hides_statistics
    (e : LoopEnd) (c : Z) (l : list GuestLibV3Stat) (f : Field) :
  le_ret e = VMGUESTLIB_ERROR_SUCCESS ->
  le_hostVersion e = 3 -> hdr_version (le_reply e) = 3 ->
  4 <= replyLen (le_reply e) ->
  sizeof_VMGuestLibDataV3 <= replyLen (le_reply e) ->
  xdr_count (le_reply e) = Some c ->
  unmarshal (Z.to_nat (if GUESTLIB_MAX_STATISTIC_ID <=? c
                       then GUESTLIB_MAX_STATISTIC_ID - 1 else c))
            0 (xdr_stats (le_reply e)) = (l, false) ->
  fst (store_reply e) = VMGUESTLIB_ERROR_SUCCESS
  /\ sessionId (snd (store_reply e)) = 0
  /\ version (snd (store_reply e)) = 3
  /\ VMGUESTLIB_GETFN_BODY (Some (snd (store_reply e))) true f
     = Some (VMGUESTLIB_ERROR_NO_INFO, None)
  /\ (forall bsz,
        VMGuestLib_GetResourcePoolPath (Some (snd (store_reply e)))
                                       (Some bsz) true
        = Some (VMGUESTLIB_ERROR_NO_INFO, None, None))
  /\ VMGuestLib_GetSessionId (Some (snd (store_reply e))) true
     = (VMGUESTLIB_ERROR_NO_INFO, None).
Proof.
  intros Hret Hhv Hver Hlen4 Hlen Hc Hu. unfold store_reply.
  replace (replyLen (le_reply e) <? 4) with false
    by (symmetry; apply Z.ltb_ge; lia).
  rewrite Hhv, Hver. cbn [Z.eqb Pos.eqb negb].
  replace (replyLen (le_reply e) <? sizeof_VMGuestLibDataV3) with false
    by (symmetry; apply Z.ltb_ge; lia).
  rewrite Hc, Hu, Hret. cbn. repeat split; reflexivity.
Qed.

End GuestLibHandle.

Lemma never_updated_handle_reports_no_info_witness :
  GuestLib.VMGUESTLIB_GETFN_BODY (P := GuestLib.sample_params (fun _ => None))
    (Some GuestLib.VMGuestLib_OpenHandle) true GuestLib.cpuUsedMs
  = Some (GuestLib.VMGUESTLIB_ERROR_NO_INFO, None).
Proof.
  apply (never_updated_handle_reports_no_info
           (P := GuestLib.sample_params (fun _ => None))
           GuestLib.VMGuestLib_OpenHandle GuestLib.cpuUsedMs 0
           GuestLib.reach_open eq_refl).
Defined.

Lemma pool_path_handle_reachable :
  GuestLib.reachable (P := GuestLib.sample_params (fun _ => None))
                     GuestLib.pool_path_handle.
Proof.
  apply (GuestLib.reach_update (P := GuestLib.sample_params (fun _ => None))
           2 (GuestLib.v2_only_host 7 GuestLib.pool_path_stats)
           GuestLib.VMGuestLib_OpenHandle GuestLib.VMGUESTLIB_ERROR_SUCCESS
           GuestLib.pool_path_handle 2 GuestLib.reach_open).
  vm_compute. reflexivity.
Defined.

Lemma version2_handle_reads_v2_struct_witness :
  GuestLib.VMGuestLib_GetResourcePoolPath
    (P := GuestLib.sample_params (fun _ => None))
    (Some GuestLib.pool_path_handle) (Some 512) true
  = Some (GuestLib.VMGUESTLIB_ERROR_SUCCESS, None, Some "/ha-root-pool"%string).
Proof.
  destruct (version2_handle_reads_v2_struct
              (P := GuestLib.sample_params (fun _ => None))
              GuestLib.pool_path_handle pool_path_handle_reachable eq_refl)
    as (dv2 & Hd & _ & Hp).
  rewrite Hp. inversion Hd; subst. reflexivity.
Defined.

Lemma v3_lookup_finds_matching_id_witness :
  exists st,
    GuestLib.VMGuestLibGetStatisticsV3 2
      [GuestLib.mkV3Stat 1 true 1000 ""; GuestLib.mkV3Stat 2 false 0 ""] 2
    = (GuestLib.VMGUESTLIB_ERROR_SUCCESS, Some st)
    /\ GuestLib.d st = 2.
Proof.
  apply (v3_lookup_finds_matching_id 2 GuestLib.two_stats
           [GuestLib.mkV3Stat 1 true 1000 ""; GuestLib.mkV3Stat 2 false 0 ""] 2
           ltac:(lia) eq_refl).
  lia.
Defined.

Lemma handle_statistics_bounded_witness :
  exists dv2,
    GuestLib.data GuestLib.pool_path_handle = GuestLib.DataV2 dv2
    /\ (String.length (GuestLib.resourcePoolPath_value dv2) <= 511)%nat.
Proof.
  destruct (handle_statistics_bounded
              (P := GuestLib.sample_params (fun _ => None))
              GuestLib.pool_path_handle pool_path_handle_reachable)
    as [_ H2].
  destruct (H2 eq_refl) as (dv2 & Hd & Hl). exists dv2. split; [exact Hd|].
  exact Hl.
Defined.

Lemma failed_update_keeps_statistics_witness :
  exists h' sent,
    GuestLib.VMGuestLibUpdateInfo (P := GuestLib.sample_params (fun _ => None))
      2 GuestLib.refusing_host GuestLib.pool_path_handle
    = Some (GuestLib.Updated GuestLib.VMGUESTLIB_ERROR_UNSUPPORTED_VERSION
                             h' sent)
    /\ GuestLib.data h' = GuestLib.data GuestLib.pool_path_handle.
Proof.
  do 2 eexists. split; [reflexivity|].
  apply (failed_update_keeps_statistics
           (P := GuestLib.sample_params (fun _ => None))
           2 GuestLib.refusing_host GuestLib.pool_path_handle _
           GuestLib.VMGUESTLIB_ERROR_UNSUPPORTED_VERSION _ eq_refl).
  discriminate.
Defined.

Lemma resource_pool_path_size_protocol_witness :
  GuestLib.VMGuestLib_GetResourcePoolPath
    (P := GuestLib.sample_params (fun _ => None))
    (Some GuestLib.pool_path_handle) (Some 14) true
  = Some (GuestLib.VMGUESTLIB_ERROR_SUCCESS, None, Some "/ha-root-pool"%string).
Proof.
  destruct (resource_pool_path_size_protocol
              (P := GuestLib.sample_params (fun _ => None))
              GuestLib.pool_path_handle 4 pool_path_handle_reachable
              eq_refl ltac:(discriminate) ltac:(cbn; lia))
    as (dv2 & Hd & Hv).
  inversion Hd; subst.
  destruct (Hv eq_refl) as [_ Hneed].
  destruct (Hneed 14 eq_refl) as (_ & _ & E). exact E.
Defined.

Lemma v3_unmarshal_failure_hides_statistics_witness :
  fst (GuestLib.store_reply (P := GuestLib.sample_params (fun _ => None))
         GuestLib.cut_v3_end)
  = GuestLib.VMGUESTLIB_ERROR_SUCCESS
  /\ GuestLib.sessionId
       (snd (GuestLib.store_reply (P := GuestLib.sample_params (fun _ => None))
               GuestLib.cut_v3_end)) = 0.
Proof.
  destruct (v3_unmarshal_failure_hides_statistics
              (P := GuestLib.sample_params (fun _ => None))
              GuestLib.cut_v3_end 2 [GuestLib.mkV3Stat 1 true 1000 ""]
              GuestLib.cpuUsedMs
              eq_refl eq_refl eq_refl ltac:(cbn; lia) ltac:(cbn; lia)
              eq_refl eq_refl)
    as (A & B & _).
  split; [exact A | exact B].
Defined.

(** ** HGFS: the other vnode operations *)

Section VnopsProperties.
Import Hgfs HgfsVnops.
Context {P : Params} {A : AttrParams}.

Lemma vpool_put_after_alloc r fs iu mi :
  pool_put (mkPool fs (r :: iu) mi) r = mkPool (r :: fs) iu mi.
Proof. unfold pool_put. simpl. now rewrite Nat.eqb_refl. Qed.

Ltac vsplit_conditions :=
  repeat match goal with
         | |- context [if negb (?a =? ?b) then _ else _] =>
             destruct (a =? b) eqn:?; cbn [negb]
         | |- context [if ?c then _ else _] => destruct c eqn:?
         end.

Ltac vname_trace :=
  unfold VReleaseRequest, VSubmitRequest; cbn [vpool vevents];
  repeat match goal with
         | H : (?a =? 0) = true |- _ => apply Z.eqb_eq in H; subst a
         | H : (?a =? 0) = false |- context [?a =? 0] => rewrite H
         end;
  cbn [Z.eqb]; rewrite ?vpool_put_after_alloc;
  eexists; split; [rewrite <- ?app_assoc; cbn [app]; reflexivity|];
  split; [reflexivity|];
  first [ apply vtr_none | apply vtr_early | apply vtr_replied
        | apply vtr_submit_failed; apply Z.eqb_neq; assumption ].

Ltac vsolve_op :=
  cbn [fst snd];
  first [ exists []; rewrite app_nil_r; repeat split; apply vtr_none
        | vname_trace ].

(** X12.  Setattr, mkdir, directory close, file close and getattr, run from
    any pool state and with any outcome of the calls they make, add to the
    pool's history one of: nothing; an allocation and its release, with
    nothing submitted; an allocation and a submission that failed, with no
    release by the caller; an allocation, a submission that succeeded and
    one release.  The pool ends as it started. *)
Theorem vnop_request_released_once (c : VnopCall) (st : VState) :
  exists evs,
    vevents (run_vnop c st) = vevents st ++ evs
    /\ vpool (run_vnop c st) = vpool st
    /\ vop_trace evs.
Proof.
  destruct st as [[fr iu mi] ev].
  destruct c as [env|mode env|env|env|path handle env]; unfold run_vnop.
  - destruct env as [cp mask enc sub sta].
    unfold HgfsSetattrInt, VAllocateRequest.
    cbn [sa_copy sa_mask sa_encode sa_submit sa_status
         vpool free inuse misuse vevents].
    destruct fr as [|r fs]; [vsolve_op|].
    vsplit_conditions; vsolve_op.
  - destruct env as [ma mk enc sub sta vg].
    unfold HgfsMkdirInt, VAllocateRequest.
    cbn [mk_malloc mk_makeFullName mk_encode mk_submit mk_status mk_vnodeGet
         vpool free inuse misuse vevents].
    destruct (perm_fields mode) as [[[sp ow] gr] ot].
    destruct ma; cbn [negb]; [|vsolve_op].
    destruct (mk <? 0); [vsolve_op|].
    destruct fr as [|r fs]; [vsolve_op|].
    vsplit_conditions; vsolve_op.
  - destruct env as [sc [rr rc] gh sub sta].
    unfold HgfsDirClose, VAllocateRequest.
    cbn [cl_shouldClose cl_release cl_getHandle cl_submit cl_status
         vpool free inuse misuse vevents fst snd].
    destruct sc; cbn [negb].
    2:{ destruct (negb (rr =? 0) || rc); vsolve_op. }
    destruct fr as [|r fs]; [vsolve_op|].
    destruct gh as [h|]; [|vsolve_op].
    destruct (sub =? 0) eqn:Es; cbn [negb]; [|vsolve_op].
    destruct (sta =? 0) eqn:Et; cbn [negb]; [|vsolve_op].
    destruct (negb (rr =? 0) || negb rc); vsolve_op.
  - destruct env as [sc [rr rc] gh sub sta].
    unfold HgfsFileClose, VAllocateRequest.
    cbn [cl_shouldClose cl_release cl_getHandle cl_submit cl_status
         vpool free inuse misuse vevents fst snd].
    destruct sc; cbn [negb].
    2:{ destruct (negb (rr =? 0) || rc); vsolve_op. }
    destruct fr as [|r fs]; [vsolve_op|].
    destruct gh as [h|]; [|vsolve_op].
    destruct (sub =? 0) eqn:Es; cbn [negb]; [|vsolve_op].
    destruct (sta =? 0) eqn:Et; cbn [negb]; [|vsolve_op].
    destruct (negb (rr =? 0) || negb rc); vsolve_op.
  - destruct env as [enc sub sta psz sl att].
    unfold HgfsDoGetattrInt, VAllocateRequest.
    cbn [ga_encode ga_submit ga_status ga_payloadSize ga_symlinkLen ga_attr
         vpool free inuse misuse vevents].
    destruct fr as [|r fs]; [vsolve_op|].
    destruct path as [p|]; cbn [andb].
    + destruct (enc <? 0); [vsolve_op|].
      destruct (sub =? 0) eqn:Es; cbn [negb]; [|vsolve_op].
      destruct (sta =? 0) eqn:Et; cbn [negb]; [|vsolve_op].
      destruct (psz =? to_uint32 (repSize_getattr + sl)); cbn [negb]; vsolve_op.
    + destruct (sub =? 0) eqn:Es; cbn [negb]; [|vsolve_op].
      destruct (sta =? 0) eqn:Et; cbn [negb]; [|vsolve_op].
      destruct (psz =? to_uint32 (repSize_getattr + sl)); cbn [negb]; vsolve_op.
Qed.

(** X13.  HgfsSetattrInt with nothing to send (HgfsSetattrCopy found no
    update, or the name was encoded and [attr.mask] is empty) submits no
    request and leaves the pool as it was; it returns 0 when a request
    buffer was free, and ENOMEM when none was, although it had nothing to
    send. *)
Theorem setattr_without_changes_sends_nothing
    (st : VState) (env : SetattrEnv) :
  sa_copy env = false \/ (0 <= sa_encode env /\ sa_mask env = 0) ->
  fst (HgfsSetattrInt st env)
  = (match free (vpool st) with [] => ENOMEM | _ :: _ => 0 end)
  /\ vpool (snd (HgfsSetattrInt st env)) = vpool st
  /\ exists evs,
       vevents (snd (HgfsSetattrInt st env)) = vevents st ++ evs
       /\ List.Forall (fun e => is_vsubmit e = false) evs.
Proof.
  intros H. destruct st as [[fr iu mi] ev].
  unfold HgfsSetattrInt, VAllocateRequest. cbn [vpool free inuse misuse vevents].
  destruct fr as [|r fs].
  { cbn. split; [reflexivity|]. split; [reflexivity|].
    exists []. rewrite app_nil_r. split; [reflexivity | constructor]. }
  assert (Hrel : forall z : Z,
    fst (z, VReleaseRequest
              (mkVState (mkPool fs (r :: iu) mi) (ev ++ [VAlloc r])) r) = z
    /\ vpool (snd (z, VReleaseRequest
                        (mkVState (mkPool fs (r :: iu) mi) (ev ++ [VAlloc r])) r))
       = mkPool (r :: fs) iu mi
    /\ exists evs,
         vevents (snd (z, VReleaseRequest
                            (mkVState (mkPool fs (r :: iu) mi)
                                      (ev ++ [VAlloc r])) r))
         = ev ++ evs
         /\ List.Forall (fun e => is_vsubmit e = false) evs).
  { intros z. unfold VReleaseRequest. cbn [fst snd vpool vevents].
    rewrite vpool_put_after_alloc. split; [reflexivity|]. split; [reflexivity|].
    exists [VAlloc r; VRelease r]. rewrite <- app_assoc.
    split; [reflexivity|]. repeat constructor. }
  destruct H as [Hc | [He Hm]].
  - rewrite Hc. cbn [negb]. apply Hrel.
  - destruct (sa_copy env); cbn [negb]; [|apply Hrel].
    replace (sa_encode env <? 0) with false by (symmetry; apply Z.ltb_ge; lia).
    rewrite Hm. cbn [Z.eqb]. apply Hrel.
Qed.

(** X14.  HgfsDoGetattrInt returns 0 exactly when a request buffer was
    free, the name (if any) was encoded, the submission and the status
    were fine and the reply has the size of a getattr reply plus its
    symlink target; the caller's HgfsAttrV2 receives the reply's
    attributes in that case and is not written otherwise.  HgfsGetattrInt
    writes the BSD attributes under the same condition. *)
Theorem getattr_fills_attributes_iff_success
    (st : VState) (path : option string) (handle : HgfsHandle)
    (env : GetattrEnv) :
  let ret := fst (fst (HgfsDoGetattrInt st path handle env)) in
  let attr := snd (fst (HgfsDoGetattrInt st path handle env)) in
  (ret = 0 <->
     free (vpool st) <> []
     /\ (path = None \/ 0 <= ga_encode env)
     /\ ga_submit env = 0 /\ ga_status env = 0
     /\ ga_payloadSize env
        = to_uint32 (repSize_getattr + ga_symlinkLen env))
  /\ attr = (if ret =? 0 then Some (ga_attr env) else None)
  /\ (forall p,
        snd (fst (HgfsGetattrInt st p env))
        = if fst (fst (HgfsGetattrInt st p env)) =? 0
          then Some (HgfsAttrToBSD (ga_attr env)) else None).
Proof.
  assert (Hmain : forall path' handle',
    let ret := fst (fst (HgfsDoGetattrInt st path' handle' env)) in
    let attr := snd (fst (HgfsDoGetattrInt st path' handle' env)) in
    (ret = 0 <->
       free (vpool st) <> []
       /\ (path' = None \/ 0 <= ga_encode env)
       /\ ga_submit env = 0 /\ ga_status env = 0
       /\ ga_payloadSize env
          = to_uint32 (repSize_getattr + ga_symlinkLen env))
    /\ attr = (if ret =? 0 then Some (ga_attr env) else None)).
  { intros path' handle'. cbv zeta.
    unfold HgfsDoGetattrInt, VAllocateRequest.
    destruct (free (vpool st)) as [|r fs].
    { cbn [fst snd]. split; [|reflexivity].
      split; [unfold ENOMEM; lia | intros [C _]; congruence]. }
    assert (Hfree : r :: fs <> []) by discriminate.
    destruct path' as [p|]; cbn [andb].
    - destruct (ga_encode env <? 0) eqn:Ee.
      { apply Z.ltb_lt in Ee. cbn [fst snd].
        replace (- ga_encode env =? 0) with false
          by (symmetry; apply Z.eqb_neq; lia).
        split; [|reflexivity].
        split; [lia | intros (_ & [C|C] & _); [discriminate | lia]]. }
      apply Z.ltb_ge in Ee.
      destruct (ga_submit env =? 0) eqn:Es; cbn [negb fst snd].
      2:{ rewrite Es. apply Z.eqb_neq in Es. split; [|reflexivity].
          split; [lia | intros (_ & _ & C & _); lia]. }
      destruct (ga_status env =? 0) eqn:Et; cbn [negb fst snd].
      2:{ rewrite Et. apply Z.eqb_neq in Et. split; [|reflexivity].
          split; [lia | intros (_ & _ & _ & C & _); lia]. }
      apply Z.eqb_eq in Es, Et.
      destruct (ga_payloadSize env
                =? to_uint32 (repSize_getattr + ga_symlinkLen env)) eqn:Ep;
        cbn [negb fst snd].
      + apply Z.eqb_eq in Ep. rewrite Et. cbn [Z.eqb]. split; [|reflexivity].
        split; [intros _; auto 10 | reflexivity].
      + apply Z.eqb_neq in Ep. split; [|reflexivity].
        split; [unfold EFAULT; lia | intros (_ & _ & _ & _ & C); contradiction].
    - destruct (ga_submit env =? 0) eqn:Es; cbn [negb fst snd].
      2:{ rewrite Es. apply Z.eqb_neq in Es. split; [|reflexivity].
          split; [lia | intros (_ & _ & C & _); lia]. }
      destruct (ga_status env =? 0) eqn:Et; cbn [negb fst snd].
      2:{ rewrite Et. apply Z.eqb_neq in Et. split; [|reflexivity].
          split; [lia | intros (_ & _ & _ & C & _); lia]. }
      apply Z.eqb_eq in Es, Et.
      destruct (ga_payloadSize env
                =? to_uint32 (repSize_getattr + ga_symlinkLen env)) eqn:Ep;
        cbn [negb fst snd].
      + apply Z.eqb_eq in Ep. rewrite Et. cbn [Z.eqb]. split; [|reflexivity].
        split; [intros _; auto 10 | reflexivity].
      + apply Z.eqb_neq in Ep. split; [|reflexivity].
        split; [unfold EFAULT; lia | intros (_ & _ & _ & _ & C); contradiction]. }
  cbv zeta. destruct (Hmain path handle) as [H1 H2]. cbv zeta in H1, H2.
  split; [exact H1|]. split; [exact H2|].
  intros p. unfold HgfsGetattrInt, HgfsDoGetattrByName.
  destruct (Hmain (Some p) 0) as [_ H3]. cbv zeta in H3.
  destruct (HgfsDoGetattrInt st (Some p) 0 env) as [[ret attr] st'].
  cbn [fst snd] in H3. subst attr.
  destruct (ret =? 0) eqn:E; cbn [fst snd]; rewrite ?E; reflexivity.
Qed.

(** X15.  HgfsCloseInt returns 0 whatever HgfsDirClose or HgfsFileClose
    reported, and for a vnode that is neither a directory nor a regular
    file, where its local result is EINVAL.  The open-file handle is
    released only when the handle was shared (nothing is sent then), or
    after the server confirmed the close: never after a failed
    allocation, handle lookup, submission or status.  A close of a shared
    handle leaves the pool's history untouched. *)
Theorem close_releases_handle_only_when_confirmed
    (st : VState) (vt : vtype) (env : CloseEnv) :
  let ret := fst (fst (fst (HgfsCloseInt st vt env))) in
  let result := snd (fst (fst (HgfsCloseInt st vt env))) in
  let released := snd (fst (HgfsCloseInt st vt env)) in
  let st' := snd (HgfsCloseInt st vt env) in
  result = 0
  /\ (vt <> VDIR -> vt <> VREG -> ret = EINVAL /\ released = false /\ st' = st)
  /\ (released = true ->
      cl_shouldClose env = false
      \/ (free (vpool st) <> [] /\ cl_getHandle env <> None
          /\ cl_submit env = 0 /\ cl_status env = 0))
  /\ (cl_shouldClose env = false -> st' = st)
  /\ (ret = 0 -> released = true).
Proof.
  cbv zeta.
  assert (Hd : forall close,
            close = HgfsDirClose \/ close = HgfsFileClose ->
            (snd (fst (close st env)) = true ->
             cl_shouldClose env = false
             \/ (free (vpool st) <> [] /\ cl_getHandle env <> None
                 /\ cl_submit env = 0 /\ cl_status env = 0))
            /\ (cl_shouldClose env = false -> snd (close st env) = st)
            /\ (fst (fst (close st env)) = 0 -> snd (fst (close st env)) = true)).
  { intros close [-> | ->].
    - unfold HgfsDirClose, VAllocateRequest.
      destruct (cl_shouldClose env); cbn [negb].
      2:{ destruct (negb (fst (cl_release env) =? 0) || snd (cl_release env));
            cbn [fst snd]; auto. }
      destruct (free (vpool st)) as [|r fs]; cbn [fst snd].
      { unfold ENOMEM. repeat split; intros; try discriminate; lia. }
      destruct (cl_getHandle env) as [h|]; cbn [fst snd].
      2:{ unfold EINVAL. repeat split; intros; try discriminate; lia. }
      destruct (cl_submit env =? 0) eqn:Es; cbn [negb fst snd].
      2:{ apply Z.eqb_neq in Es. repeat split; intros; try discriminate; lia. }
      destruct (cl_status env =? 0) eqn:Et; cbn [negb fst snd].
      2:{ apply Z.eqb_neq in Et. split; [intros; discriminate|].
          split; [intros; discriminate|].
          destruct (cl_status env =? EPROTO) eqn:Ep; cbn [negb].
          - intros C; lia.
          - unfold EFAULT; lia. }
      apply Z.eqb_eq in Es, Et.
      destruct (negb (fst (cl_release env) =? 0) || negb (snd (cl_release env)));
        cbn [fst snd];
        (split; [intros _; right; repeat split; try assumption; discriminate|]);
        (split; [intros; discriminate | auto]).
    - unfold HgfsFileClose, VAllocateRequest.
      destruct (cl_shouldClose env); cbn [negb].
      2:{ destruct (negb (fst (cl_release env) =? 0) || snd (cl_release env));
            cbn [fst snd]; auto. }
      destruct (free (vpool st)) as [|r fs]; cbn [fst snd].
      { unfold ENOMEM. repeat split; intros; try discriminate; lia. }
      destruct (cl_getHandle env) as [h|]; cbn [fst snd].
      2:{ unfold EINVAL. repeat split; intros; try discriminate; lia. }
      destruct (cl_submit env =? 0) eqn:Es; cbn [negb fst snd].
      2:{ apply Z.eqb_neq in Es. repeat split; intros; try discriminate; lia. }
      destruct (cl_status env =? 0) eqn:Et; cbn [negb fst snd].
      2:{ apply Z.eqb_neq in Et. repeat split; intros; try discriminate; lia. }
      apply Z.eqb_eq in Es, Et.
      destruct (negb (fst (cl_release env) =? 0) || negb (snd (cl_release env)));
        cbn [fst snd];
        (split; [intros _; right; repeat split; try assumption; discriminate|]);
        (split; [intros; discriminate | auto]). }
  unfold HgfsCloseInt.
  destruct vt;
    try (cbn [fst snd]; split; [reflexivity|];
         split; [intros _ _; auto|];
         split; [intros; discriminate|];
         split; [reflexivity | unfold EINVAL; lia]).
  - destruct (Hd HgfsFileClose (or_intror eq_refl)) as (H1 & H2 & H3).
    destruct (HgfsFileClose st env) as [[ret released] st'].
    cbn [fst snd] in *. split; [reflexivity|].
    split; [intros _ C; congruence | auto].
  - destruct (Hd HgfsDirClose (or_introl eq_refl)) as (H1 & H2 & H3).
    destruct (HgfsDirClose st env) as [[ret released] st'].
    cbn [fst snd] in *. split; [reflexivity|].
    split; [intros C; congruence | auto].
Qed.

Lemma land_bit_eqb (x k : Z) :
  0 <= k -> (Z.land x (2 ^ k) =? 0) = negb (Z.testbit x k).
Proof.
  intros Hk. destruct (Z.testbit x k) eqn:E; cbn [negb].
  - apply Z.eqb_neq. intros C.
    assert (H : Z.testbit (Z.land x (2 ^ k)) k = true)
      by (rewrite Z.land_spec, E, Z.pow2_bits_true; auto).
    rewrite C, Z.bits_0 in H. discriminate.
  - apply Z.eqb_eq. apply Z.bits_inj'. intros n Hn.
    rewrite Z.land_spec, Z.bits_0.
    destruct (Z.eq_dec n k) as [->|Hne].
    + rewrite E. reflexivity.
    + rewrite Z.pow2_bits_false by lia. apply andb_false_r.
Qed.

Lemma lacks_bit (mode va_mode k : Z) :
  0 <= k ->
  lacks mode va_mode (2 ^ k)
  = Z.testbit mode k && negb (Z.testbit va_mode k).
Proof.
  intros Hk. unfold lacks. rewrite !land_bit_eqb by exact Hk.
  now rewrite Bool.negb_involutive.
Qed.

Ltac access_step mode va_mode k :=
  let E := fresh "E" in
  destruct (Z.testbit mode k && negb (Z.testbit va_mode k)) eqn:E;
  [ cbn [fst]; split; [right; reflexivity|];
    split; [unfold EPERM; lia|];
    let Hall := fresh "Hall" in
    let Em := fresh "Em" in
    let Ev := fresh "Ev" in
    intros Hall; apply andb_prop in E; destruct E as [Em Ev];
    specialize (Hall k ltac:(lia) Em); rewrite Hall in Ev; discriminate
  | ].

(** X16.  HgfsAccessInt passes on the error of HgfsGetattrInt; when the
    attributes were fetched it grants access (returns 0) exactly when every
    one of the twelve permission bits set in the requested mode is set in
    the file's [va_mode], and returns EPERM otherwise.  It sends nothing
    beyond the getattr request. *)
Theorem access_granted_iff_mode_bits_present
    (st : VState) (path : string) (mode : Z) (env : GetattrEnv) :
  let ret := fst (fst (HgfsGetattrInt st path env)) in
  let va := snd (fst (HgfsGetattrInt st path env)) in
  let r := fst (HgfsAccessInt st path mode env) in
  snd (HgfsAccessInt st path mode env) = snd (HgfsGetattrInt st path env)
  /\ (ret <> 0 -> r = ret)
  /\ (ret = 0 -> forall va_mode, va = Some va_mode ->
      (r = 0 \/ r = EPERM)
      /\ (r = 0 <->
          forall k, 0 <= k < 12 ->
            Z.testbit mode k = true -> Z.testbit va_mode k = true)).
Proof.
  cbv zeta. unfold HgfsAccessInt.
  destruct (HgfsGetattrInt st path env) as [[ret va] st1]. cbn [fst snd].
  destruct (ret =? 0) eqn:Er; cbn [negb].
  2:{ apply Z.eqb_neq in Er. cbn [fst snd].
      split; [reflexivity|]. split; [reflexivity | intros C; contradiction]. }
  apply Z.eqb_eq in Er.
  assert (Hst : forall (b : bool) (x y : Z * VState),
            snd x = st1 -> snd y = st1 -> snd (if b then x else y) = st1)
    by (intros [] x y; auto).
  split.
  { repeat (apply Hst; [reflexivity|]). reflexivity. }
  split; [intros C; contradiction|].
  intros _ va_mode ->.
  change S_ISUID with (2 ^ 11). change S_ISGID with (2 ^ 10).
  change S_ISVTX with (2 ^ 9). change S_IRUSR with (2 ^ 8).
  change S_IWUSR with (2 ^ 7). change S_IXUSR with (2 ^ 6).
  change S_IRGRP with (2 ^ 5). change S_IWGRP with (2 ^ 4).
  change S_IXGRP with (2 ^ 3). change S_IROTH with (2 ^ 2).
  change S_IWOTH with (2 ^ 1). change S_IXOTH with (2 ^ 0).
  rewrite !lacks_bit by lia.
  access_step mode va_mode 11. access_step mode va_mode 10.
  access_step mode va_mode 9. access_step mode va_mode 8.
  access_step mode va_mode 7. access_step mode va_mode 6.
  access_step mode va_mode 5. access_step mode va_mode 4.
  access_step mode va_mode 3. access_step mode va_mode 2.
  access_step mode va_mode 1. access_step mode va_mode 0.
  cbn [fst]. split; [left; reflexivity|].
  split; [|reflexivity]. intros _ k Hk Hm.
  assert (Hcases : k = 0 \/ k = 1 \/ k = 2 \/ k = 3 \/ k = 4 \/ k = 5 \/ k = 6
                   \/ k = 7 \/ k = 8 \/ k = 9 \/ k = 10 \/ k = 11) by lia.
  repeat (destruct Hcases as [Hcases | Hcases]); subst k;
    match goal with
    | H : (Z.testbit mode ?j && negb (Z.testbit va_mode ?j)) = false,
      Hm : Z.testbit mode ?j = true |- Z.testbit va_mode ?j = true =>
        rewrite Hm in H; cbn [andb] in H;
        destruct (Z.testbit va_mode j); [reflexivity | discriminate]
    end.
Qed.

Lemma perm_field_mod (mode mask k : Z) :
  0 <= k -> Z.shiftr mask k = 7 ->
  Z.shiftr (Z.land mode mask) k = (mode / 2 ^ k) mod 8.
Proof.
  intros Hk Hmask. rewrite Z.shiftr_land, Hmask.
  change 7 with (Z.ones 3). rewrite Z.land_ones by lia.
  rewrite Z.shiftr_div_pow2 by exact Hk. reflexivity.
Qed.

(** X17.  With the permission fields of the protocol at bit 9 (special),
    6 (owner) and 3 (group), the four fields HgfsMkdirInt puts in its
    CREATE_DIR request are octal digits, and together they are the low
    twelve bits of the mode it was given: nothing of the permissions is
    lost or moved.  Every request the call submits carries these fields,
    and [*vpp] receives a vnode exactly when the call returns 0. *)
Theorem mkdir_sends_the_mode_permission_bits
    (st : VState) (mode : Z) (env : MkdirEnv) :
  HGFS_ATTR_SPECIAL_PERM_SHIFT = 9 ->
  HGFS_ATTR_OWNER_PERM_SHIFT = 6 ->
  HGFS_ATTR_GROUP_PERM_SHIFT = 3 ->
  let sp := fst (fst (fst (perm_fields mode))) in
  let ow := snd (fst (fst (perm_fields mode))) in
  let gr := snd (fst (perm_fields mode)) in
  let ot := snd (perm_fields mode) in
  (0 <= sp < 8 /\ 0 <= ow < 8 /\ 0 <= gr < 8 /\ 0 <= ot < 8)
  /\ sp * 512 + ow * 64 + gr * 8 + ot = mode mod 4096
  /\ (forall evs r op ret,
        vevents (snd (HgfsMkdirInt st mode env)) = vevents st ++ evs ->
        List.In (VSubmit r op ret) evs ->
        op = OP_CREATE_DIR_V3 sp ow gr ot)
  /\ (snd (fst (HgfsMkdirInt st mode env)) = true
      <-> fst (fst (HgfsMkdirInt st mode env)) = 0).
Proof.
  intros Hs Ho Hg. cbv zeta.
  assert (Hf : perm_fields mode
               = ((mode / 2 ^ 9) mod 8, (mode / 2 ^ 6) mod 8,
                  (mode / 2 ^ 3) mod 8, mode mod 8)).
  { unfold perm_fields. rewrite Hs, Ho, Hg.
    rewrite !perm_field_mod by (try lia; reflexivity).
    change S_IRWXO with (Z.ones 3). rewrite Z.land_ones by lia. reflexivity. }
  split; [|split; [|split]].
  - rewrite Hf. cbn [fst snd]. change (2 ^ 9) with 512. change (2 ^ 6) with 64.
    change (2 ^ 3) with 8. repeat split; apply Z.mod_pos_bound; lia.
  - rewrite Hf. cbn [fst snd]. change (2 ^ 9) with 512. change (2 ^ 6) with 64.
    change (2 ^ 3) with 8. Z.div_mod_to_equations. lia.
  - intros evs r op ret. unfold HgfsMkdirInt, VAllocateRequest.
    assert (Hnil : forall s : VState,
              vevents s = vevents st ++ evs -> s = st ->
              List.In (VSubmit r op ret) evs ->
              op = OP_CREATE_DIR_V3 (fst (fst (fst (perm_fields mode))))
                     (snd (fst (fst (perm_fields mode))))
                     (snd (fst (perm_fields mode))) (snd (perm_fields mode))).
    { intros s E -> Hin. rewrite <- (app_nil_r (vevents st)) in E at 1.
      apply List.app_inv_head in E. subst evs. destruct Hin. }
    destruct (mk_malloc env); cbn [negb]; [|intros E; apply (Hnil _ E eq_refl)].
    destruct (mk_makeFullName env <? 0); [intros E; apply (Hnil _ E eq_refl)|].
    destruct (free (vpool st)) as [|r0 fs]; [intros E; apply (Hnil _ E eq_refl)|].
    destruct (perm_fields mode) as [[[sp ow] gr] ot]. cbn [fst snd].
    unfold VReleaseRequest, VSubmitRequest. cbn [vevents vpool].
    assert (Hin : forall l,
              vevents st ++ l = vevents st ++ evs ->
              (forall e, List.In e l -> is_vsubmit e = true ->
                 e = VSubmit r0 (OP_CREATE_DIR_V3 sp ow gr ot) (mk_submit env)) ->
              List.In (VSubmit r op ret) evs ->
              op = OP_CREATE_DIR_V3 sp ow gr ot).
    { intros l E Hl Hi. apply List.app_inv_head in E. subst l.
      specialize (Hl _ Hi eq_refl). congruence. }
    assert (Hcheck : forall e l,
              List.In e l ->
              List.Forall (fun e => is_vsubmit e = true ->
                 e = VSubmit r0 (OP_CREATE_DIR_V3 sp ow gr ot) (mk_submit env)) l ->
              is_vsubmit e = true ->
              e = VSubmit r0 (OP_CREATE_DIR_V3 sp ow gr ot) (mk_submit env)).
    { intros e l Hi Hall. rewrite List.Forall_forall in Hall. auto. }
    destruct (mk_encode env <? 0); cbn [snd vevents].
    { rewrite <- !app_assoc. intros E. apply (Hin _ E).
      intros e Hi. apply (Hcheck e _ Hi).
      repeat constructor; cbn; discriminate. }
    destruct (mk_submit env =? 0); cbn [negb snd vevents].
    2:{ rewrite <- !app_assoc. intros E. apply (Hin _ E).
        intros e Hi. apply (Hcheck e _ Hi).
        repeat constructor; cbn; try discriminate; auto. }
    destruct (mk_status env =? 0); cbn [negb snd vevents].
    2:{ rewrite <- !app_assoc. intros E. apply (Hin _ E).
        intros e Hi. apply (Hcheck e _ Hi).
        repeat constructor; cbn; try discriminate; auto. }
    destruct (mk_vnodeGet env =? 0); cbn [negb snd vevents];
      rewrite <- !app_assoc; intros E; apply (Hin _ E);
      intros e Hi; apply (Hcheck e _ Hi);
      repeat constructor; cbn; try discriminate; auto.
  - unfold HgfsMkdirInt, VAllocateRequest.
    destruct (mk_malloc env); cbn [negb fst snd];
      [|unfold ENOMEM; split; [discriminate | lia]].
    destruct (mk_makeFullName env <? 0); cbn [fst snd];
      [unfold ENAMETOOLONG; split; [discriminate | lia]|].
    destruct (free (vpool st)) as [|r0 fs]; cbn [fst snd];
      [unfold ENOMEM; split; [discriminate | lia]|].
    destruct (perm_fields mode) as [[[sp ow] gr] ot].
    destruct (mk_encode env <? 0) eqn:Ee; cbn [fst snd].
    { apply Z.ltb_lt in Ee. split; [discriminate | lia]. }
    destruct (mk_submit env =? 0) eqn:Es; cbn [negb fst snd].
    2:{ apply Z.eqb_neq in Es. split; [discriminate | lia]. }
    destruct (mk_status env =? 0) eqn:Et; cbn [negb fst snd].
    2:{ apply Z.eqb_neq in Et. split; [discriminate | lia]. }
    destruct (mk_vnodeGet env =? 0); cbn [negb fst snd].
    + split; reflexivity.
    + unfold EIO. split; [discriminate | lia].
Qed.

Lemma getattr_attr_of_result (st : VState) (path : string) (env : GetattrEnv) :
  snd (fst (HgfsDoGetattrInt st (Some path) 0 env))
  = if fst (fst (HgfsDoGetattrInt st (Some path) 0 env)) =? 0
    then Some (ga_attr env) else None.
Proof.
  unfold HgfsDoGetattrInt, VAllocateRequest.
  destruct (free (vpool st)) as [|r fs]; [reflexivity|]. cbn [andb].
  destruct (ga_encode env <? 0) eqn:Ee; cbn [fst snd].
  { apply Z.ltb_lt in Ee.
    replace (- ga_encode env =? 0) with false
      by (symmetry; apply Z.eqb_neq; lia). reflexivity. }
  destruct (ga_submit env =? 0) eqn:Es; cbn [negb fst snd];
    [|rewrite Es; reflexivity].
  destruct (ga_status env =? 0) eqn:Et; cbn [negb fst snd];
    [|rewrite Et; reflexivity].
  destruct (ga_payloadSize env
            =? to_uint32 (repSize_getattr + ga_symlinkLen env));
    cbn [negb fst snd]; [rewrite Et|]; reflexivity.
Qed.

(** X24.  HgfsLookupInt returns 0 exactly when it hands back a vnode:
    the root vnode, for the path "/", without sending anything, or a new
    vnode of the type the server's getattr reply reported.  When the
    getattr fails with ENOENT the result is EJUSTRETURN for the last
    component of a CREATE or RENAME, and ENOENT otherwise; in both cases
    [*vpp] is left alone. *)
Theorem lookup_returns_vnode_iff_success (st : VState) (env : LookupEnv) :
  let ret := fst (fst (HgfsLookupInt st env)) in
  let vpp := snd (fst (HgfsLookupInt st env)) in
  (ret = 0 <-> vpp = VppRoot \/ exists t, vpp = VppNew t)
  /\ (vpp = VppRoot -> snd (HgfsLookupInt st env) = st)
  /\ (forall t, vpp = VppNew t -> t = attr_type (ga_attr (lk_getattr env)))
  /\ (lk_sip env = true -> lk_malloc env = true -> 0 <= lk_makeFullName env ->
      lk_path env <> "/"%string ->
      fst (fst (HgfsDoGetattrByName st (lk_path env) (lk_getattr env))) = ENOENT ->
      vpp = VppUntouched
      /\ ret = if lk_createOrRename env && lk_isLastCn env
               then EJUSTRETURN else ENOENT).
Proof.
  cbv zeta. unfold HgfsLookupInt.
  assert (Hfail : forall (z : Z) (s : VState), z <> 0 ->
            (z = 0 <-> VppUntouched = VppRoot \/ exists t, VppUntouched = VppNew t)
            /\ (VppUntouched = VppRoot -> s = st)
            /\ (forall t, VppUntouched = VppNew t ->
                  t = attr_type (ga_attr (lk_getattr env)))).
  { intros z s Hz. split; [|split].
    - split; [intros C; contradiction |].
      intros [C | [t C]]; discriminate.
    - intros C; discriminate.
    - intros t C; discriminate. }
  destruct (lk_sip env); cbn [negb fst snd].
  2:{ destruct (Hfail ENOTSUP st ltac:(unfold ENOTSUP; lia)) as (F1 & F2 & F3).
      split; [exact F1|]. split; [exact F2|]. split; [exact F3|].
      intros C; discriminate. }
  destruct (lk_malloc env); cbn [negb fst snd].
  2:{ destruct (Hfail ENOMEM st ltac:(unfold ENOMEM; lia)) as (F1 & F2 & F3).
      split; [exact F1|]. split; [exact F2|]. split; [exact F3|].
      intros _ C; discriminate. }
  destruct (lk_makeFullName env <? 0) eqn:El; cbn [fst snd].
  { destruct (Hfail EINVAL st ltac:(unfold EINVAL; lia)) as (F1 & F2 & F3).
    split; [exact F1|]. split; [exact F2|]. split; [exact F3|].
    apply Z.ltb_lt in El. intros _ _ C; lia. }
  destruct (String.eqb (lk_path env) "/") eqn:Ep; cbn [fst snd].
  { apply String.eqb_eq in Ep.
    split; [split; auto|]. split; [reflexivity|].
    split; [intros t C; discriminate|]. intros _ _ _ C; contradiction. }
  pose proof (getattr_attr_of_result st (lk_path env) (lk_getattr env)) as Hattr.
  unfold HgfsDoGetattrByName in *.
  destruct (HgfsDoGetattrInt st (Some (lk_path env)) 0 (lk_getattr env))
    as [[ret attr] st'].
  cbn [fst snd] in Hattr |- *.
  destruct ((ret =? ENOENT) && lk_createOrRename env && lk_isLastCn env) eqn:Ej;
    cbn [fst snd].
  { destruct (Hfail EJUSTRETURN st' ltac:(unfold EJUSTRETURN; lia))
      as (F1 & F2 & F3).
    split; [exact F1|]. split; [exact F2|]. split; [exact F3|].
    intros _ _ _ _ ->. rewrite Z.eqb_refl in Ej. cbn [andb] in Ej.
    rewrite Ej. auto. }
  destruct (ret =? 0) eqn:Er; cbn [negb fst snd].
  2:{ apply Z.eqb_neq in Er. destruct (Hfail ret st' Er) as (F1 & F2 & F3).
      split; [exact F1|]. split; [exact F2|]. split; [exact F3|].
      intros _ _ _ _ ->. rewrite Z.eqb_refl in Ej. cbn [andb] in Ej.
      rewrite Ej. auto. }
  apply Z.eqb_eq in Er. subst ret. cbn [Z.eqb] in Hattr. subst attr.
  destruct (lk_vnodeGet env =? 0) eqn:Ev; cbn [negb fst snd].
  - split; [split; eauto|]. split; [intros C; discriminate|].
    split; [intros t C; congruence|].
    intros _ _ _ _ C. unfold ENOENT in C. lia.
  - apply Z.eqb_neq in Ev. split; [|split; [|split]].
    + split; [intros C; contradiction |].
      intros [C | [t C]]; discriminate.
    + intros C; discriminate.
    + intros t C; discriminate.
    + intros _ _ _ _ C. unfold ENOENT in C. lia.
Qed.

End VnopsProperties.

(** ** HGFS: the write loop *)

Section WriteLoop.
Import Hgfs HgfsVnops.
Context {P : Params}.
Hypothesis Hio : 0 < HGFS_IO_MAX < 2 ^ 31.

(** One WRITE chunk of the loop, whatever the server says: it fails with a
    negative result, or the user's buffer has moved on by the chunk. *)
Lemma HgfsDoWrite_step st handle offset uiop
      (srv : Z -> list Byte.byte -> WriteReply) :
  0 < uio_resid uiop ->
  let size := chunk_size (uio_resid uiop) in
  let res := HgfsDoWrite st handle offset size uiop srv in
  (fst (fst res) < 0
   \/ (uio_resid (snd res) = uio_resid uiop - size
       /\ uio_buf (snd res) = List.skipn (Z.to_nat size) (uio_buf uiop)))
  /\ exists evs,
       events (snd (fst res)) = events st ++ evs
       /\ List.Forall (fun e => requested_size e <= HGFS_IO_MAX) evs.
Proof.
  intros Hres size res.
  assert (Hsize : size = Z.min (uio_resid uiop) HGFS_IO_MAX)
    by (apply chunk_size_spec; [exact Hio | lia]).
  subst res. unfold HgfsDoWrite, HgfsKReq_AllocateRequest.
  destruct (free (pool st)) as [|req fs].
  { cbn [fst snd]. split; [left; unfold ENOMEM; lia|].
    exists []. rewrite app_nil_r. split; [reflexivity | constructor]. }
  unfold uiomove_from_user.
  replace (Z.min size (uio_resid uiop)) with size by lia.
  set (payload := List.firstn (Z.to_nat size) (uio_buf uiop)).
  unfold HgfsKReq_ReleaseRequest, HgfsSubmitRequest. cbn [pool events].
  assert (Hle : 0 <= HGFS_IO_MAX) by lia.
  assert (Hsz : size <= HGFS_IO_MAX) by lia.
  destruct (wr_uiomove (srv offset payload) =? 0); cbn [negb fst snd events].
  2:{ split; [left; unfold EIO; lia|].
      eexists. split; [rewrite <- !app_assoc; reflexivity|].
      repeat constructor; cbn; lia. }
  assert (Hmoved : forall (z : Z) (s : KState),
            fst (fst (z, s, mkUio (uio_offset uiop + size)
                                  (uio_resid uiop - size)
                                  (List.skipn (Z.to_nat size) (uio_buf uiop)))) < 0
            \/ (uio_resid (snd (z, s, mkUio (uio_offset uiop + size)
                                  (uio_resid uiop - size)
                                  (List.skipn (Z.to_nat size) (uio_buf uiop))))
                = uio_resid uiop - size
                /\ uio_buf (snd (z, s, mkUio (uio_offset uiop + size)
                                  (uio_resid uiop - size)
                                  (List.skipn (Z.to_nat size) (uio_buf uiop))))
                   = List.skipn (Z.to_nat size) (uio_buf uiop)))
    by (intros z s; right; split; reflexivity).
  destruct (wr_submit (srv offset payload) =? 0); cbn [negb].
  2:{ split; [apply Hmoved|]. cbn [fst snd events].
      eexists. split; [rewrite <- !app_assoc; reflexivity|].
      repeat constructor; cbn; lia. }
  destruct (wr_status (srv offset payload) =? 0); cbn [negb].
  2:{ split; [apply Hmoved|]. cbn [fst snd events].
      eexists. split; [rewrite <- !app_assoc; reflexivity|].
      repeat constructor; cbn; lia. }
  destruct (wr_payloadSize (srv offset payload) =? repSize_write); cbn [negb];
    (split; [apply Hmoved|]); cbn [fst snd events];
    eexists; (split; [rewrite <- !app_assoc; reflexivity|]);
    repeat constructor; cbn; lia.
Qed.

Lemma write_loop_returns (fuel : nat) :
  forall server i st handle offset uiop,
    0 < uio_resid uiop ->
    (Z.to_nat (uio_resid uiop) <= fuel)%nat ->
    exists res, write_loop fuel server i st handle offset uiop = Some res.
Proof.
  induction fuel as [|fuel IH]; intros server i st handle offset uiop Hres Hfuel;
    [lia|].
  cbn [write_loop].
  pose proof (HgfsDoWrite_step st handle offset uiop (server i) Hres) as [Hc _].
  cbv zeta in Hc.
  assert (Hsize : chunk_size (uio_resid uiop)
                  = Z.min (uio_resid uiop) HGFS_IO_MAX)
    by (apply chunk_size_spec; [exact Hio | lia]).
  destruct (HgfsDoWrite st handle offset (chunk_size (uio_resid uiop)) uiop
              (server i)) as [[ret st1] uiop1].
  cbn [fst snd] in Hc.
  destruct (ret <? 0) eqn:En; [eauto|].
  destruct (uio_resid uiop1 =? 0) eqn:E0; [eauto|].
  apply Z.ltb_ge in En. apply Z.eqb_neq in E0.
  destruct Hc as [Hneg | [Hr _]]; [lia|].
  apply IH; lia.
Qed.

Lemma write_loop_requests (fuel : nat) :
  forall server i st handle offset uiop res,
    0 < uio_resid uiop ->
    write_loop fuel server i st handle offset uiop = Some res ->
    exists evs,
      events (snd (fst res)) = events st ++ evs
      /\ List.Forall (fun e => requested_size e <= HGFS_IO_MAX) evs.
Proof.
  induction fuel as [|fuel IH]; intros server i st handle offset uiop res Hres;
    [discriminate|].
  cbn [write_loop].
  pose proof (HgfsDoWrite_step st handle offset uiop (server i) Hres)
    as [Hc (evs & Hev & Hall)].
  cbv zeta in Hc, Hev.
  assert (Hsize : chunk_size (uio_resid uiop)
                  = Z.min (uio_resid uiop) HGFS_IO_MAX)
    by (apply chunk_size_spec; [exact Hio | lia]).
  destruct (HgfsDoWrite st handle offset (chunk_size (uio_resid uiop)) uiop
              (server i)) as [[ret st1] uiop1].
  cbn [fst snd] in Hc, Hev.
  destruct (ret <? 0) eqn:En.
  { intros H; inversion H; subst. exists evs. auto. }
  destruct (uio_resid uiop1 =? 0) eqn:E0.
  { intros H; inversion H; subst. exists evs. auto. }
  apply Z.ltb_ge in En. apply Z.eqb_neq in E0.
  destruct Hc as [Hneg | [Hr _]]; [lia|].
  intros H. apply IH in H; [|lia].
  destruct H as (evs2 & Hev2 & Hall2). exists (evs ++ evs2).
  split; [rewrite Hev2, Hev, app_assoc; reflexivity|].
  apply List.Forall_app. auto.
Qed.

(** X18.  HgfsWriteInt returns against every server, whatever its replies
    say: each chunk that does not fail takes its bytes out of the user's
    buffer whether or not the server reports them written, so the loop
    needs at most one iteration per byte.  Every request it sends carries
    at most HGFS_IO_MAX bytes. *)
Theorem write_returns_against_any_server
    (server : WriteServer) (st : KState) (vp : vnode) (uiop : uio Byte.byte) :
  0 <= uio_resid uiop ->
  (exists res,
     HgfsWriteInt (S (Z.to_nat (uio_resid uiop))) server st vp uiop = Some res)
  /\ (forall fuel res,
        HgfsWriteInt fuel server st vp uiop = Some res ->
        exists evs,
          events (snd (fst res)) = events st ++ evs
          /\ List.Forall (fun e => requested_size e <= HGFS_IO_MAX) evs).
Proof.
  intros Hres.
  assert (Hnone : forall r : Z * KState * uio Byte.byte,
            snd (fst r) = st ->
            exists evs, events (snd (fst r)) = events st ++ evs
              /\ List.Forall (fun e => requested_size e <= HGFS_IO_MAX) evs).
  { intros r Hr. exists []. rewrite Hr, app_nil_r. auto. }
  unfold HgfsWriteInt.
  destruct (uio_resid uiop =? 0) eqn:E0.
  { split; [eauto|]. intros fuel res H; inversion H; subst.
    apply Hnone. reflexivity. }
  apply Z.eqb_neq in E0.
  destruct (uio_offset uiop <? 0).
  { split; [eauto|]. intros fuel res H; inversion H; subst.
    apply Hnone. reflexivity. }
  destruct (v_handle vp) as [handle|].
  2:{ split; [eauto|]. intros fuel res H; inversion H; subst.
      apply Hnone. reflexivity. }
  split.
  - apply write_loop_returns; lia.
  - intros fuel res H. eapply write_loop_requests; [|eassumption]. lia.
Qed.

Lemma write_loop_accepting (fuel : nat) :
  forall server i ev fs r iu mi handle offset uiop,
    accepting server ->
    0 < uio_resid uiop ->
    uio_resid uiop = Z.of_nat (List.length (uio_buf uiop)) ->
    0 <= offset -> offset + uio_resid uiop < 2 ^ 64 ->
    (Z.to_nat (uio_resid uiop) <= fuel)%nat ->
    exists u' evs,
      write_loop fuel server i (mkKState (mkPool (r :: fs) iu mi) ev)
                 handle offset uiop
      = Some (0, mkKState (mkPool (r :: fs) iu mi) (ev ++ evs), u')
      /\ uio_buf u' = [] /\ uio_resid u' = 0
      /\ contiguous offset (write_requests evs)
      /\ List.concat (List.map snd (write_requests evs)) = uio_buf uiop.
Proof.
  induction fuel as [|fuel IH];
    intros server i ev fs r iu mi handle offset uiop Hacc Hres Hlen Hoff Hmax Hfuel;
    [lia|].
  cbn [write_loop].
  assert (Hsize : chunk_size (uio_resid uiop)
                  = Z.min (uio_resid uiop) HGFS_IO_MAX)
    by (apply chunk_size_spec; [exact Hio | lia]).
  set (size := chunk_size (uio_resid uiop)) in *.
  unfold HgfsDoWrite, HgfsKReq_AllocateRequest. cbn [pool free inuse misuse events].
  unfold uiomove_from_user.
  replace (Z.min size (uio_resid uiop)) with size by lia.
  set (payload := List.firstn (Z.to_nat size) (uio_buf uiop)).
  assert (Hpl : Z.of_nat (List.length payload) = size).
  { unfold payload. rewrite List.length_firstn. lia. }
  rewrite (Hacc i offset payload).
  cbn [wr_uiomove wr_submit wr_status wr_payloadSize wr_actualSize Z.eqb negb].
  rewrite Z.eqb_refl. cbn [negb].
  unfold HgfsKReq_ReleaseRequest, HgfsSubmitRequest.
  cbn [pool events Z.eqb]. rewrite pool_put_after_alloc.
  rewrite Hpl. rewrite to_int32_small by lia.
  replace (size <? 0) with false by (symmetry; apply Z.ltb_ge; lia).
  cbn [uio_resid]. rewrite <- !app_assoc. cbn [app].
  destruct (uio_resid uiop - size =? 0) eqn:E0.
  - apply Z.eqb_eq in E0.
    eexists. eexists. split; [reflexivity|].
    cbn [uio_buf uio_resid write_requests contiguous List.map List.concat snd].
    split.
    { apply List.skipn_all2. lia. }
    split; [exact E0|]. split; [auto|].
    rewrite app_nil_r. unfold payload. apply List.firstn_all2. lia.
  - apply Z.eqb_neq in E0.
    rewrite to_uint64_small by lia.
    destruct (IH server (S i)
                (ev ++ [EvAlloc r;
                        EvSubmit r (OP_WRITE_V3 handle offset size payload) 0;
                        EvRelease r])
                fs r iu mi handle (offset + size)
                (mkUio (uio_offset uiop + size) (uio_resid uiop - size)
                       (List.skipn (Z.to_nat size) (uio_buf uiop))))
      as (u' & evs2 & Hrun & Hbuf & Hr0 & Hcont & Hcat);
      cbn [uio_resid uio_buf]; try lia; try assumption.
    { rewrite List.length_skipn. lia. }
    rewrite <- app_assoc in Hrun. cbn [app] in Hrun.
    rewrite Hrun.
    exists u'. eexists. split; [reflexivity|].
    split; [exact Hbuf|]. split; [exact Hr0|].
    cbn [write_requests contiguous List.map List.concat snd].
    rewrite Hpl. split; [auto|].
    rewrite Hcat. unfold payload. apply List.firstn_skipn.
Qed.

(** X19.  Against a server that takes every WRITE request whole, a write
    of the user's buffer at [uio_offset] returns 0, consumes the whole
    buffer, and the WRITE requests it sent follow one another from
    [uio_offset] without gap or overlap, their payloads making up exactly
    the user's bytes in order; the pool is as before. *)
Theorem accepted_write_is_contiguous
    (server : WriteServer) (st : KState) (vp : vnode) (uiop : uio Byte.byte)
    (handle : HgfsHandle) :
  accepting server ->
  free (pool st) <> [] ->
  v_handle vp = Some handle ->
  0 <= uio_offset uiop ->
  uio_resid uiop = Z.of_nat (List.length (uio_buf uiop)) ->
  uio_offset uiop + uio_resid uiop < 2 ^ 63 ->
  exists st' u' evs,
    HgfsWriteInt (S (Z.to_nat (uio_resid uiop))) server st vp uiop
    = Some (0, st', u')
    /\ uio_buf u' = [] /\ uio_resid u' = 0
    /\ pool st' = pool st
    /\ events st' = events st ++ evs
    /\ contiguous (uio_offset uiop) (write_requests evs)
    /\ List.concat (List.map snd (write_requests evs)) = uio_buf uiop.
Proof.
  intros Hacc Hfree Hh Hoff Hlen Hmax. unfold HgfsWriteInt.
  destruct (uio_resid uiop =? 0) eqn:E0.
  { apply Z.eqb_eq in E0. exists st, uiop, [].
    split; [reflexivity|].
    assert (Hb : uio_buf uiop = []).
    { destruct (uio_buf uiop); [reflexivity | cbn in Hlen; lia]. }
    rewrite app_nil_r, Hb. cbn. auto 10. }
  apply Z.eqb_neq in E0.
  replace (uio_offset uiop <? 0) with false by (symmetry; apply Z.ltb_ge; lia).
  rewrite Hh. rewrite to_uint64_small by lia.
  destruct st as [[fr iu mi] ev]. cbn [pool free events] in *.
  destruct fr as [|r fs]; [congruence|].
  destruct (write_loop_accepting (S (Z.to_nat (uio_resid uiop))) server 0%nat
              ev fs r iu mi handle (uio_offset uiop) uiop)
    as (u' & evs & Hrun & Hbuf & Hr0 & Hcont & Hcat);
    try assumption; try lia.
  rewrite Hrun. exists (mkKState (mkPool (r :: fs) iu mi) (ev ++ evs)), u', evs.
  cbn [pool events]. auto 10.
Qed.

End WriteLoop.

(** ** HGFS: the loops and the request pool *)

Section LoopProperties.
Import Hgfs HgfsVnops.
Context {P : Params}.

Lemma read_loop_pool (fuel : nat) :
  forall server i st handle offset uiop res,
    read_loop fuel server i st handle offset uiop = Some res ->
    pool (snd (fst res)) = pool st.
Proof.
  induction fuel as [|fuel IH]; intros server i st handle offset uiop res;
    [discriminate|].
  cbn [read_loop].
  destruct (run_marshal_trace
              (MRead handle offset (chunk_size (uio_resid uiop)) uiop
                     (server i offset (chunk_size (uio_resid uiop)))) st)
    as (evs & _ & Hp & _).
  cbn [run_marshal] in Hp.
  destruct (HgfsDoRead st handle offset (chunk_size (uio_resid uiop)) uiop
              (server i offset (chunk_size (uio_resid uiop))))
    as [[ret st1] uiop1].
  cbn [fst snd] in Hp.
  destruct (ret =? 0); [intros H; inversion H; exact Hp|].
  destruct (ret <? 0); [intros H; inversion H; exact Hp|].
  destruct (uio_resid uiop1 =? 0); [intros H; inversion H; exact Hp|].
  intros H. apply IH in H. congruence.
Qed.

Lemma write_loop_pool (fuel : nat) :
  forall server i st handle offset uiop res,
    write_loop fuel server i st handle offset uiop = Some res ->
    pool (snd (fst res)) = pool st.
Proof.
  induction fuel as [|fuel IH]; intros server i st handle offset uiop res;
    [discriminate|].
  cbn [write_loop].
  destruct (run_marshal_trace
              (MWrite handle offset (chunk_size (uio_resid uiop)) uiop
                      (server i)) st)
    as (evs & _ & Hp & _).
  cbn [run_marshal] in Hp.
  destruct (HgfsDoWrite st handle offset (chunk_size (uio_resid uiop)) uiop
              (server i)) as [[ret st1] uiop1].
  cbn [fst snd] in Hp.
  destruct (ret <? 0); [intros H; inversion H; exact Hp|].
  destruct (uio_resid uiop1 =? 0); [intros H; inversion H; exact Hp|].
  intros H. apply IH in H. congruence.
Qed.

(** The readdir loop: the pool, and the accounting of the user's buffer. *)
Lemma readdir_loop_accounting (fuel : nat) :
  forall env i st handle offset done uiop eofp r,
    readdir_loop fuel env i st handle offset done uiop eofp = Some r ->
    pool (re_state r) = pool st
    /\ exists new,
         uio_buf (re_uio r) = uio_buf uiop ++ new
         /\ uio_resid (re_uio r)
            = uio_resid uiop - sizeof_dirent * Z.of_nat (List.length new)
         /\ List.Forall (fun d => d_reclen d = sizeof_dirent) new
         /\ (0 <= uio_resid uiop -> 0 <= uio_resid (re_uio r)).
Proof.
  induction fuel as [|fuel IH];
    intros env i st handle offset done uiop eofp r; [discriminate|].
  cbn [readdir_loop].
  destruct (run_marshal_trace
              (MNextDirEntry handle (to_uint32 offset) sizeof_d_name
                             (rd_server env i (to_uint32 offset))) st)
    as (evs & _ & Hp & _).
  cbn [run_marshal] in Hp.
  destruct (HgfsGetNextDirEntry st handle (to_uint32 offset) sizeof_d_name
              (rd_server env i (to_uint32 offset))) as [ne st1].
  cbn [snd] in Hp.
  assert (Hsame : forall (z : Z) (o : option bool),
            pool (re_state (mkReaddirEnd z uiop o st1)) = pool st
            /\ exists new,
                 uio_buf (re_uio (mkReaddirEnd z uiop o st1))
                 = uio_buf uiop ++ new
                 /\ uio_resid (re_uio (mkReaddirEnd z uiop o st1))
                    = uio_resid uiop
                      - sizeof_dirent * Z.of_nat (List.length new)
                 /\ List.Forall (fun d => d_reclen d = sizeof_dirent) new
                 /\ (0 <= uio_resid uiop ->
                     0 <= uio_resid (re_uio (mkReaddirEnd z uiop o st1)))).
  { intros z o. cbn [re_state re_uio]. split; [exact Hp|].
    exists []. rewrite app_nil_r. cbn [List.length].
    split; [reflexivity|]. split; [lia|]. split; [constructor | auto]. }
  assert (Hset : forall (z o' : Z) (o : option bool),
            pool (re_state (mkReaddirEnd z (set_offset uiop o') o st1)) = pool st
            /\ exists new,
                 uio_buf (re_uio (mkReaddirEnd z (set_offset uiop o') o st1))
                 = uio_buf uiop ++ new
                 /\ uio_resid (re_uio (mkReaddirEnd z (set_offset uiop o') o st1))
                    = uio_resid uiop
                      - sizeof_dirent * Z.of_nat (List.length new)
                 /\ List.Forall (fun d => d_reclen d = sizeof_dirent) new
                 /\ (0 <= uio_resid uiop ->
                     0 <= uio_resid
                            (re_uio (mkReaddirEnd z (set_offset uiop o') o st1)))).
  { intros z o' o. cbn [re_state re_uio set_offset uio_buf uio_resid].
    split; [exact Hp|].
    exists []. rewrite app_nil_r. cbn [List.length].
    split; [reflexivity|]. split; [lia|]. split; [constructor | auto]. }
  assert (Hskip : forall d,
            readdir_loop fuel env (S i) st1 handle (to_uint64 (offset + 1)) d
                         uiop eofp = Some r ->
            pool (re_state r) = pool st
            /\ exists new,
                 uio_buf (re_uio r) = uio_buf uiop ++ new
                 /\ uio_resid (re_uio r)
                    = uio_resid uiop
                      - sizeof_dirent * Z.of_nat (List.length new)
                 /\ List.Forall (fun d => d_reclen d = sizeof_dirent) new
                 /\ (0 <= uio_resid uiop -> 0 <= uio_resid (re_uio r))).
  { intros d H. apply IH in H. destruct H as [H1 H2].
    split; [congruence | exact H2]. }
  destruct (ne_ret ne =? EOVERFLOW); [apply Hskip|].
  destruct (ne_ret ne =? 0); cbn [negb];
    [|intros H; inversion H; apply Hsame].
  destruct (done || ne_done ne); [intros H; inversion H; apply Hset|].
  destruct (HgfsNameFromWireEncoding env
              match ne_name ne with Some n => n | None => [] end)
    as [ret name].
  destruct (ret <? 0); [apply Hskip|].
  destruct (uio_resid uiop <? sizeof_dirent) eqn:Eroom;
    [intros H; inversion H; apply Hset|].
  apply Z.ltb_ge in Eroom.
  destruct (HgfsMakeFullName env name ret) as [ret' fullName].
  destruct (ret' <? 0); [apply Hskip|].
  destruct (rd_uiomove env i =? 0); cbn [negb];
    [|intros H; inversion H; apply Hsame].
  intros H. apply IH in H.
  destruct H as (H1 & new & Hb & Hr & Hall & Hpos).
  split; [congruence|].
  unfold uiomove_dirent in Hb, Hr, Hpos. cbn [uio_buf uio_resid d_reclen] in *.
  replace (Z.min sizeof_dirent (uio_resid uiop)) with sizeof_dirent in * by lia.
  eexists. split; [rewrite Hb, <- app_assoc; reflexivity|].
  split.
  { rewrite Hr. cbn [app List.length]. lia. }
  split.
  { cbn [app]. constructor; [reflexivity | exact Hall]. }
  intros H0. apply Hpos. lia.
Qed.

(** X20.  Whatever the server answers, and however many requests they
    send, HgfsReadInt, HgfsWriteInt and HgfsReaddirInt leave the request
    pool as they found it when they return: the same buffers free, none
    outstanding that was not before, no release miscounted. *)
Theorem io_loops_restore_the_pool :
  (forall fuel server st vp uiop res,
     HgfsReadInt fuel server st vp uiop = Some res ->
     pool (snd (fst res)) = pool st)
  /\ (forall fuel server st vp uiop res,
        HgfsWriteInt fuel server st vp uiop = Some res ->
        pool (snd (fst res)) = pool st)
  /\ (forall fuel env st vp uiop eofp r,
        HgfsReaddirInt fuel env st vp uiop eofp = Some r ->
        pool (re_state r) = pool st).
Proof.
  split; [|split].
  - intros fuel server st vp uiop res. unfold HgfsReadInt.
    destruct (v_isdir vp); [intros H; inversion H; reflexivity|].
    destruct (uio_offset uiop <? 0); [intros H; inversion H; reflexivity|].
    destruct (v_handle vp); [|intros H; inversion H; reflexivity].
    apply read_loop_pool.
  - intros fuel server st vp uiop res. unfold HgfsWriteInt.
    destruct (uio_resid uiop =? 0); [intros H; inversion H; reflexivity|].
    destruct (uio_offset uiop <? 0); [intros H; inversion H; reflexivity|].
    destruct (v_handle vp); [|intros H; inversion H; reflexivity].
    apply write_loop_pool.
  - intros fuel env st vp uiop eofp r. unfold HgfsReaddirInt.
    destruct (uio_offset uiop <? 0); [intros H; inversion H; reflexivity|].
    destruct (v_handle vp); [|intros H; inversion H; reflexivity].
    destruct (rd_malloc env); cbn [negb];
      [|intros H; inversion H; reflexivity].
    intros H. apply readdir_loop_accounting in H. apply H.
Qed.

(** X21.  A read of zero bytes from an open regular file still asks the
    server: with a free request buffer HgfsReadInt allocates it and
    submits one READ request for 0 bytes at the offset, its loop ends
    after that one request, and the user's buffer is not touched whatever
    the reply.  A write of zero bytes returns 0 at once and sends
    nothing. *)
Theorem zero_length_read_asks_server_write_does_not
    (rserver : ReadServer) (wserver : WriteServer) (st : KState) (vp : vnode)
    (uiop : uio Byte.byte) (handle : HgfsHandle) (r : HgfsKReqHandle)
    (fs : list HgfsKReqHandle) :
  0 <= HGFS_IO_MAX ->
  v_isdir vp = false -> v_handle vp = Some handle ->
  0 <= uio_offset uiop < 2 ^ 64 -> uio_resid uiop = 0 ->
  free (pool st) = r :: fs ->
  0 <= rr_actualSize (rserver 0%nat (uio_offset uiop) 0) ->
  (forall fuel, HgfsWriteInt fuel wserver st vp uiop = Some (0, st, uiop))
  /\ exists ret st' tail,
       HgfsReadInt 1 rserver st vp uiop = Some (ret, st', uiop)
       /\ events st'
          = events st
            ++ EvAlloc r
               :: EvSubmit r (OP_READ_V3 handle (uio_offset uiop) 0)
                           (rr_submit (rserver 0%nat (uio_offset uiop) 0))
               :: tail
       /\ List.Forall (fun e => is_submit e = false) tail.
Proof.
  intros Hio Hdir Hh Hoff Hres Hfree Hact. split.
  { intros fuel. unfold HgfsWriteInt. rewrite Hres. reflexivity. }
  unfold HgfsReadInt. rewrite Hdir, Hh.
  replace (uio_offset uiop <? 0) with false by (symmetry; apply Z.ltb_ge; lia).
  rewrite to_uint64_small by lia.
  cbn [read_loop]. rewrite Hres.
  assert (Hc : chunk_size 0 = 0).
  { unfold chunk_size.
    replace (HGFS_IO_MAX <? 0) with false by (symmetry; apply Z.ltb_ge; lia).
    reflexivity. }
  rewrite Hc.
  set (env := rserver 0%nat (uio_offset uiop) 0) in *.
  unfold HgfsDoRead, HgfsKReq_AllocateRequest. rewrite Hfree.
  unfold HgfsKReq_ReleaseRequest, HgfsSubmitRequest. cbn [pool events].
  destruct (rr_submit env =? 0) eqn:Es; cbn [negb].
  2:{ apply Z.eqb_neq in Es.
      replace (- rr_submit env =? 0) with false
        by (symmetry; apply Z.eqb_neq; lia).
      destruct (- rr_submit env <? 0).
      - do 3 eexists. split; [reflexivity|]. cbn [events].
        split; [rewrite <- app_assoc; reflexivity | constructor].
      - rewrite Hres. cbn [Z.eqb].
        do 3 eexists. split; [reflexivity|]. cbn [events].
        split; [rewrite <- app_assoc; reflexivity | constructor]. }
  destruct (rr_status env =? 0) eqn:Et; cbn [negb].
  2:{ assert (Hneg : - (if negb (rr_status env =? EPROTO) then EACCES
                        else rr_status env) < 0).
      { destruct (rr_status env =? EPROTO) eqn:Ep; cbn [negb].
        - apply Z.eqb_eq in Ep. rewrite Ep. unfold EPROTO. lia.
        - unfold EACCES. lia. }
      replace (- (if negb (rr_status env =? EPROTO) then EACCES
                  else rr_status env) =? 0) with false
        by (symmetry; apply Z.eqb_neq; lia).
      replace (- (if negb (rr_status env =? EPROTO) then EACCES
                  else rr_status env) <? 0) with true
        by (symmetry; apply Z.ltb_lt; lia).
      do 3 eexists. split; [reflexivity|]. cbn [events].
      split; [rewrite <- !app_assoc; reflexivity|].
      repeat constructor. }
  destruct (rr_actualSize env <=? 0) eqn:Ea.
  - apply Z.leb_le in Ea.
    replace (rr_actualSize env) with 0 by lia. cbn [Z.eqb].
    change (to_int32 0 =? 0) with true. cbv iota.
    do 3 eexists. split; [reflexivity|]. cbn [events].
    split; [rewrite <- !app_assoc; reflexivity|].
    repeat constructor.
  - change (- EPROTO =? 0) with false. change (- EPROTO <? 0) with true.
    cbv iota.
    do 3 eexists. split; [reflexivity|]. cbn [events].
    split; [rewrite <- !app_assoc; reflexivity|].
    repeat constructor.
Qed.

(** X22.  HgfsReaddirInt only appends to the user's buffer; every entry it
    appends has the record length [sizeof *dirp], the space left goes down
    by that much per entry, and it never goes below zero: no entry is
    copied out unless a whole record still fits. *)
Theorem readdir_never_overruns_buffer
    (fuel : nat) (env : ReaddirEnv) (st : KState) (vp : vnode)
    (uiop : uio dirent) (eofp : option bool) (r : ReaddirEnd) :
  HgfsReaddirInt fuel env st vp uiop eofp = Some r ->
  exists new,
    uio_buf (re_uio r) = uio_buf uiop ++ new
    /\ uio_resid (re_uio r)
       = uio_resid uiop - sizeof_dirent * Z.of_nat (List.length new)
    /\ List.Forall (fun d => d_reclen d = sizeof_dirent) new
    /\ (0 <= uio_resid uiop -> 0 <= uio_resid (re_uio r)).
Proof.
  unfold HgfsReaddirInt.
  assert (Hnone : forall z,
            Some (mkReaddirEnd z uiop eofp st) = Some r ->
            exists new,
              uio_buf (re_uio r) = uio_buf uiop ++ new
              /\ uio_resid (re_uio r)
                 = uio_resid uiop - sizeof_dirent * Z.of_nat (List.length new)
              /\ List.Forall (fun d => d_reclen d = sizeof_dirent) new
              /\ (0 <= uio_resid uiop -> 0 <= uio_resid (re_uio r))).
  { intros z H. inversion H; subst. cbn [re_uio].
    exists []. rewrite app_nil_r. cbn [List.length].
    split; [reflexivity|]. split; [lia|]. split; [constructor | auto]. }
  destruct (uio_offset uiop <? 0); [apply Hnone|].
  destruct (v_handle vp); [|apply Hnone].
  destruct (rd_malloc env); cbn [negb]; [|apply Hnone].
  intros H. apply readdir_loop_accounting in H. apply H.
Qed.

(** X23.  HgfsGetNextDirEntry hands out a name only with result 0 and
    [*done] unset, together with the entry's type; the name is a prefix of
    the reply's name, strictly shorter than the caller's buffer, so its
    terminating NUL fits.  [*done] is set only with result 0 and without a
    name; an error result comes with neither. *)
Theorem next_dir_entry_name_fits
    (st : KState) (handle : HgfsHandle) (offset nameSize : Z) (env : DirReply) :
  let ne := fst (HgfsGetNextDirEntry st handle offset nameSize env) in
  (forall n, ne_name ne = Some n ->
     ne_ret ne = 0 /\ ne_done ne = false /\ ne_type ne = Some (dr_type env)
     /\ Z.of_nat (List.length n) < nameSize
     /\ Z.of_nat (List.length n) <= HGFS_PAYLOAD_MAX repSize_searchRead
     /\ n = List.firstn (List.length n) (dr_name env))
  /\ (ne_done ne = true -> ne_ret ne = 0 /\ ne_name ne = None)
  /\ (ne_ret ne <> 0 -> ne_name ne = None /\ ne_done ne = false).
Proof.
  cbv zeta. unfold HgfsGetNextDirEntry, HgfsKReq_AllocateRequest.
  assert (Hno : forall (z : Z) (d : bool), (d = true -> z = 0) ->
            (forall n, ne_name (mkNextEntry z None None d) = Some n ->
               ne_ret (mkNextEntry z None None d) = 0
               /\ ne_done (mkNextEntry z None None d) = false
               /\ ne_type (mkNextEntry z None None d) = Some (dr_type env)
               /\ Z.of_nat (List.length n) < nameSize
               /\ Z.of_nat (List.length n) <= HGFS_PAYLOAD_MAX repSize_searchRead
               /\ n = List.firstn (List.length n) (dr_name env))
            /\ (ne_done (mkNextEntry z None None d) = true ->
                ne_ret (mkNextEntry z None None d) = 0
                /\ ne_name (mkNextEntry z None None d) = None)
            /\ (ne_ret (mkNextEntry z None None d) <> 0 ->
                ne_name (mkNextEntry z None None d) = None
                /\ ne_done (mkNextEntry z None None d) = false)).
  { intros z d Hd. cbn [ne_name ne_ret ne_done ne_type].
    split; [intros n C; discriminate|]. split; [auto|].
    intros Hz. split; [reflexivity|].
    destruct d; [|reflexivity]. specialize (Hd eq_refl). contradiction. }
  destruct (free (pool st)) as [|r fs]; cbn [fst].
  { apply Hno. intros C; discriminate. }
  destruct (dr_submit env =? 0); cbn [negb fst];
    [|apply Hno; intros C; discriminate].
  destruct (dr_status env =? 0); cbn [negb fst];
    [|apply Hno; intros C; discriminate].
  destruct (dr_payloadSize env <? repSize_searchRead); cbn [fst];
    [apply Hno; intros C; discriminate|].
  destruct (dr_nameLength env <=? 0) eqn:El; cbn [fst];
    [apply Hno; reflexivity|].
  destruct ((nameSize <=? dr_nameLength env)
            || (HGFS_PAYLOAD_MAX repSize_searchRead <? dr_nameLength env))
    eqn:Eo; cbn [fst]; [apply Hno; intros C; discriminate|].
  apply Z.leb_gt in El. apply Bool.orb_false_iff in Eo. destruct Eo as [E1 E2].
  apply Z.leb_gt in E1. apply Z.ltb_ge in E2.
  cbn [ne_name ne_ret ne_done ne_type].
  split; [|split; [intros C; discriminate | intros C; contradiction]].
  intros n Hn. inversion Hn; subst n. clear Hn.
  split; [reflexivity|]. split; [reflexivity|]. split; [reflexivity|].
  rewrite List.length_firstn.
  split; [lia|]. split; [lia|].
  destruct (Nat.le_ge_cases (Z.to_nat (dr_nameLength env))
                            (List.length (dr_name env))) as [H|H].
  - rewrite Nat.min_l by exact H. reflexivity.
  - rewrite Nat.min_r by exact H. rewrite List.firstn_all.
    apply List.firstn_all2. exact H.
Qed.

(** X25.  HgfsRemoveInt, HgfsRmdirInt and HgfsOpenInt add the events of at
    most one request to the pool's history and leave the pool as it was.
    HgfsRemoveInt refuses a directory with EPERM, and HgfsOpenInt a vnode
    that is neither a directory nor a regular file with EINVAL, both
    without allocating or sending anything. *)
Theorem remove_and_open_dispatch
    (st : KState) (vt : vtype) (dlenv : DeleteEnv) (denv : DirOpenEnv)
    (fenv : FileOpenEnv) :
  (exists evs,
     events (snd (HgfsRemoveInt st vt dlenv)) = events st ++ evs
     /\ pool (snd (HgfsRemoveInt st vt dlenv)) = pool st
     /\ op_trace evs
     /\ (vt = VDIR -> evs = [] /\ fst (HgfsRemoveInt st vt dlenv) = EPERM))
  /\ (exists evs,
        events (snd (HgfsRmdirInt st dlenv)) = events st ++ evs
        /\ pool (snd (HgfsRmdirInt st dlenv)) = pool st
        /\ op_trace evs)
  /\ (exists evs,
        events (snd (HgfsOpenInt st vt denv fenv)) = events st ++ evs
        /\ pool (snd (HgfsOpenInt st vt denv fenv)) = pool st
        /\ op_trace evs
        /\ (vt <> VDIR -> vt <> VREG ->
            evs = [] /\ fst (HgfsOpenInt st vt denv fenv) = EINVAL)).
Proof.
  pose proof (run_marshal_trace (MDelete dlenv) st) as (e1 & D1 & D2 & D3).
  pose proof (run_marshal_trace (MDirOpen denv) st) as (e2 & O1 & O2 & O3).
  pose proof (run_marshal_trace (MFileOpen fenv) st) as (e3 & F1 & F2 & F3).
  cbn [run_marshal] in *.
  assert (Hnil : forall z : Z,
            events (snd (z, st)) = events st ++ []
            /\ pool (snd (z, st)) = pool st /\ op_trace [])
    by (intros z; cbn [snd]; rewrite app_nil_r; repeat split; constructor).
  split; [|split].
  - unfold HgfsRemoveInt.
    destruct vt;
      try (exists e1; split; [exact D1|]; split; [exact D2|];
           split; [exact D3 | intros C; discriminate]).
    exists []. destruct (Hnil EPERM) as (H1 & H2 & H3). auto 10.
  - unfold HgfsRmdirInt. exists e1. auto.
  - unfold HgfsOpenInt.
    destruct vt;
      try (exists []; destruct (Hnil EINVAL) as (H1 & H2 & H3);
           split; [exact H1|]; split; [exact H2|]; split; [exact H3|];
           intros _ _; split; reflexivity).
    + exists e3. split; [exact F1|]. split; [exact F2|].
      split; [exact F3 | intros _ C; congruence].
    + exists e2. split; [exact O1|]. split; [exact O2|].
      split; [exact O3 | intros C; congruence].
Qed.

End LoopProperties.

(** ** HGFS: concrete runs of the further properties *)

Lemma setattr_without_changes_sends_nothing_witness :
  fst (HgfsVnops.HgfsSetattrInt HgfsVnops.empty_history
         (HgfsVnops.mkSetattrEnv false 0 0 0 0)) = 0
  /\ HgfsVnops.vpool
       (snd (HgfsVnops.HgfsSetattrInt HgfsVnops.empty_history
               (HgfsVnops.mkSetattrEnv false 0 0 0 0)))
     = HgfsVnops.vpool HgfsVnops.empty_history.
Proof.
  destruct (setattr_without_changes_sends_nothing HgfsVnops.empty_history
              (HgfsVnops.mkSetattrEnv false 0 0 0 0) (or_introl eq_refl))
    as (H1 & H2 & _).
  split; [exact H1 | exact H2].
Defined.

(** Mode 0755: no special bits, owner 7, group 5, other 5. *)
Lemma mkdir_sends_the_mode_permission_bits_witness :
  HgfsVnops.perm_fields (A := HgfsVnops.sample_attr_params) 493 = (0, 7, 5, 5)
  /\ 0 * 512 + 7 * 64 + 5 * 8 + 5 = 493 mod 4096.
Proof.
  destruct (mkdir_sends_the_mode_permission_bits
              (A := HgfsVnops.sample_attr_params) HgfsVnops.empty_history 493
              (HgfsVnops.mkMkdirEnv true 5 5 0 0 0) eq_refl eq_refl eq_refl)
    as (_ & H & _).
  split; [reflexivity | exact H].
Defined.

(** Ten bytes in units of four against a server that claims nine bytes
    written each time. *)
Lemma write_returns_against_any_server_witness :
  exists res,
    Hgfs.HgfsWriteInt (P := Hgfs.sample_params) 11 Hgfs.nine_byte_server
      Hgfs.two_buffers Hgfs.open_file (Hgfs.write_uio 0 Hgfs.ten_bytes)
    = Some res.
Proof.
  assert (Hio : 0 < Hgfs.HGFS_IO_MAX (Params := Hgfs.sample_params) < 2 ^ 31)
    by (cbn; lia).
  destruct (write_returns_against_any_server (P := Hgfs.sample_params) Hio
              Hgfs.nine_byte_server Hgfs.two_buffers Hgfs.open_file
              (Hgfs.write_uio 0 Hgfs.ten_bytes) ltac:(cbn; lia))
    as [H _].
  exact H.
Defined.

Lemma whole_write_server_accepting :
  HgfsVnops.accepting (P := Hgfs.sample_params) HgfsVnops.whole_write_server.
Proof. intros i off payload. reflexivity. Qed.

Lemma accepted_write_is_contiguous_witness :
  exists st' u' evs,
    Hgfs.HgfsWriteInt (P := Hgfs.sample_params) 11 HgfsVnops.whole_write_server
      Hgfs.two_buffers Hgfs.open_file (Hgfs.write_uio 3 Hgfs.ten_bytes)
    = Some (0, st', u')
    /\ Hgfs.events st' = evs
    /\ HgfsVnops.contiguous 3 (HgfsVnops.write_requests evs)
    /\ List.concat (List.map snd (HgfsVnops.write_requests evs))
       = Hgfs.ten_bytes.
Proof.
  assert (Hio : 0 < Hgfs.HGFS_IO_MAX (Params := Hgfs.sample_params) < 2 ^ 31)
    by (cbn; lia).
  destruct (accepted_write_is_contiguous (P := Hgfs.sample_params) Hio
              HgfsVnops.whole_write_server Hgfs.two_buffers Hgfs.open_file
              (Hgfs.write_uio 3 Hgfs.ten_bytes) 5
              whole_write_server_accepting ltac:(discriminate) eq_refl
              ltac:(cbn; lia) eq_refl ltac:(cbn; lia))
    as (st' & u' & evs & Hrun & _ & _ & _ & Hev & Hc & Hcat).
  exists st', u', evs. split; [exact Hrun|].
  split; [exact Hev|]. split; [exact Hc | exact Hcat].
Defined.

Lemma zero_length_read_asks_server_write_does_not_witness :
  Hgfs.HgfsWriteInt (P := Hgfs.sample_params) 0 Hgfs.nine_byte_server
    Hgfs.two_buffers Hgfs.open_file (Hgfs.read_uio 2 0)
  = Some (0, Hgfs.two_buffers, Hgfs.read_uio 2 0)
  /\ exists ret st' tail,
       Hgfs.HgfsReadInt (P := Hgfs.sample_params) 1
         (Hgfs.file_server Hgfs.ten_bytes 3) Hgfs.two_buffers Hgfs.open_file
         (Hgfs.read_uio 2 0)
       = Some (ret, st', Hgfs.read_uio 2 0)
       /\ Hgfs.events st'
          = Hgfs.EvAlloc 0%nat
            :: Hgfs.EvSubmit 0%nat (Hgfs.OP_READ_V3 5 2 0) 0 :: tail.
Proof.
  destruct (zero_length_read_asks_server_write_does_not
              (P := Hgfs.sample_params)
              (Hgfs.file_server Hgfs.ten_bytes 3) Hgfs.nine_byte_server
              Hgfs.two_buffers Hgfs.open_file (Hgfs.read_uio 2 0) 5 0%nat [1%nat]
              ltac:(cbn; lia) eq_refl eq_refl ltac:(cbn; lia) eq_refl eq_refl
              ltac:(cbn; lia))
    as (Hw & ret & st' & tail & Hr & Hev & _).
  split; [exact (Hw 0%nat)|].
  exists ret, st', tail. split; [exact Hr | exact Hev].
Defined.

Lemma readdir_never_overruns_buffer_witness :
  exists r,
    Hgfs.HgfsReaddirInt (P := Hgfs.sample_params) 5 Hgfs.sample_dir
      Hgfs.two_buffers Hgfs.open_dir (Hgfs.dir_uio 0 1000) None
    = Some r
    /\ 0 <= Hgfs.uio_resid (Hgfs.re_uio r).
Proof.
  assert (Hrun : exists r,
            Hgfs.HgfsReaddirInt (P := Hgfs.sample_params) 5 Hgfs.sample_dir
              Hgfs.two_buffers Hgfs.open_dir (Hgfs.dir_uio 0 1000) None
            = Some r)
    by (vm_compute; eauto).
  destruct Hrun as (r & Hr). exists r. split; [exact Hr|].
  destruct (readdir_never_overruns_buffer (P := Hgfs.sample_params) 5
              Hgfs.sample_dir Hgfs.two_buffers Hgfs.open_dir
              (Hgfs.dir_uio 0 1000) None r Hr)
    as (new & _ & _ & _ & Hpos).
  apply Hpos. cbn. lia.
Defined.
